(** * open-objects-script: geoSegment and walkRpde

    A shallow embedding of the script that downloads the Firehose (RPDE)
    feeds and segments ScheduledSessions geographically, together with the
    properties of its recurrence expander, page validation, hash-addressed
    store, merge step and segmenter.

    Conventions of the embedding:
    - a JS value is a [JsVal]; [VUndefined] is JS [undefined];
    - a valid [moment] is read on the wall clock of its timezone (in the
      expander, the [scheduleTimezone] of the schedule): a number of
      milliseconds since 1970-01-01 00:00 on that clock, so that adding a
      day keeps the time of the day; a ['YYYY-MM-DD'] string that moment
      can read is the day number it denotes and an ['HH:mm'] string the
      minute of the day it denotes.  The local times that a clock change of
      the timezone skips or repeats are not modelled;
    - a string that moment cannot read gives an invalid moment, which is
      neither before nor after any moment and prints as ['Invalid date'];
      the readers of strings are partial and every function of the script
      that compares moments has its case for the invalid ones;
    - the clock ([moment()]) is an input [now];
    - a generator that may run forever is run with a step budget. *)

From Stdlib Require Import ZArith QArith Qabs String Ascii List Lia Bool.
From Stdlib Require Import Sorting.Sorted DecimalString DecimalZ.
From stdpp Require Import gmap strings list fin_maps sorting.

Import ListNotations.
Local Open Scope string_scope.
Local Open Scope Z_scope.

(** ** Strings *)

Module Str.

(** [s.startsWith(sub)] *)
Fixpoint startsWith (s sub : string) {struct sub} : bool :=
  match sub, s with
  | EmptyString, _ => true
  | String c sub', String d s' => if Ascii.eqb c d then startsWith s' sub' else false
  | String _ _, EmptyString => false
  end.

(** [s.includes(sub)]: [sub] occurs somewhere in [s]. *)
Fixpoint includes (s sub : string) : bool :=
  if startsWith s sub then true
  else match s with
       | EmptyString => false
       | String _ s' => includes s' sub
       end.

(** Drop the first [n] characters. *)
Fixpoint drop (n : nat) (s : string) : string :=
  match n, s with
  | O, _ => s
  | S n', String _ s' => drop n' s'
  | S _, EmptyString => EmptyString
  end.

(** [s.replace(pat, by)] with a string pattern: only the first occurrence
    is replaced. *)
Fixpoint replace (s pat by_ : string) : string :=
  if startsWith s pat then String.append by_ (drop (String.length pat) s)
  else match s with
       | EmptyString => EmptyString
       | String c s' => String c (replace s' pat by_)
       end.

End Str.

(** ** JS values *)

#[warnings="-register-all"]
Inductive JsVal :=
| VUndefined
| VNull
| VBool (b : bool)
| VNum (n : Q)
| VStr (s : string)
| VArr (items : list JsVal)
| VObj (fields : list (string * JsVal)).

(** An object is the list of its bindings; as in [JSON.parse], a later
    binding of a key shadows an earlier one. *)
Fixpoint getField (k : string) (fields : list (string * JsVal)) : option JsVal :=
  match fields with
  | [] => None
  | (k', v) :: rest =>
      match getField k rest with
      | Some v' => Some v'
      | None => if String.eqb k k' then Some v else None
      end
  end.

(** [v.k] for a name [k] that is neither an index nor [length]; [v] is
    neither [null] nor [undefined]. *)
Definition prop (k : string) (v : JsVal) : JsVal :=
  match v with
  | VObj fields => match getField k fields with Some x => x | None => VUndefined end
  | _ => VUndefined
  end.

(** [!!v] *)
Definition truthy (v : JsVal) : bool :=
  match v with
  | VUndefined | VNull => false
  | VBool b => b
  | VNum n => negb (Qeq_bool n 0)
  | VStr s => negb (String.eqb s "")
  | VArr _ | VObj _ => true
  end.

(** [a && b] and [a || b] where evaluating [b] cannot throw. *)
Definition jsAnd (a b : JsVal) : JsVal := if truthy a then b else a.
Definition jsOr (a b : JsVal) : JsVal := if truthy a then a else b.

(** [v === s] for a string [s] *)
Definition strictEqStr (v : JsVal) (s : string) : bool :=
  match v with
  | VStr t => String.eqb t s
  | _ => false
  end.

Definition indexKey (i : nat) : string := NilZero.string_of_uint (Nat.to_uint i).

Fixpoint charsOf (s : string) : list JsVal :=
  match s with
  | EmptyString => []
  | String c s' => VStr (String c EmptyString) :: charsOf s'
  end.

(** The own enumerable properties that [{...v}] copies. *)
Definition ownEntries (v : JsVal) : list (string * JsVal) :=
  match v with
  | VObj fields => fields
  | VArr items => imap (fun i x => (indexKey i, x)) items
  | VStr s => imap (fun i x => (indexKey i, x)) (charsOf s)
  | _ => []
  end.

(** [dissocPath([k], v)] of ramda on an object: a copy without [k]. *)
Definition dissoc (k : string) (fields : list (string * JsVal)) : list (string * JsVal) :=
  List.filter (fun kv => negb (String.eqb k (fst kv))) fields.

(** ** Exceptions *)

Inductive ValidationFailure :=
| NextNotNonEmptyString (value : JsVal)
| ItemsNotArray (value : JsVal)
| InvalidItem (index : Z) (id : JsVal).

Inductive Exn :=
| AxiosError (status : Z)
| Http404Error (url : string)
| IminValidationError (failure : ValidationFailure)
| TypeError
| Error (message : string).

(** The ways a call ends: with a value, with an exception, or not at all
    within the step budget. *)
Inductive result (A : Type) :=
| Ok (a : A)
| Throw (e : Exn)
| Diverge.

Arguments Ok {A} a.
Arguments Throw {A} e.
Arguments Diverge {A}.

(** [v.k] where [v] may be [null] or [undefined] *)
Definition propOf (v : JsVal) (k : string) : result JsVal :=
  match v with
  | VUndefined | VNull => Throw TypeError
  | _ => Ok (prop k v)
  end.

(** ** getIsoWeekdays.js *)

(** The weekday names in the order of the [if]/[else if] chain, with the
    ISO weekday each one pushes. *)
Definition weekdayNames : list (string * Z) :=
  [("Monday", 1); ("Tuesday", 2); ("Wednesday", 3); ("Thursday", 4);
   ("Friday", 5); ("Saturday", 6); ("Sunday", 7)].

(** One iteration of the loop over [byDay]: the first branch of the chain
    whose name [byDayItem] includes pushes its number; no branch, no push. *)
Fixpoint firstIncluded (byDayItem : string) (names : list (string * Z)) : list Z :=
  match names with
  | [] => []
  | (name, isoWeekday) :: rest =>
      if Str.includes byDayItem name then [isoWeekday]
      else firstIncluded byDayItem rest
  end.

Definition isoWeekdaysOfItem (byDayItem : string) : list Z :=
  firstIncluded byDayItem weekdayNames.

(** ISO weekday (1 = Monday .. 7 = Sunday) of a day number; day 0 is
    1970-01-01, a Thursday. *)
Definition isoWeekdayOfDay (day : Z) : Z := (day + 3) mod 7 + 1.

(** The fields of an event schedule that [getIsoWeekdays] and
    [generateDatesWithinTimeWindow] read ([MinimalEventSchedule]), as moment
    reads them.  [byDay = None] stands for a [byDay] that is not an array,
    [startDate = None] and [endDate = None] for a date that is absent (or
    falsy), [endTime = None] for an [endTime] that moment cannot read.  The
    three flags say whether moment can read [startTime], [startDate] and
    [endDate] (an absent date counts as read); where it cannot, the field
    holds 0 and the moments made of it are invalid.  [getIsoWeekdays] and
    [combineYYYYMMDDAndHHMMString] are taken to read a [startDate] alike. *)
Record MinimalEventSchedule := {
  byDay : option (list string);
  startTime : nat;            (* minute of the day *)
  endTime : option nat;       (* minute of the day *)
  startDate : option Z;       (* day number *)
  endDate : option Z;         (* day number *)
  duration : JsVal;
  idTemplate : string;
  startTimeIsValid : bool;
  startDateIsValid : bool;
  endDateIsValid : bool;
}.

(** Every moment that the generator makes of the schedule is valid. *)
Definition momentsAreValid (eventSchedule : MinimalEventSchedule) : bool :=
  startTimeIsValid eventSchedule && startDateIsValid eventSchedule
  && endDateIsValid eventSchedule.

Definition getIsoWeekdays (eventSchedule : MinimalEventSchedule) : list Z :=
  match byDay eventSchedule with
  | None =>
      match startDate eventSchedule with
      | None => []
      | Some d => [isoWeekdayOfDay d]
      end
  | Some items => flat_map isoWeekdaysOfItem items
  end.

(** ** generateDatesWithinTimeWindow.js *)

Definition MINUTE : Z := 60000.
Definition DAY : Z := 86400000.
Definition WEEK : Z := 7 * DAY.

Definition SCHEDULE_TIME_WINDOW_IN_WEEKS : Z := 4.

(** [moment.tz(`${dateString} ${timeString}`, 'YYYY-MM-DD HH:mm', timezone)]
    for a date and a time that moment can read. *)
Definition combineYYYYMMDDAndHHMMString (dateString : Z) (timeString : nat) : Z :=
  dateString * DAY + Z.of_nat timeString * MINUTE.

(** [m.format('YYYY-MM-DD')]: the day a valid moment falls on. *)
Definition formatYYYYMMDD (m : Z) : Z := m / DAY.

(** [m.isoWeekday()] *)
Definition isoWeekday (m : Z) : Z := isoWeekdayOfDay (formatYYYYMMDD m).

(** [moment(m).add(n, 'days')] and [moment(m).add(n, 'weeks')] on a valid
    moment: the same time on the wall clock, [n] days or weeks later. *)
Definition addDays (m n : Z) : Z := m + n * DAY.
Definition addWeeks (m n : Z) : Z := m + n * WEEK.

(** [latestMoment] when [scheduleEndDate] is valid or [INFINITE_FUTURE]
    ([endDate = None]); see [generatedScheduledSessions] for the other
    case. *)
Definition latestMoment (now : Z) (eventSchedule : MinimalEventSchedule) : Z :=
  let timeWindowEndDate := addWeeks now SCHEDULE_TIME_WINDOW_IN_WEEKS in
  match endDate eventSchedule with
  | None => timeWindowEndDate
  | Some d =>
      let scheduleEndDate := combineYYYYMMDDAndHHMMString d (startTime eventSchedule) in
      if timeWindowEndDate <? scheduleEndDate then timeWindowEndDate else scheduleEndDate
  end.

(** [earliestMoment] when [startTime] can be read and [scheduleStartDate] is
    valid or [INFINITE_PAST] ([startDate = None]); see
    [generatedScheduledSessions] for the other cases. *)
Definition earliestMoment (now : Z) (eventSchedule : MinimalEventSchedule) : Z :=
  let todayWithStartTimeMoment :=
    combineYYYYMMDDAndHHMMString (formatYYYYMMDD now) (startTime eventSchedule) in
  let nextStartTimeAfterNowMoment :=
    if todayWithStartTimeMoment <? now then addDays todayWithStartTimeMoment 1
    else todayWithStartTimeMoment in
  match startDate eventSchedule with
  | None => nextStartTimeAfterNowMoment
  | Some d =>
      let scheduleStartDate := combineYYYYMMDDAndHHMMString d (startTime eventSchedule) in
      if nextStartTimeAfterNowMoment >? scheduleStartDate then nextStartTimeAfterNowMoment
      else scheduleStartDate
  end.

(** [Array.prototype.sort()] without a comparator orders by the elements'
    string forms; on the one-digit ISO weekdays 1..7 this is the numeric
    order. *)
Definition sortWeekdays (l : list Z) : list Z := merge_sort Z.le l.

(** [isoWeekdayOffsets]; JS [%] is the remainder of the truncated division,
    whose sign follows the dividend. *)
Definition isoWeekdayOffsets (now : Z) (eventSchedule : MinimalEventSchedule) : list Z :=
  let earliestIsoWeekday := isoWeekday (earliestMoment now eventSchedule) in
  map (fun isoWeekday => Z.rem (isoWeekday - earliestIsoWeekday) 7)
      (sortWeekdays (getIsoWeekdays eventSchedule)).

(** The inner generator [generateScheduledSessionStartDatesEndlessly] as a
    machine: where it stands in its two loops. *)
Inductive GenState :=
| FirstWeek (rest : list Z)
| FurtherWeeks (weekOffset : Z) (rest : list Z).

(** One step of the inner generator: either it yields a number of days to
    add to [earliestMoment], or it moves on silently (a skipped negative
    offset, the end of the first week, [weekOffset += 1]). *)
Definition genStep (offsets : list Z) (st : GenState) : option Z * GenState :=
  match st with
  | FirstWeek [] => (None, FurtherWeeks 1 offsets)
  | FirstWeek (isoWeekdayOffset :: rest) =>
      if isoWeekdayOffset <? 0 then (None, FirstWeek rest)
      else (Some isoWeekdayOffset, FirstWeek rest)
  | FurtherWeeks weekOffset [] => (None, FurtherWeeks (weekOffset + 1) offsets)
  | FurtherWeeks weekOffset (isoWeekdayOffset :: rest) =>
      (Some (weekOffset * 7 + isoWeekdayOffset), FurtherWeeks weekOffset rest)
  end.

(** The [for ... of generateScheduledSessionStartDatesEndlessly()] loop, run
    for at most [fuel] steps of the inner generator.  The result is the
    start dates passed on so far and, when the loop has not returned yet,
    the state the inner generator is in. *)
Fixpoint consume (fuel : nat) (offsets : list Z) (earliest latest : Z) (st : GenState)
  : list Z * option GenState :=
  match fuel with
  | O => ([], Some st)
  | S fuel' =>
      match genStep offsets st with
      | (None, st') => consume fuel' offsets earliest latest st'
      | (Some days, st') =>
          let scheduledSessionStartDate := addDays earliest days in
          if scheduledSessionStartDate >? latest then ([], None)
          else
            let '(later, running) := consume fuel' offsets earliest latest st' in
            (scheduledSessionStartDate :: later, running)
      end
  end.

(** The same loop when [latestMoment] is invalid: no date is after it, and
    every date that the inner generator yields is passed on. *)
Fixpoint yieldedDays (fuel : nat) (offsets : list Z) (st : GenState) : list Z :=
  match fuel with
  | O => []
  | S fuel' =>
      match genStep offsets st with
      | (None, st') => yieldedDays fuel' offsets st'
      | (Some days, st') => days :: yieldedDays fuel' offsets st'
      end
  end.

(** A generated ScheduledSession with a valid start; [ssStartDate] and
    [ssEndDate] are the moments that the object's [startDate] and [endDate]
    strings format, [ssEndDate = None] an invalid moment. *)
Record ScheduledSession := {
  ssId : string;
  ssStartDate : Z;
  ssEndDate : option Z;
  ssDuration : JsVal;   (* [VUndefined]: no [duration] property *)
}.

Section Expander.

(** [moment(m).utc().format()] *)
Variable formatUtc : Z -> string.

Definition scheduledSessionAt (eventSchedule : MinimalEventSchedule)
    (scheduledSessionStartDate : Z) : ScheduledSession :=
  {| ssId := Str.replace (idTemplate eventSchedule) "{startDate}"
               (formatUtc scheduledSessionStartDate);
     ssStartDate := scheduledSessionStartDate;
     ssEndDate := option_map
                    (combineYYYYMMDDAndHHMMString (formatYYYYMMDD scheduledSessionStartDate))
                    (endTime eventSchedule);
     ssDuration := if truthy (duration eventSchedule) then duration eventSchedule
                   else VUndefined |}.

(** [generateDatesWithinTimeWindow(eventSchedule)] on a schedule all of
    whose moments are valid, run for at most [fuel] steps: the sessions
    yielded so far, and whether the generator has returned.
    [generatedScheduledSessions] below is the generator on every schedule
    that passes the validation. *)
Definition generateDatesWithinTimeWindow (fuel : nat) (now : Z)
    (eventSchedule : MinimalEventSchedule) : list ScheduledSession * bool :=
  let latest := latestMoment now eventSchedule in
  let earliest := earliestMoment now eventSchedule in
  if earliest >? latest then ([], true)
  else
    let '(dates, running) :=
      consume fuel (isoWeekdayOffsets now eventSchedule) earliest latest
              (FirstWeek (isoWeekdayOffsets now eventSchedule)) in
    (map (scheduledSessionAt eventSchedule) dates,
     match running with None => true | Some _ => false end).

(** [[...generateDatesWithinTimeWindow(eventSchedule)]]: the array exists
    only once the generator has returned. *)
Definition spreadGeneratedDates (fuel : nat) (now : Z)
    (eventSchedule : MinimalEventSchedule) : option (list ScheduledSession) :=
  match generateDatesWithinTimeWindow fuel now eventSchedule with
  | (sessions, true) => Some sessions
  | (_, false) => None
  end.

End Expander.

(** ** getFirehosePage.js *)

(** The response of the server to the request of [axios]. *)
Record AxiosResponse := {
  status : Z;
  data : JsVal;
}.

Record FirehosePage := {
  nextNextUrl : string;
  items : list JsVal;
}.

(** [array.findIndex(p)], [-1] when no element satisfies [p]. *)
Fixpoint findIndexFrom {A : Type} (p : A -> bool) (l : list A) (i : Z) : Z :=
  match l with
  | [] => -1
  | x :: rest => if p x then i else findIndexFrom p rest (i + 1)
  end.

Definition findIndex {A : Type} (p : A -> bool) (l : list A) : Z := findIndexFrom p l 0.

(** [!item || (item.state !== 'updated' && item.state !== 'deleted')] *)
Definition isInvalidItem (item : JsVal) : bool :=
  negb (truthy item)
  || (negb (strictEqStr (prop "state" item) "updated")
      && negb (strictEqStr (prop "state" item) "deleted")).

(** [validateStatus]: 2xx and 404 are let through. *)
Definition validateStatus (status : Z) : bool :=
  ((200 <=? status) && (status <? 300)) || (status =? 404).

(** [getFirehosePage(pageUrl, apiKey)] from the response of the server on;
    [axios] rejects a response whose status [validateStatus] refuses. *)
Definition getFirehosePage (pageUrl : string) (rpdePage : AxiosResponse)
  : result FirehosePage :=
  if negb (validateStatus (status rpdePage)) then Throw (AxiosError (status rpdePage))
  else if status rpdePage =? 404 then Throw (Http404Error pageUrl)
  else
    match propOf (data rpdePage) "next" with
    | Throw e => Throw e
    | Diverge => Diverge
    | Ok next =>
        match next with
        | VStr (String c rest) =>
            match prop "items" (data rpdePage) with
            | VArr pageItems =>
                let invalidItemIndex := findIndex isInvalidItem pageItems in
                if invalidItemIndex >? 0 then
                  let invalidItem := nth (Z.to_nat invalidItemIndex) pageItems VUndefined in
                  let invalidItemId := jsAnd invalidItem (prop "id" invalidItem) in
                  Throw (IminValidationError (InvalidItem invalidItemIndex invalidItemId))
                else Ok {| nextNextUrl := String c rest; items := pageItems |}
            | other => Throw (IminValidationError (ItemsNotArray other))
            end
        | other => Throw (IminValidationError (NextNotNonEmptyString other))
        end
    end.

(** ** generateSegmentIdentifiersForMergedScheduledSession.js and config.js *)

Record Segment := {
  identifier : string;
  latitude : Q;
  longitude : Q;
  radius : Q;
  attendanceModeFilter : string;
}.

Definition OFFLINE : string := "https://schema.org/OfflineEventAttendanceMode".
Definition ONLINE : string := "https://schema.org/OnlineEventAttendanceMode".
Definition MIXED : string := "https://schema.org/MixedEventAttendanceMode".

Definition getEventsEventAttendanceMode (item : JsVal) : JsVal :=
  jsOr (prop "eventAttendanceMode" item) (VStr OFFLINE).

(** [[a, b].includes(v)] for strings [a], [b] *)
Definition includesStr (l : list string) (v : JsVal) : bool :=
  existsb (strictEqStr v) l.

Definition doesEventSupportOnline (item : JsVal) : bool :=
  includesStr [ONLINE; MIXED] (getEventsEventAttendanceMode item).

Definition doesEventSupportOffline (item : JsVal) : bool :=
  includesStr [OFFLINE; MIXED] (getEventsEventAttendanceMode item).

(** [array.filter(p)] for a predicate that may throw. *)
Fixpoint filterThrowing {A : Type} (p : A -> result bool) (l : list A) : result (list A) :=
  match l with
  | [] => Ok []
  | x :: rest =>
      match p x with
      | Ok b =>
          match filterThrowing p rest with
          | Ok kept => Ok (if b then x :: kept else kept)
          | Throw e => Throw e
          | Diverge => Diverge
          end
      | Throw e => Throw e
      | Diverge => Diverge
      end
  end.

Section Geo.

(** [geolib.getDistance({latitude, longitude}, {latitude, longitude})], in
    metres, from the two coordinates of the item's geo and the segment's.
    The segmenter is modelled where geolib reads the coordinates and the
    product [segment.radius * 1000] is exact; [isSegmentNear] below, the
    same test in [processSessionSeriesItems], has the other cases. *)
Variable getDistance : JsVal * JsVal -> Q * Q -> Q.

(** [distanceBetweenGeos <= segmentRadiusInMeters] *)
Definition isWithinRadius (geo : JsVal) (segment : Segment) : bool :=
  let segmentRadiusInMeters := (radius segment * 1000)%Q in
  let distanceBetweenGeos :=
    getDistance (prop "latitude" geo, prop "longitude" geo)
                (latitude segment, longitude segment) in
  Qle_bool distanceBetweenGeos segmentRadiusInMeters.

(** The [switch] on [segment.attendanceModeFilter]. *)
Definition attendanceModeMatches (doesSupportOnline doesSupportOffline : bool)
    (segment : Segment) : result bool :=
  if String.eqb (attendanceModeFilter segment) "all" then Ok true
  else if String.eqb (attendanceModeFilter segment) "physical-only" then Ok doesSupportOffline
  else if String.eqb (attendanceModeFilter segment) "virtual-only" then Ok doesSupportOnline
  else Throw (Error "unrecognised attendanceModeFilter").

Definition generateSegmentIdentifiersForMergedScheduledSession
    (mergedScheduledSession : JsVal) (segments : list Segment) : result (list string) :=
  let physicalLocationGeo :=
    jsOr (jsAnd (prop "location" mergedScheduledSession)
                (prop "geo" (prop "location" mergedScheduledSession)))
         (jsAnd (prop "beta:affiliatedLocation" mergedScheduledSession)
                (prop "geo" (prop "beta:affiliatedLocation" mergedScheduledSession))) in
  let doesSupportOnline := doesEventSupportOnline mergedScheduledSession in
  let doesSupportOffline := doesEventSupportOffline mergedScheduledSession in
  if negb (truthy physicalLocationGeo) && doesSupportOffline then Ok []
  else
    match filterThrowing (attendanceModeMatches doesSupportOnline doesSupportOffline) segments with
    | Ok matching =>
        Ok (map identifier
              (List.filter
                 (fun segment =>
                    if negb (truthy physicalLocationGeo) then true
                    else isWithinRadius physicalLocationGeo segment)
                 matching))
    | Throw e => Throw e
    | Diverge => Diverge
    end.

End Geo.

(** ** The output directory and the log *)

(** A log message: the literal parts of the template string and the values
    interpolated into it. *)
Inductive LogFragment :=
| Lit (s : string)
| Val (v : JsVal).

Record LogEntry := {
  level : string;
  message : list LogFragment;
}.

(** A path is the list of the components given to [path.join], below the
    output directory.  JSON files and text files (the [index.html]
    listings) have names that cannot coincide and are kept apart. *)
Record Store := {
  jsonFiles : gmap (list string) JsVal;
  textFiles : gmap (list string) string;
  logged : list LogEntry;
}.

Definition M (A : Type) : Type := Store -> result A * Store.

Definition ret {A : Type} (a : A) : M A := fun st => (Ok a, st).

Definition bind {A B : Type} (c : M A) (k : A -> M B) : M B :=
  fun st =>
    match c st with
    | (Ok a, st') => k a st'
    | (Throw e, st') => (Throw e, st')
    | (Diverge, st') => (Diverge, st')
    end.

Definition liftR {A : Type} (r : result A) : M A := fun st => (r, st).

Notation "x <- c1 ;; c2" := (bind c1 (fun x => c2))
  (at level 100, c1 at next level, right associativity).
Notation "c1 ;;; c2" := (bind c1 (fun _ => c2))
  (at level 100, right associativity).

(** [for (const x of l) { body }] *)
Fixpoint forEach {A : Type} (l : list A) (body : A -> M unit) : M unit :=
  match l with
  | [] => ret tt
  | x :: rest => body x ;;; forEach rest body
  end.

Definition readJsonNullIfNotExists (filePath : list string) : M JsVal :=
  fun st => (Ok (default VNull (jsonFiles st !! filePath)), st).

Definition writeJson (filePath : list string) (v : JsVal) : M unit :=
  fun st => (Ok tt, {| jsonFiles := <[filePath := v]> (jsonFiles st);
                       textFiles := textFiles st;
                       logged := logged st |}).

Definition appendFile (filePath : list string) (chunk : string) : M unit :=
  fun st => (Ok tt, {| jsonFiles := jsonFiles st;
                       textFiles := <[filePath := String.append (default "" (textFiles st !! filePath)) chunk]>
                                      (textFiles st);
                       logged := logged st |}).

Definition log (lvl : string) (msg : list LogFragment) : M unit :=
  fun st => (Ok tt, {| jsonFiles := jsonFiles st;
                       textFiles := textFiles st;
                       logged := logged st ++ [{| level := lvl; message := msg |}] |}).

Definition getSegmentIndexFilePath (segmentIdentifier : string) : list string :=
  ["segments"; segmentIdentifier; "index.html"].

Definition getSessionSeriesFilePath (sessionSeriesIdHash : string) : list string :=
  ["sessionseries"; String.append sessionSeriesIdHash ".json"].

Definition getScheduledSessionFilePath (segmentIdentifier scheduledSessionIdHash : string)
  : list string :=
  ["segments"; segmentIdentifier; String.append scheduledSessionIdHash ".json"].

Definition DQUOTE : string := String (ascii_of_nat 34) EmptyString.
Definition CRLF : string := String (ascii_of_nat 13) (String (ascii_of_nat 10) EmptyString).

(** The line added to a segment's [index.html]. *)
Definition indexLine (scheduledSessionIdHash : string) : string :=
  String.append "<a href="
    (String.append DQUOTE
       (String.append scheduledSessionIdHash
          (String.append ".json"
             (String.append DQUOTE (String.append ">link</a>" CRLF))))).

(** ** geoSegment.js *)

Definition SCHEDULE_TYPE : string := "Schedule".
Definition WEEKS_IN_FUTURE_TIME_WINDOW : Z := 1.

Definition nonEmptyString (v : JsVal) : option string :=
  match v with
  | VStr (String c rest) => Some (String c rest)
  | _ => None
  end.

Fixpoint nonEmptyStrings (l : list JsVal) : option (list string) :=
  match l with
  | [] => Some []
  | v :: rest =>
      match nonEmptyString v, nonEmptyStrings rest with
      | Some s, Some ss => Some (s :: ss)
      | _, _ => None
      end
  end.

(** [for (const x of v)]: arrays and strings are iterable. *)
Definition iterate (v : JsVal) : result (list JsVal) :=
  match v with
  | VArr l => Ok l
  | VStr s => Ok (charsOf s)
  | _ => Throw TypeError
  end.

(** An argument of [path.join] must be a string. *)
Definition pathComponent (v : JsVal) : result string :=
  match v with
  | VStr s => Ok s
  | _ => Throw TypeError
  end.

(** The name of the merged record:
    [(sessionSeries.superEvent && sessionSeries.superEvent.name)
      || sessionSeries.name || scheduledSessionData.name] *)
Definition mergedName (scheduledSessionData sessionSeries : JsVal) : JsVal :=
  jsOr (jsOr (jsAnd (prop "superEvent" sessionSeries)
                    (prop "name" (prop "superEvent" sessionSeries)))
             (prop "name" sessionSeries))
       (prop "name" scheduledSessionData).

(** [mergedScheduledSessionData], the object literal of four spreads *)
Definition mergeScheduledSessionAndSessionSeries
    (scheduledSessionData sessionSeries : JsVal) : list (string * JsVal) :=
  ownEntries (prop "superEvent" sessionSeries)
  ++ dissoc "superEvent" (ownEntries sessionSeries)
  ++ ownEntries scheduledSessionData
  ++ [("name", mergedName scheduledSessionData sessionSeries)].

Definition INVALID_DATE : string := "Invalid date".

Definition isSome {A : Type} (o : option A) : bool :=
  match o with
  | Some _ => true
  | None => false
  end.

(** [m.isBefore(other)] and [m.isAfter(other)] for a moment [m] that may be
    invalid ([None]) and a valid [other]: false when [m] is invalid. *)
Definition isBefore (m : option Z) (other : Z) : bool :=
  match m with
  | Some instant => instant <? other
  | None => false
  end.

Definition isAfter (m : option Z) (other : Z) : bool :=
  match m with
  | Some instant => instant >? other
  | None => false
  end.

Section GeoSegment.

(** [crypto.createHash('sha1').update(string).digest('hex')] *)
Variable hashString : string -> string.
(** [mergeToModel(model, dataInstance)], built on the [deepmerge] package *)
Variable mergeToModel : JsVal -> JsVal -> JsVal.
(** [geolib.getDistance({latitude, longitude}, {latitude, longitude})], in
    metres; it throws where it cannot read a coordinate. *)
Variable getDistance : JsVal * JsVal -> Q * Q -> result Q.
(** [a * b] on numbers: the product as IEEE 754 doubles give it. *)
Variable multiply : Q -> Q -> Q.
(** [moment(m).utc().format()] of a valid moment. *)
Variable formatUtc : Z -> string.
(** What moment prints for the end of a session whose start is invalid:
    the moment that it makes of ['Invalid date'] and of the [endTime] of
    the schedule. *)
Variable formatEndOfInvalidStart : MinimalEventSchedule -> string.
(** What moment reads from an ['HH:mm'] string, from a date interpolated
    into a ['YYYY-MM-DD HH:mm'] string, and from [moment(value)]; [None]
    where it cannot read the value and the moment is invalid. *)
Variable parseHHmm : string -> option nat.
Variable parseYYYYMMDD : JsVal -> option Z.
Variable momentOf : JsVal -> option Z.

(** [hashString(v)]: [update] throws a [TypeError] unless given a string. *)
Definition hashStringOf (v : JsVal) : result string :=
  match v with
  | VStr s => Ok (hashString s)
  | _ => Throw TypeError
  end.

(** [mergeIntoModelExample(modelFilePath, data)] *)
Definition mergeIntoModelExample (modelFilePath : list string) (d : JsVal) : M unit :=
  existingModel <- readJsonNullIfNotExists modelFilePath ;;
  let existingModel := if truthy existingModel then existingModel else VObj [] in
  writeJson modelFilePath (mergeToModel existingModel d).

Definition scheduledSessionClashWarning (existingId newId : JsVal) (hash : string)
  : list LogFragment :=
  [Lit "Already downloaded ScheduledSession:"; Val existingId;
   Lit " and newly received ScheduledSession: "; Val newId;
   Lit " are not the same despite having the same hash: "; Lit hash].

(** The body of the loop over [sessionSeries['imin:segment']]. *)
Definition writeScheduledSessionToSegment (mergedScheduledSessionData : JsVal)
    (mergedId scheduledSessionIdHash : string) (segmentIdentifier : JsVal) : M unit :=
  segmentIdentifier <- liftR (pathComponent segmentIdentifier) ;;
  let scheduledSessionFilePath :=
    getScheduledSessionFilePath segmentIdentifier scheduledSessionIdHash in
  let modelFilePath := getScheduledSessionFilePath segmentIdentifier "model" in
  existingScheduledSession <- readJsonNullIfNotExists scheduledSessionFilePath ;;
  let isExistingScheduledSession := truthy existingScheduledSession in
  if isExistingScheduledSession
     && negb (strictEqStr (prop "id" existingScheduledSession) mergedId)
  then
    log "warn" (scheduledSessionClashWarning (prop "id" existingScheduledSession)
                  (VStr mergedId) scheduledSessionIdHash)
  else
    writeJson scheduledSessionFilePath mergedScheduledSessionData ;;;
    mergeIntoModelExample modelFilePath mergedScheduledSessionData ;;;
    if negb isExistingScheduledSession
    then appendFile (getSegmentIndexFilePath segmentIdentifier)
                    (indexLine scheduledSessionIdHash)
    else ret tt.

(** [mergeScheduledSessionAndSessionSeriesAndWrite]; neither argument is
    [null] or [undefined] at its two call sites. *)
Definition mergeScheduledSessionAndSessionSeriesAndWrite
    (scheduledSessionData sessionSeries : JsVal) : M unit :=
  let merged := mergeScheduledSessionAndSessionSeries scheduledSessionData sessionSeries in
  match getField "id" merged with
  | Some (VStr mergedId) =>
      let scheduledSessionIdHash := hashString mergedId in
      let mergedScheduledSessionData :=
        VObj (merged ++ [("imin:fileIdentifier", VStr scheduledSessionIdHash)]) in
      segmentIdentifiers <- liftR (iterate (prop "imin:segment" sessionSeries)) ;;
      forEach segmentIdentifiers
        (writeScheduledSessionToSegment mergedScheduledSessionData mergedId
           scheduledSessionIdHash)
  | _ => liftR (Throw TypeError)
  end.

(** [MINIMAL_EVENT_SCHEDULE_SCHEMA.validate(eventSchedule, { allowUnknown:
    true })]: [byDay] an array of at least one string, [startTime],
    [endTime] and [idTemplate] strings ([Joi.string()] refuses the empty
    string).  [Some] is the schedule as the expander reads it, [None] is
    [joiValidation.error].  The schema does not look at what the strings
    say: a schedule whose times or dates moment cannot read passes. *)
Definition validateMinimalEventSchedule (eventSchedule : JsVal)
  : option MinimalEventSchedule :=
  match eventSchedule with
  | VObj _ =>
      match prop "byDay" eventSchedule,
            nonEmptyString (prop "startTime" eventSchedule),
            nonEmptyString (prop "endTime" eventSchedule),
            nonEmptyString (prop "idTemplate" eventSchedule) with
      | VArr (d :: ds), Some st, Some et, Some template =>
          match nonEmptyStrings (d :: ds) with
          | Some days =>
              Some {| byDay := Some days;
                      startTime := default 0%nat (parseHHmm st);
                      endTime := parseHHmm et;
                      startDate := if truthy (prop "startDate" eventSchedule)
                                   then Some (default 0
                                                (parseYYYYMMDD (prop "startDate" eventSchedule)))
                                   else None;
                      endDate := if truthy (prop "endDate" eventSchedule)
                                 then Some (default 0
                                              (parseYYYYMMDD (prop "endDate" eventSchedule)))
                                 else None;
                      duration := prop "duration" eventSchedule;
                      idTemplate := template;
                      startTimeIsValid := isSome (parseHHmm st);
                      startDateIsValid :=
                        negb (truthy (prop "startDate" eventSchedule))
                        || isSome (parseYYYYMMDD (prop "startDate" eventSchedule));
                      endDateIsValid :=
                        negb (truthy (prop "endDate" eventSchedule))
                        || isSome (parseYYYYMMDD (prop "endDate" eventSchedule)) |}
          | None => None
          end
      | _, _, _, _ => None
      end
  | _ => None
  end.

(** The object that the expander yields for a session. *)
Definition scheduledSessionObject (s : ScheduledSession) : JsVal :=
  VObj ([("type", VStr "ScheduledSession");
         ("id", VStr (ssId s));
         ("startDate", VStr (formatUtc (ssStartDate s)));
         ("endDate", VStr (match ssEndDate s with
                           | Some scheduledSessionEndDate => formatUtc scheduledSessionEndDate
                           | None => INVALID_DATE
                           end))]
        ++ (if truthy (ssDuration s) then [("duration", ssDuration s)] else [])).

(** The object that the expander yields when the start is an invalid
    moment, which prints as ['Invalid date']. *)
Definition invalidDateSessionObject (eventSchedule : MinimalEventSchedule) : JsVal :=
  VObj ([("type", VStr "ScheduledSession");
         ("id", VStr (Str.replace (idTemplate eventSchedule) "{startDate}" INVALID_DATE));
         ("startDate", VStr INVALID_DATE);
         ("endDate", VStr (formatEndOfInvalidStart eventSchedule))]
        ++ (if truthy (duration eventSchedule) then [("duration", duration eventSchedule)]
            else [])).

(** [generateDatesWithinTimeWindow(eventSchedule)] on a schedule that has
    passed the validation, run for at most [fuel] steps: the objects yielded
    so far, and whether the generator has returned.

    - With [startTime] or [startDate] unreadable [earliestMoment] is
      invalid: the early return is not taken, [earliestIsoWeekday] and the
      offsets are [NaN], no offset is skipped ([NaN < 0] is false) and every
      date yielded is invalid, so that it is not after [latestMoment].
    - Otherwise, with [endDate] unreadable [latestMoment] is invalid: the
      early return is not taken and no date is after it.
    - Otherwise every moment is valid. *)
Definition generatedScheduledSessions (fuel : nat) (now : Z)
    (eventSchedule : MinimalEventSchedule) : list JsVal * bool :=
  if negb (startTimeIsValid eventSchedule && startDateIsValid eventSchedule) then
    let notANumber := map (fun _ => 0) (getIsoWeekdays eventSchedule) in
    (map (fun _ => invalidDateSessionObject eventSchedule)
         (yieldedDays fuel notANumber (FirstWeek notANumber)),
     false)
  else if negb (endDateIsValid eventSchedule) then
    let isoWeekdayOffsets := isoWeekdayOffsets now eventSchedule in
    (map (fun days =>
            scheduledSessionObject
              (scheduledSessionAt formatUtc eventSchedule
                 (addDays (earliestMoment now eventSchedule) days)))
         (yieldedDays fuel isoWeekdayOffsets (FirstWeek isoWeekdayOffsets)),
     false)
  else
    let '(sessions, returned) := generateDatesWithinTimeWindow formatUtc fuel now eventSchedule in
    (map scheduledSessionObject sessions, returned).

(** The loop over [sessionSeriesData.eventSchedule]: the corrected
    schedules and the sessions generated for every valid one.  The array
    of the sessions of a schedule exists only once the generator has
    returned, which it does not when one of its moments is invalid. *)
Fixpoint expandEventSchedules (fuel : nat) (now : Z) (eventSchedules : list JsVal)
  : result (list JsVal * list ScheduledSession) :=
  match eventSchedules with
  | [] => Ok ([], [])
  | eventSchedule :: rest =>
      match propOf eventSchedule "type" with
      | Throw e => Throw e
      | Diverge => Diverge
      | Ok type =>
          if negb (strictEqStr type SCHEDULE_TYPE) then expandEventSchedules fuel now rest
          else
            match validateMinimalEventSchedule eventSchedule with
            | None =>
                let correctedSchedule :=
                  VObj (ownEntries eventSchedule ++ [("type", VStr "PartialSchedule")])%list in
                match expandEventSchedules fuel now rest with
                | Ok (corrected, generated) => Ok (correctedSchedule :: corrected, generated)
                | other => other
                end
            | Some schedule =>
                match (if momentsAreValid schedule
                       then spreadGeneratedDates formatUtc fuel now schedule
                       else None) with
                | None => Diverge
                | Some sessions =>
                    match expandEventSchedules fuel now rest with
                    | Ok (corrected, generated) =>
                        Ok (eventSchedule :: corrected, (sessions ++ generated)%list)
                    | other => other
                    end
                end
            end
      end
  end.

(** The [if]/[else if]/[else continue] that picks the geo of a
    SessionSeries; [None] is the [continue]. *)
Definition sessionSeriesPhysicalLocationGeo (itemData : JsVal) : result (option JsVal) :=
  match propOf itemData "location" with
  | Throw e => Throw e
  | Diverge => Diverge
  | Ok location =>
      if truthy (jsAnd location (prop "geo" location)) then Ok (Some (prop "geo" location))
      else
        let affiliated := prop "beta:affiliatedLocation" itemData in
        if truthy (jsAnd affiliated (prop "geo" affiliated))
        then Ok (Some (prop "geo" affiliated))
        else Ok None
  end.

Definition sessionSeriesClashWarning (existingId newId : JsVal) (hash : string)
  : list LogFragment :=
  [Lit "Already downloaded SessionSeries:"; Val existingId;
   Lit " and newly received SessionSeries: "; Val newId;
   Lit " are not the same despite having the same hash: "; Lit hash].

(** The end of the loop body of [processSessionSeriesItems]: the write of
    the SessionSeries and of its generated ScheduledSessions. *)
Definition writeSessionSeries (itemId : JsVal)
    (sessionSeriesData sessionSeriesDataWithCorrectedEventSchedules : JsVal)
    (scheduledSessionsForEveryEventSchedule : list ScheduledSession) : M unit :=
  sessionSeriesIdHash <- liftR (hashStringOf itemId) ;;
  let sessionSeriesFilePath := getSessionSeriesFilePath sessionSeriesIdHash in
  existingSessionSeries <- readJsonNullIfNotExists sessionSeriesFilePath ;;
  if truthy existingSessionSeries
     && negb (match itemId with
              | VStr s => strictEqStr (prop "id" existingSessionSeries) s
              | _ => false
              end)
  then
    log "warn" (sessionSeriesClashWarning (prop "id" existingSessionSeries) itemId
                  sessionSeriesIdHash)
  else
    writeJson sessionSeriesFilePath sessionSeriesDataWithCorrectedEventSchedules ;;;
    forEach scheduledSessionsForEveryEventSchedule
      (fun generatedScheduledSession =>
         mergeScheduledSessionAndSessionSeriesAndWrite
           (scheduledSessionObject generatedScheduledSession) sessionSeriesData).

(** The test of the loop over the segments:
    [distanceBetweenGeos <= segmentRadiusInMeters]. *)
Definition isSegmentNear (sessionSeriesPhysicalLocationGeo : JsVal) (segment : Segment)
  : result bool :=
  let segmentRadiusInMeters := multiply (radius segment) 1000 in
  match getDistance (prop "latitude" sessionSeriesPhysicalLocationGeo,
                     prop "longitude" sessionSeriesPhysicalLocationGeo)
                    (latitude segment, longitude segment) with
  | Ok distanceBetweenGeos => Ok (Qle_bool distanceBetweenGeos segmentRadiusInMeters)
  | Throw e => Throw e
  | Diverge => Diverge
  end.

(** The body of the loop of [processSessionSeriesItems]; [ret tt] where the
    source says [continue]. *)
Definition processSessionSeriesItem (fuel : nat) (now : Z) (segments : list Segment)
    (item : JsVal) : M unit :=
  state <- liftR (propOf item "state") ;;
  if strictEqStr state "deleted" then ret tt
  else if negb (truthy (prop "id" item)) then ret tt
  else
    geo <- liftR (sessionSeriesPhysicalLocationGeo (prop "data" item)) ;;
    match geo with
    | None => ret tt
    | Some sessionSeriesPhysicalLocationGeo =>
        let itemData := prop "data" item in
        if truthy (prop "beta:presentAsSlots" itemData)
           || truthy (jsAnd (prop "superEvent" itemData)
                            (prop "beta:presentAsSlots" (prop "superEvent" itemData)))
        then ret tt
        else
          nearSegments <-
            liftR (filterThrowing (isSegmentNear sessionSeriesPhysicalLocationGeo) segments) ;;
          let iminSegment := map identifier nearSegments in
          let sessionSeriesData :=
            VObj (ownEntries itemData ++ [("imin:segment", VArr (map VStr iminSegment))]) in
          match iminSegment with
          | [] => ret tt
          | _ :: _ =>
              expanded <-
                liftR (match prop "eventSchedule" sessionSeriesData with
                       | VArr eventSchedules => expandEventSchedules fuel now eventSchedules
                       | _ => Ok ([], [])
                       end) ;;
              let '(correctedEventSchedules, scheduledSessionsForEveryEventSchedule) :=
                expanded in
              let sessionSeriesDataWithCorrectedEventSchedules :=
                VObj (ownEntries sessionSeriesData
                      ++ [("eventSchedule", VArr correctedEventSchedules)]) in
              writeSessionSeries (prop "id" item) sessionSeriesData
                sessionSeriesDataWithCorrectedEventSchedules
                scheduledSessionsForEveryEventSchedule
          end
    end.

Definition processSessionSeriesItems (fuel : nat) (now : Z) (pageItems : list JsVal)
    (segments : list Segment) : M unit :=
  forEach pageItems (processSessionSeriesItem fuel now segments).

Definition superEventClashWarning (superEvent seriesId : JsVal) (hash : string)
  : list LogFragment :=
  [Lit "ScheduledSession superEvent:"; Val superEvent;
   Lit " and SessionSeries ID: "; Val seriesId;
   Lit " are not the same despite having the same hash: "; Lit hash].

(** The body of the loop of [processScheduledSessionItems]. *)
Definition processScheduledSessionItem (now : Z) (scheduledSessionItem : JsVal) : M unit :=
  state <- liftR (propOf scheduledSessionItem "state") ;;
  if strictEqStr state "deleted" then ret tt
  else if negb (truthy (prop "id" scheduledSessionItem)) then ret tt
  else
    itemStartDate <- liftR (propOf (prop "data" scheduledSessionItem) "startDate") ;;
    let itemData := prop "data" scheduledSessionItem in
    if negb (truthy itemStartDate) || isBefore (momentOf itemStartDate) now then ret tt
    else if isAfter (momentOf itemStartDate) (addWeeks now WEEKS_IN_FUTURE_TIME_WINDOW)
    then ret tt
    else
      scheduledSessionSuperEventIdHash <- liftR (hashStringOf (prop "superEvent" itemData)) ;;
      sessionSeries <-
        readJsonNullIfNotExists (getSessionSeriesFilePath scheduledSessionSuperEventIdHash) ;;
      if negb (truthy sessionSeries) then ret tt
      else if negb (match prop "superEvent" itemData with
                    | VStr s => strictEqStr (prop "id" sessionSeries) s
                    | _ => false
                    end)
      then
        log "warn" (superEventClashWarning (prop "superEvent" itemData)
                      (prop "id" sessionSeries) scheduledSessionSuperEventIdHash)
      else mergeScheduledSessionAndSessionSeriesAndWrite itemData sessionSeries.

Definition processScheduledSessionItems (now : Z) (pageItems : list JsVal) : M unit :=
  forEach pageItems (processScheduledSessionItem now).

End GeoSegment.

(** ** mergeToModel: the merge of two arrays *)

(** [isObject] of lodash on a JSON value: objects and arrays. *)
Definition isObject (v : JsVal) : bool :=
  match v with
  | VObj _ | VArr _ => true
  | _ => false
  end.

Definition isArray (v : JsVal) : bool :=
  match v with
  | VArr _ => true
  | _ => false
  end.

(** [l.every((s) => typeof s === 'string')], with the strings. *)
Fixpoint allStrings (l : list JsVal) : option (list string) :=
  match l with
  | [] => Some []
  | VStr x :: rest =>
      match allStrings rest with
      | Some xs => Some (x :: xs)
      | None => None
      end
  | _ :: _ => None
  end.

(** [Array.from(new Set(l))] for strings: the strings in the order of
    their first occurrence; [seen] is what the set holds already. *)
Fixpoint arrayFromSet (seen : list string) (l : list string) : list string :=
  match l with
  | [] => []
  | x :: rest =>
      if existsb (String.eqb x) seen then arrayFromSet seen rest
      else x :: arrayFromSet (x :: seen) rest
  end.

(** [combineMerge(target, source)], the [arrayMerge] option given to
    [deepmerge]; [mergeToModel] is the function it is a closure of. *)
Definition combineMerge (mergeToModel : JsVal -> JsVal -> JsVal) (target source : JsVal)
  : result JsVal :=
  if isArray target && negb (isArray source) then Ok target
  else if isArray source && negb (isArray target) then Ok source
  else
    match target, source with
    | VArr targetItems, VArr sourceItems =>
        match allStrings targetItems, allStrings sourceItems with
        | Some targetStrings, Some sourceStrings =>
            Ok (VArr (map VStr
                        (firstn 10 (arrayFromSet [] (targetStrings ++ sourceStrings)))))
        | _, _ =>
            if forallb isObject targetItems && forallb isObject sourceItems
            then
              let destination :=
                match targetItems with
                | first :: _ => first
                | [] => VObj []
                end in
              Ok (VArr [fold_left mergeToModel sourceItems destination])
            else Ok source
        end
    | _, _ => Throw TypeError
    end.

(** ** The walk of a feed *)

(** How [downloadFirehosePageAndProcess] ends: at the [break], or because
    the process was ended while a page was being fetched. *)
Inductive WalkEnd :=
| EndOfFeed
| ProcessExit.

Section Walk.

(** [getFirehosePageWithExponentialBackoff(url, firehoseApiKey)] at the
    [n]-th request of a walk: what the network and the
    [exponential-backoff] package end up with, after the warnings that the
    retries log; [None] where it ends the process with [process.exit(1)]. *)
Variable getFirehosePageWithExponentialBackoff : nat -> string -> M (option FirehosePage).

(** The [while (true)] loop, after [requests] requests, standing at
    [nextUrl]. *)
Fixpoint downloadFirehosePageAndProcessFrom (fuel requests : nat) (nextUrl : string)
    (processItemsFn : list JsVal -> list Segment -> M unit) (segments : list Segment)
  : M WalkEnd :=
  match fuel with
  | O => liftR Diverge
  | S fuel' =>
      page <- getFirehosePageWithExponentialBackoff requests nextUrl ;;
      match page with
      | None => ret ProcessExit
      | Some page =>
          processItemsFn (items page) segments ;;;
          if String.eqb (nextNextUrl page) nextUrl then ret EndOfFeed
          else downloadFirehosePageAndProcessFrom fuel' (S requests) (nextNextUrl page)
                 processItemsFn segments
      end
  end.

Definition downloadFirehosePageAndProcess (fuel : nat) (firehosePageUrl : string)
    (processItemsFn : list JsVal -> list Segment -> M unit) (segments : list Segment)
  : M WalkEnd :=
  downloadFirehosePageAndProcessFrom fuel 0 firehosePageUrl processItemsFn segments.

End Walk.

(** * The vocabulary of the properties, and sample data *)

(** [sub] occurs in [s]. *)
Definition Contains (s sub : string) : Prop :=
  exists before after : string, s = String.append before (String.append sub after).

Definition exampleByDay : MinimalEventSchedule :=
  {| byDay := Some ["https://schema.org/Monday"; "TuesdayMonday"; "Funday"; "Sunday";
                    "https://schema.org/Monday"];
     startTime := 1080%nat; endTime := Some 1140%nat; startDate := None; endDate := None;
     duration := VUndefined; idTemplate := "evt-{startDate}";
     startTimeIsValid := true; startDateIsValid := true; endDateIsValid := true |}.

(** The order between consecutive dates: strict or not. *)
Definition before (strict : bool) (x y : Z) : Prop :=
  if strict then x < y else x <= y.

(** What holds of the inner generator in state [st] when the last date
    passed on was [lb] days after [earliest]. *)
Definition genInv (offsets : list Z) (strict : bool) (st : GenState) (lb : Z) : Prop :=
  match st with
  | FirstWeek rest =>
      StronglySorted (before strict) rest /\ incl rest offsets
      /\ Forall (fun o => 0 <= o -> before strict lb o) rest
      /\ forall o, In o offsets -> lb < 7 + o
  | FurtherWeeks w rest =>
      StronglySorted (before strict) rest /\ incl rest offsets
      /\ Forall (fun o => before strict lb (w * 7 + o)) rest
      /\ forall o, In o offsets -> lb < (w + 1) * 7 + o
  end.

(** A number of days after which every date is after [latest]. *)
Definition daysEnough (earliest latest : Z) : Z :=
  Z.of_nat (Z.to_nat (latest - earliest)) + 1.

(** ** Stand-ins for the library functions, used in the examples *)

Definition sampleFormatUtc (m : Z) : string := NilZero.string_of_int (Z.to_int m).

Definition sampleFormatEnd (eventSchedule : MinimalEventSchedule) : string := "Invalid date".

(** A format that, like moment's, tells instants apart to the second
    only. *)
Definition formatUtcToTheSecond (m : Z) : string := sampleFormatUtc (m / 1000).

Definition digitOf (c : ascii) : nat := (nat_of_ascii c - 48)%nat.

(** Two digits, a separator, two digits: an hour below 24 and a minute
    below 60. *)
Definition sampleParseHHmm (s : string) : option nat :=
  match s with
  | String h1 (String h2 (String _ (String m1 (String m2 EmptyString)))) =>
      let hours := (10 * digitOf h1 + digitOf h2)%nat in
      let minutes := (10 * digitOf m1 + digitOf m2)%nat in
      if (hours <? 24)%nat && (minutes <? 60)%nat then Some (60 * hours + minutes)%nat
      else None
  | _ => None
  end.

(** Dates and instants are given as numbers: a day number, a number of
    milliseconds.  Nothing else is read. *)
Definition sampleParseYYYYMMDD (v : JsVal) : option Z :=
  match v with
  | VNum q => Some (Qnum q / Zpos (Qden q))
  | _ => None
  end.

Definition sampleMomentOf (v : JsVal) : option Z :=
  match v with
  | VNum q => Some (Qnum q / Zpos (Qden q))
  | _ => None
  end.

Definition sampleHash (s : string) : string := String.append "sha1-" s.
Definition collidingHash (s : string) : string := "da39a3ee5e6b4b0d3255bfef95601890afd80709".
Definition sampleMergeToModel (model dataInstance : JsVal) : JsVal := dataInstance.
Definition sampleGetDistance (geo : JsVal * JsVal) (segmentGeo : Q * Q) : Q := 0%Q.

(** A rough distance in metres, 111 km for a degree of latitude or of
    longitude; coordinates that are not numbers are refused. *)
Definition roughDistance (geo : JsVal * JsVal) (segmentGeo : Q * Q) : result Q :=
  match geo with
  | (VNum geoLatitude, VNum geoLongitude) =>
      Ok (111000 * (Qabs (geoLatitude - fst segmentGeo)
                    + Qabs (geoLongitude - snd segmentGeo)))%Q
  | _ => Throw TypeError
  end.

(** The product of two numbers that doubles multiply exactly. *)
Definition exactProduct (a b : Q) : Q := (a * b)%Q.

Definition emptyStore : Store := {| jsonFiles := ∅; textFiles := ∅; logged := [] |}.

(** ** Sample data *)

(** Thursday 2024-01-04, 10:00 *)
Definition sampleNow : Z := 19726 * DAY + 600 * MINUTE.

(** The schedule of the worked example: Mondays and Wednesdays at 18:00. *)
Definition mondayWednesday : MinimalEventSchedule :=
  {| byDay := Some ["Monday"; "Wednesday"]; startTime := 1080%nat; endTime := Some 1140%nat;
     startDate := None; endDate := None; duration := VUndefined;
     idTemplate := "evt-{startDate}";
     startTimeIsValid := true; startDateIsValid := true; endDateIsValid := true |}.

(** A schedule that names Monday twice, as the feed gives it. *)
Definition mondayTwice : JsVal :=
  VObj [("type", VStr "Schedule");
        ("byDay", VArr [VStr "https://schema.org/Monday"; VStr "Monday"]);
        ("startTime", VStr "18:00"); ("endTime", VStr "19:00");
        ("idTemplate", VStr "evt-{startDate}")].

(** A schedule whose only [byDay] entry names no weekday. *)
Definition unrecognisedByDay : JsVal :=
  VObj [("type", VStr "Schedule");
        ("byDay", VArr [VStr "Funday"]);
        ("startTime", VStr "18:00"); ("endTime", VStr "19:00");
        ("idTemplate", VStr "evt-{startDate}")].

Definition pageOf (next : string) (pageItems : list JsVal) : JsVal :=
  VObj [("next", VStr next); ("items", VArr pageItems)].

(** A page whose first item is [null]. *)
Definition pageWithNullFirstItem : AxiosResponse :=
  {| status := 200;
     data := pageOf "https://firehose.imin.co/firehose/session-series?afterId=1"
               [VNull;
                VObj [("id", VStr "series-2"); ("state", VStr "updated");
                      ("data", VObj [("id", VStr "series-2")])]] |}.

(** A segment that reaches every place on Earth: 25000 km round 0, 0. *)
Definition wholeWorld : Segment :=
  {| identifier := "everywhere"; latitude := 0; longitude := 0; radius := 25000;
     attendanceModeFilter := "all" |}.

Definition physicalSegment : Segment :=
  {| identifier := "leeds-in-person"; latitude := 53.8; longitude := -1.55; radius := 10;
     attendanceModeFilter := "physical-only" |}.

Definition virtualSegment : Segment :=
  {| identifier := "online"; latitude := 53.8; longitude := -1.55; radius := 10;
     attendanceModeFilter := "virtual-only" |}.

Definition onlineSession : JsVal :=
  VObj [("id", VStr "session-1"); ("eventAttendanceMode", VStr ONLINE)].

Definition yogaSeries : list (string * JsVal) :=
  [("id", VStr "series-1"); ("name", VStr "Yoga");
   ("superEvent", VObj [("name", VStr "Yoga programme"); ("organizer", VStr "Leisure Ltd")]);
   ("description", VStr "Weekly yoga"); ("imin:segment", VArr [VStr "everywhere"])].

Definition yogaSession : JsVal :=
  VObj [("id", VStr "session-1"); ("name", VStr "Yoga drop-in");
        ("description", VStr "Bring a mat"); ("superEvent", VStr "series-1")].

(** The store after the warning of a clash. *)
Definition withWarning (st : Store) (msg : list LogFragment) : Store :=
  {| jsonFiles := jsonFiles st; textFiles := textFiles st;
     logged := logged st ++ [{| level := "warn"; message := msg |}] |}.

(** What [mergeScheduledSessionAndSessionSeriesAndWrite] writes into a
    segment's directory. *)
Definition writtenScheduledSession (hashString : string -> string)
    (scheduledSessionData sessionSeries : JsVal) (id : string) : JsVal :=
  VObj (mergeScheduledSessionAndSessionSeries scheduledSessionData sessionSeries
        ++ [("imin:fileIdentifier", VStr (hashString id))]).

(** The test of the [if]/[else if] that looks for the geo of a series. *)
Definition hasPhysicalLocationGeo (itemData : JsVal) : bool :=
  truthy (jsAnd (prop "location" itemData) (prop "geo" (prop "location" itemData)))
  || truthy (jsAnd (prop "beta:affiliatedLocation" itemData)
                   (prop "geo" (prop "beta:affiliatedLocation" itemData))).

Definition leedsGeo : JsVal := VObj [("latitude", VNum 53.8); ("longitude", VNum (-1.55))].

(** The SessionSeries file of a first run. *)
Definition storedYoga : JsVal :=
  VObj [("id", VStr "series-1"); ("name", VStr "Yoga");
        ("location", VObj [("geo", leedsGeo)]);
        ("imin:segment", VArr [VStr "everywhere"]);
        ("eventSchedule", VArr [])].

Definition storeWithYoga : Store :=
  {| jsonFiles := {[ getSessionSeriesFilePath (sampleHash "series-1") := storedYoga ]};
     textFiles := ∅; logged := [] |}.

(** The same series, delivered again by the feed with another name. *)
Definition renamedYogaItem : JsVal :=
  VObj [("id", VStr "series-1"); ("state", VStr "updated"); ("kind", VStr "SessionSeries");
        ("data", VObj [("id", VStr "series-1"); ("name", VStr "Yoga for all");
                       ("location", VObj [("geo", leedsGeo)])])].

Definition renamedYogaData : JsVal :=
  VObj [("id", VStr "series-1"); ("name", VStr "Yoga for all");
        ("location", VObj [("geo", leedsGeo)]);
        ("imin:segment", VArr [VStr "everywhere"])].

(** A store whose SessionSeries file, under a hash that two ids share,
    holds the series ["series-A"]. *)
Definition storedSeriesA : JsVal :=
  VObj [("id", VStr "series-A"); ("name", VStr "Pilates");
        ("imin:segment", VArr [VStr "everywhere"])].

Definition storeWithSeriesA : Store :=
  {| jsonFiles := {[ getSessionSeriesFilePath (collidingHash "series-A") := storedSeriesA ]};
     textFiles := ∅; logged := [] |}.

Definition seriesBData : JsVal :=
  VObj [("id", VStr "series-B"); ("name", VStr "Boxing");
        ("imin:segment", VArr [VStr "everywhere"])].

(** An online series without a location. *)
Definition onlineSeriesItem : JsVal :=
  VObj [("id", VStr "series-9"); ("state", VStr "updated"); ("kind", VStr "SessionSeries");
        ("data", VObj [("id", VStr "series-9"); ("name", VStr "Yoga on Zoom");
                       ("eventAttendanceMode", VStr ONLINE);
                       ("eventSchedule", VArr [mondayTwice])])].

(** A ScheduledSession of the feed, two days ahead. *)
Definition feedSession : JsVal :=
  VObj [("id", VStr "session-7"); ("state", VStr "updated"); ("kind", VStr "ScheduledSession");
        ("data", VObj [("id", VStr "session-7");
                       ("startDate", VNum (inject_Z (sampleNow + 2 * DAY)));
                       ("superEvent", VStr "series-1")])].

(** A ScheduledSession of the feed whose [startDate] names a day that does
    not exist. *)
Definition undatedFeedSession : JsVal :=
  VObj [("id", VStr "session-9"); ("state", VStr "updated"); ("kind", VStr "ScheduledSession");
        ("data", VObj [("id", VStr "session-9");
                       ("startDate", VStr "2024-02-30T10:00:00Z");
                       ("superEvent", VStr "series-1")])].

(** A segment file of a first run, and the session of the feed that is
    delivered again. *)
Definition storedSession7 : JsVal :=
  VObj [("id", VStr "session-7"); ("name", VStr "Yoga (provisional)")].

Definition storeWithSession7 : Store :=
  {| jsonFiles := {[ getScheduledSessionFilePath "everywhere" (sampleHash "session-7")
                     := storedSession7 ]};
     textFiles := {[ getSegmentIndexFilePath "everywhere"
                     := indexLine (sampleHash "session-7") ]};
     logged := [] |}.

(** A segment file that holds the session ["session-A"], under a hash that
    ["session-B"] shares. *)
Definition storedSessionA : JsVal :=
  VObj [("id", VStr "session-A"); ("name", VStr "Pilates")].

Definition storeWithSessionA : Store :=
  {| jsonFiles := {[ getScheduledSessionFilePath "everywhere" (collidingHash "session-A")
                     := storedSessionA ]};
     textFiles := {[ getSegmentIndexFilePath "everywhere"
                     := indexLine (collidingHash "session-A") ]};
     logged := [] |}.

Definition sessionBData : JsVal :=
  VObj [("id", VStr "session-B"); ("superEvent", VStr "series-A")].

(** The numbers of days that the inner generator, standing in [st], has
    still to yield: the rest of the current week and all the later weeks. *)
Definition upcoming (offsets : list Z) (st : GenState) (days : Z) : Prop :=
  match st with
  | FirstWeek rest =>
      (In days rest /\ 0 <= days)
      \/ (exists w o, 1 <= w /\ In o offsets /\ days = w * 7 + o)
  | FurtherWeeks w0 rest =>
      (exists o, In o rest /\ days = w0 * 7 + o)
      \/ (exists w o, w0 + 1 <= w /\ In o offsets /\ days = w * 7 + o)
  end.

(** [s] is [before], then [pat], then [after], and [pat] occurs nowhere
    earlier in [s]. *)
Definition FirstAt (s before_ pat after : string) : Prop :=
  s = String.append before_ (String.append pat after)
  /\ forall b a, s = String.append b (String.append pat a) ->
                 (String.length before_ <= String.length b)%nat.

(** Mondays between Monday 2024-01-08 (day 19730) and Monday 2024-01-22
    (day 19744). *)
Definition januaryMondays : MinimalEventSchedule :=
  {| byDay := Some ["Monday"]; startTime := 1080%nat; endTime := Some 1140%nat;
     startDate := Some 19730; endDate := Some 19744; duration := VUndefined;
     idTemplate := "evt-{startDate}";
     startTimeIsValid := true; startDateIsValid := true; endDateIsValid := true |}.

(** A schedule whose [endDate] (day 19600, in 2023) is past at [sampleNow]. *)
Definition endedLastYear : MinimalEventSchedule :=
  {| byDay := Some ["Funday"]; startTime := 1080%nat; endTime := Some 1140%nat;
     startDate := None; endDate := Some 19600; duration := VUndefined;
     idTemplate := "evt-{startDate}";
     startTimeIsValid := true; startDateIsValid := true; endDateIsValid := true |}.

(** The geo that the segmenter reads from a merged session:
    [location.geo], or else [beta:affiliatedLocation.geo]. *)
Definition physicalLocationGeoOf (mergedScheduledSession : JsVal) : JsVal :=
  jsOr (jsAnd (prop "location" mergedScheduledSession)
              (prop "geo" (prop "location" mergedScheduledSession)))
       (jsAnd (prop "beta:affiliatedLocation" mergedScheduledSession)
              (prop "geo" (prop "beta:affiliatedLocation" mergedScheduledSession))).

(** A segment's [attendanceModeFilter] lets an item through. *)
Definition admits (item : JsVal) (segment : Segment) : Prop :=
  attendanceModeFilter segment = "all"
  \/ (attendanceModeFilter segment = "physical-only" /\ doesEventSupportOffline item = true)
  \/ (attendanceModeFilter segment = "virtual-only" /\ doesEventSupportOnline item = true).

(** An item without attendance mode, near Leeds. *)
Definition leedsSession : JsVal :=
  VObj [("id", VStr "session-2");
        ("location",
         VObj [("geo", VObj [("latitude", VNum 53.8); ("longitude", VNum (-1.55))])])].

(** An item without attendance mode and without location. *)
Definition unplacedSession : JsVal := VObj [("id", VStr "session-3")].

(** An item that the processors look at: not deleted, and with an id. *)
Definition isLive (item : JsVal) : bool :=
  negb (strictEqStr (prop "state" item) "deleted") && truthy (prop "id" item).

(** A ScheduledSession of the feed, two days ahead, that names no series. *)
Definition sessionWithoutSeries : JsVal :=
  VObj [("id", VStr "session-8"); ("state", VStr "updated"); ("kind", VStr "ScheduledSession");
        ("data", VObj [("id", VStr "session-8");
                       ("startDate", VNum (inject_Z (sampleNow + 2 * DAY)))])].

(** A deleted item. *)
Definition deletedItem : JsVal :=
  VObj [("id", VStr "series-1"); ("state", VStr "deleted"); ("kind", VStr "SessionSeries")].

(** A schedule without [startTime]. *)
Definition scheduleWithoutStartTime : JsVal :=
  VObj [("type", VStr "Schedule"); ("byDay", VArr [VStr "Monday"]);
        ("endTime", VStr "19:00"); ("idTemplate", VStr "evt-{startDate}")].

(** The pages of a feed as a walk from [url] meets them: every page but
    the last names as [next] the URL of the page after it, which is not its
    own, and the last page names its own URL. *)
Fixpoint FeedFrom (url : string) (pages : list FirehosePage) : Prop :=
  match pages with
  | [] => False
  | page :: rest =>
      match rest with
      | [] => nextNextUrl page = url
      | _ :: _ => nextNextUrl page <> url /\ FeedFrom (nextNextUrl page) rest
      end
  end.

(** The requests of a walk from [url], numbered from [n], are answered with
    [pages] at the first attempt, with nothing logged. *)
Fixpoint Served (fetch : nat -> string -> M (option FirehosePage)) (n : nat) (url : string)
    (pages : list FirehosePage) : Prop :=
  match pages with
  | [] => True
  | page :: rest =>
      (forall st, fetch n url st = (Ok (Some page), st))
      /\ Served fetch (S n) (nextNextUrl page) rest
  end.

(** A feed of two pages, and a network that serves it. *)
Definition twoPages : list FirehosePage :=
  [{| nextNextUrl := "https://firehose/session-series?afterId=2";
      items := [deletedItem; renamedYogaItem] |};
   {| nextNextUrl := "https://firehose/session-series?afterId=2"; items := [] |}].

Definition serveTwoPages (n : nat) (url : string) : M (option FirehosePage) :=
  ret (nth_error twoPages n).

(** Two pages that name each other. *)
Definition serveCycle (n : nat) (url : string) : M (option FirehosePage) :=
  ret (Some {| nextNextUrl := if String.eqb url "https://firehose/a"
                              then "https://firehose/b" else "https://firehose/a";
               items := [] |}).

(** * Properties *)

(** ** Substring containment *)

Lemma startsWith_spec (sub s : string) :
  Str.startsWith s sub = true <-> exists after, s = String.append sub after.
Proof.
  revert s. induction sub as [|c sub IH]; intros s; simpl.
  - split; [intros _; exists s; reflexivity | reflexivity].
  - destruct s as [|d s].
    + split; [discriminate | intros [after H]; discriminate].
    + destruct (Ascii.eqb_spec c d) as [->|Hne].
      * rewrite IH. split; intros [after H]; exists after.
        -- now rewrite H.
        -- now injection H.
      * split; [discriminate | intros [after H]; injection H; congruence].
Qed.

Lemma includes_spec (s sub : string) :
  Str.includes s sub = true <-> Contains s sub.
Proof.
  induction s as [|d s IH]; simpl.
  - destruct (Str.startsWith "" sub) eqn:E.
    + split; [intros _ | reflexivity].
      apply startsWith_spec in E as [after E]. exists "", after. exact E.
    + split; [discriminate|]. intros [before [after H]].
      destruct before; simpl in H.
      * assert (Str.startsWith "" sub = true) by (apply startsWith_spec; eauto).
        congruence.
      * discriminate.
  - destruct (Str.startsWith (String d s) sub) eqn:E.
    + split; [intros _ | reflexivity].
      apply startsWith_spec in E as [after E]. exists "", after. exact E.
    + rewrite IH. split.
      * intros [before [after H]]. exists (String d before), after. simpl. now rewrite H.
      * intros [before [after H]]. destruct before as [|b before]; simpl in H.
        -- assert (Str.startsWith (String d s) sub = true)
             by (apply startsWith_spec; eauto).
           congruence.
        -- injection H as _ H. exists before, after. exact H.
Qed.

Lemma includes_false (s sub : string) :
  Str.includes s sub = false <-> ~ Contains s sub.
Proof.
  rewrite <- includes_spec. destruct (Str.includes s sub); split; congruence.
Qed.

(** ** getIsoWeekdays *)

Lemma firstIncluded_none (entry : string) (names : list (string * Z)) :
  (forall name d, In (name, d) names -> ~ Contains entry name) ->
  firstIncluded entry names = [].
Proof.
  induction names as [|[name d] names IH]; intros H; simpl; [reflexivity|].
  assert (Str.includes entry name = false) as ->
    by (apply includes_false, (H name d); now left).
  apply IH. intros n' d' Hin. apply (H n' d'). now right.
Qed.

Lemma firstIncluded_first (entry : string) (before after : list (string * Z))
    (name : string) (d : Z) :
  Contains entry name ->
  (forall name' d', In (name', d') before -> ~ Contains entry name') ->
  firstIncluded entry (before ++ (name, d) :: after)%list = [d].
Proof.
  intros Hin. induction before as [|[n' d'] before IH]; intros H; simpl.
  - apply includes_spec in Hin. now rewrite Hin.
  - assert (Str.includes entry n' = false) as ->
      by (apply includes_false, (H n' d'); now left).
    apply IH. intros n2 d2 Hin2. apply (H n2 d2). now right.
Qed.

(** C10. The weekdays derived from [byDay] are, entry by entry and in the
    order of the entries, the number of the first name among Monday,
    Tuesday, ..., Sunday that the entry contains as a substring; an entry
    that contains no weekday name contributes nothing, and an entry given
    twice contributes twice. *)
Theorem getIsoWeekdays_by_containment (eventSchedule : MinimalEventSchedule)
    (items : list string) :
  byDay eventSchedule = Some items ->
  weekdayNames = [("Monday", 1); ("Tuesday", 2); ("Wednesday", 3); ("Thursday", 4);
                  ("Friday", 5); ("Saturday", 6); ("Sunday", 7)]
  /\ getIsoWeekdays eventSchedule = flat_map isoWeekdaysOfItem items
  /\ (forall (entry : string) (before after : list (string * Z)) (name : string) (d : Z),
        weekdayNames = (before ++ (name, d) :: after)%list ->
        Contains entry name ->
        (forall name' d', In (name', d') before -> ~ Contains entry name') ->
        isoWeekdaysOfItem entry = [d])
  /\ (forall entry,
        (forall name d, In (name, d) weekdayNames -> ~ Contains entry name) ->
        isoWeekdaysOfItem entry = [])
  /\ (forall entry, In entry items ->
        forall d, In d (isoWeekdaysOfItem entry) -> In d (getIsoWeekdays eventSchedule))
  /\ (forall entry, isoWeekdaysOfItem entry = [] \/ exists d, isoWeekdaysOfItem entry = [d]).
Proof.
  intros Hby. split; [reflexivity|]. split; [|split; [|split; [|split]]].
  - unfold getIsoWeekdays. now rewrite Hby.
  - intros entry before after name d Hsplit Hin Hfirst.
    unfold isoWeekdaysOfItem. rewrite Hsplit. now apply firstIncluded_first.
  - intros entry H. now apply firstIncluded_none.
  - intros entry Hin d Hd. unfold getIsoWeekdays. rewrite Hby.
    apply in_flat_map. eauto.
  - intros entry. unfold isoWeekdaysOfItem.
    generalize weekdayNames. intros names.
    induction names as [|[n d] names IH]; simpl; [now left|].
    destruct (Str.includes entry n); [right; eauto | exact IH].
Qed.

Lemma getIsoWeekdays_by_containment_witness :
  byDay exampleByDay = Some ["https://schema.org/Monday"; "TuesdayMonday"; "Funday";
                             "Sunday"; "https://schema.org/Monday"]
  /\ getIsoWeekdays exampleByDay
     = flat_map isoWeekdaysOfItem ["https://schema.org/Monday"; "TuesdayMonday"; "Funday";
                                   "Sunday"; "https://schema.org/Monday"].
Proof.
  split; [reflexivity|].
  apply (getIsoWeekdays_by_containment exampleByDay _ eq_refl).
Defined.

Example getIsoWeekdays_example : getIsoWeekdays exampleByDay = [1; 1; 7; 1].
Proof. reflexivity. Qed.

(** ** The recurrence expander: order of the emitted dates *)

Lemma before_of_lt (strict : bool) (x y : Z) : x < y -> before strict x y.
Proof. unfold before. destruct strict; lia. Qed.

Lemma before_trans (strict : bool) (x y z : Z) :
  before strict x y -> before strict y z -> before strict x z.
Proof. unfold before. destruct strict; lia. Qed.

Lemma before_addDays (strict : bool) (earliest x y : Z) :
  before strict x y -> before strict (addDays earliest x) (addDays earliest y).
Proof. unfold before, addDays, DAY. destruct strict; lia. Qed.

Lemma before_shift (strict : bool) (c x y : Z) : before strict x y -> before strict (c + x) (c + y).
Proof. unfold before. destruct strict; lia. Qed.

Section ConsumeOrder.

Variables (offsets : list Z) (earliest latest : Z) (strict : bool).

Hypothesis offsets_sorted : StronglySorted (before strict) offsets.
Hypothesis offsets_span : forall a b, In a offsets -> In b offsets -> a - b < 7.

Lemma consume_ordered (fuel : nat) :
  forall (st : GenState) (lb : Z),
    genInv offsets strict st lb ->
    Forall (before strict (addDays earliest lb)) (fst (consume fuel offsets earliest latest st))
    /\ StronglySorted (before strict) (fst (consume fuel offsets earliest latest st)).
Proof.
  induction fuel as [|fuel IH]; intros st lb Hinv; simpl.
  - split; constructor.
  - destruct st as [[|o rest]|w [|o rest]]; simpl in *.
    + (* the first week is over *)
      destruct Hinv as (_ & _ & _ & Hnext). apply IH. simpl.
      repeat split; [assumption | apply incl_refl | | intros o Ho; specialize (Hnext o Ho); lia].
      apply List.Forall_forall. intros o Ho. apply before_of_lt.
      specialize (Hnext o Ho). lia.
    + destruct Hinv as (Hsort & Hincl & Hall & Hnext).
      inversion Hsort as [|? ? Hsort' Hhd]; subst.
      inversion Hall as [|? ? Ho Hall']; subst.
      assert (Hincl' : incl rest offsets) by (intros x Hx; apply Hincl; now right).
      destruct (o <? 0) eqn:Eneg; simpl.
      * apply IH. simpl. repeat split; assumption.
      * apply Z.ltb_ge in Eneg.
        destruct (addDays earliest o >? latest); [split; constructor|].
        specialize (IH (FirstWeek rest) o).
        destruct (consume fuel offsets earliest latest (FirstWeek rest)) as [later running].
        simpl in *. destruct IH as [IH1 IH2].
        { repeat split; try assumption.
          - eapply List.Forall_impl; [|exact Hhd]. intros a Ha _. exact Ha.
          - intros a Ha. assert (In o offsets) by (apply Hincl; now left).
            pose proof (offsets_span o a H Ha). lia. }
        split.
        -- constructor; [apply before_addDays; auto|].
           eapply List.Forall_impl; [|exact IH1]. intros a Ha.
           eapply before_trans; [apply before_addDays, Ho, Eneg | exact Ha].
        -- constructor; assumption.
    + (* [weekOffset += 1] *)
      destruct Hinv as (_ & _ & _ & Hnext). apply IH. simpl.
      repeat split; [assumption | apply incl_refl | | intros o Ho; specialize (Hnext o Ho); lia].
      apply List.Forall_forall. intros o Ho. apply before_of_lt.
      specialize (Hnext o Ho). lia.
    + destruct Hinv as (Hsort & Hincl & Hall & Hnext).
      inversion Hsort as [|? ? Hsort' Hhd]; subst.
      inversion Hall as [|? ? Ho Hall']; subst.
      assert (Hincl' : incl rest offsets) by (intros x Hx; apply Hincl; now right).
      destruct (addDays earliest (w * 7 + o) >? latest); [split; constructor|].
      specialize (IH (FurtherWeeks w rest) (w * 7 + o)).
      destruct (consume fuel offsets earliest latest (FurtherWeeks w rest)) as [later running].
      simpl in *. destruct IH as [IH1 IH2].
      { repeat split; try assumption.
        - eapply List.Forall_impl; [|exact Hhd]. intros a Ha. now apply before_shift.
        - intros a Ha. assert (In o offsets) by (apply Hincl; now left).
          pose proof (offsets_span o a H Ha). lia. }
      split.
      * constructor; [apply before_addDays; auto|].
        eapply List.Forall_impl; [|exact IH1]. intros a Ha.
        eapply before_trans; [apply before_addDays, Ho | exact Ha].
      * constructor; assumption.
Qed.

End ConsumeOrder.

Lemma isoWeekdayOfDay_range (day : Z) : 1 <= isoWeekdayOfDay day <= 7.
Proof. unfold isoWeekdayOfDay. pose proof (Z.mod_pos_bound (day + 3) 7). lia. Qed.

Lemma firstIncluded_range (entry : string) (names : list (string * Z)) :
  Forall (fun nd => 1 <= snd nd <= 7) names ->
  Forall (fun d => 1 <= d <= 7) (firstIncluded entry names).
Proof.
  induction 1 as [|[n d] names Hd Hnames IH]; simpl; [constructor|].
  destruct (Str.includes entry n); [constructor; [exact Hd | constructor] | exact IH].
Qed.

Lemma getIsoWeekdays_range (eventSchedule : MinimalEventSchedule) :
  Forall (fun d => 1 <= d <= 7) (getIsoWeekdays eventSchedule).
Proof.
  unfold getIsoWeekdays. destruct (byDay eventSchedule) as [items|].
  - induction items as [|entry items IH]; simpl; [constructor|].
    apply Forall_app. split; [|exact IH].
    apply firstIncluded_range. unfold weekdayNames.
    repeat constructor; simpl; lia.
  - destruct (startDate eventSchedule); [|constructor].
    constructor; [apply isoWeekdayOfDay_range | constructor].
Qed.

Lemma rem7_small (x : Z) : -7 < x < 7 -> Z.rem x 7 = x.
Proof.
  intros H. destruct (Z_le_gt_dec 0 x).
  - apply Z.rem_small. lia.
  - rewrite <- (Z.opp_involutive x) at 1. rewrite Z.rem_opp_l by lia.
    rewrite Z.rem_small by lia. lia.
Qed.

Lemma sortWeekdays_In (l : list Z) (x : Z) : In x (sortWeekdays l) <-> In x l.
Proof.
  unfold sortWeekdays. split; apply Permutation_in;
    [|symmetry]; apply merge_sort_Permutation.
Qed.

Lemma sortWeekdays_sorted (l : list Z) : StronglySorted Z.le (sortWeekdays l).
Proof. apply StronglySorted_merge_sort; apply _. Qed.

Lemma StronglySorted_le_NoDup (l : list Z) :
  StronglySorted Z.le l -> List.NoDup l -> StronglySorted Z.lt l.
Proof.
  induction 1 as [|x l Hs IH Hx]; intros Hnd; constructor.
  - apply IH. now inversion Hnd.
  - inversion Hnd as [|? ? Hnotin Hnd']; subst.
    apply List.Forall_forall. intros y Hy.
    pose proof (proj1 (List.Forall_forall _ _) Hx y Hy) as Hle.
    assert (x <> y) by (intros ->; contradiction). lia.
Qed.

Lemma sortWeekdays_strictly_sorted (l : list Z) :
  List.NoDup l -> StronglySorted Z.lt (sortWeekdays l).
Proof.
  intros Hnd. apply StronglySorted_le_NoDup; [apply sortWeekdays_sorted|].
  unfold sortWeekdays. eapply Permutation_NoDup; [|exact Hnd].
  symmetry. apply merge_sort_Permutation.
Qed.

Lemma isoWeekdayOffsets_spec (now : Z) (eventSchedule : MinimalEventSchedule) :
  isoWeekdayOffsets now eventSchedule
  = map (fun d => d - isoWeekday (earliestMoment now eventSchedule))
        (sortWeekdays (getIsoWeekdays eventSchedule)).
Proof.
  unfold isoWeekdayOffsets. apply map_ext_in. intros d Hd.
  apply (proj1 (sortWeekdays_In _ _)) in Hd.
  pose proof (proj1 (List.Forall_forall _ _) (getIsoWeekdays_range eventSchedule) d Hd).
  pose proof (isoWeekdayOfDay_range (formatYYYYMMDD (earliestMoment now eventSchedule))).
  unfold isoWeekday. apply rem7_small. cbv beta in *. lia.
Qed.

Lemma isoWeekdayOffsets_In (now : Z) (eventSchedule : MinimalEventSchedule) (o : Z) :
  In o (isoWeekdayOffsets now eventSchedule) ->
  exists d, o = d - isoWeekday (earliestMoment now eventSchedule) /\ 1 <= d <= 7.
Proof.
  rewrite isoWeekdayOffsets_spec. intros Hin. apply in_map_iff in Hin as (d & <- & Hd).
  exists d. split; [reflexivity|]. apply (proj1 (sortWeekdays_In _ _)) in Hd.
  exact (proj1 (List.Forall_forall (fun d => 1 <= d <= 7) _)
           (getIsoWeekdays_range eventSchedule) d Hd).
Qed.

Lemma isoWeekdayOffsets_low (now : Z) (eventSchedule : MinimalEventSchedule) (o : Z) :
  In o (isoWeekdayOffsets now eventSchedule) -> -7 < o.
Proof.
  intros (d & -> & Hd)%isoWeekdayOffsets_In.
  pose proof (isoWeekdayOfDay_range (formatYYYYMMDD (earliestMoment now eventSchedule))).
  unfold isoWeekday. lia.
Qed.

Lemma isoWeekdayOffsets_span (now : Z) (eventSchedule : MinimalEventSchedule) (a b : Z) :
  In a (isoWeekdayOffsets now eventSchedule) ->
  In b (isoWeekdayOffsets now eventSchedule) -> a - b < 7.
Proof.
  intros (d & -> & Hd)%isoWeekdayOffsets_In (d' & -> & Hd')%isoWeekdayOffsets_In. lia.
Qed.

Lemma StronglySorted_map_shift (strict : bool) (c : Z) (l : list Z) :
  StronglySorted (before strict) l ->
  StronglySorted (before strict) (map (fun d => d - c) l).
Proof.
  induction 1 as [|x l Hs IH Hx]; simpl; constructor; [exact IH|].
  apply List.Forall_forall. intros y Hy. apply in_map_iff in Hy as (z & <- & Hz).
  pose proof (proj1 (List.Forall_forall _ _) Hx z Hz) as Hxz.
  unfold before in *. destruct strict; lia.
Qed.

Lemma isoWeekdayOffsets_sorted (strict : bool) (now : Z)
    (eventSchedule : MinimalEventSchedule) :
  (strict = true -> List.NoDup (getIsoWeekdays eventSchedule)) ->
  StronglySorted (before strict) (isoWeekdayOffsets now eventSchedule).
Proof.
  intros Hnd. rewrite isoWeekdayOffsets_spec. apply StronglySorted_map_shift.
  destruct strict; unfold before.
  - apply sortWeekdays_strictly_sorted. now apply Hnd.
  - apply sortWeekdays_sorted.
Qed.

(** The dates passed on by the loop, from its start. *)
Lemma consume_start_ordered (strict : bool) (fuel : nat) (now : Z)
    (eventSchedule : MinimalEventSchedule) (earliest latest : Z) :
  (strict = true -> List.NoDup (getIsoWeekdays eventSchedule)) ->
  StronglySorted (before strict)
    (fst (consume fuel (isoWeekdayOffsets now eventSchedule) earliest latest
            (FirstWeek (isoWeekdayOffsets now eventSchedule)))).
Proof.
  intros Hnd.
  eapply (consume_ordered _ earliest latest strict
            (isoWeekdayOffsets_sorted strict now eventSchedule Hnd)
            (isoWeekdayOffsets_span now eventSchedule) fuel _ (-1)).
  simpl. repeat split.
  - now apply isoWeekdayOffsets_sorted.
  - apply incl_refl.
  - apply List.Forall_forall. intros o _ Ho. apply before_of_lt. lia.
  - intros o Ho. apply isoWeekdayOffsets_low in Ho. lia.
Qed.

Lemma consume_not_before_earliest (fuel : nat) (now : Z)
    (eventSchedule : MinimalEventSchedule) (earliest latest : Z) :
  Forall (fun d => earliest <= d)
    (fst (consume fuel (isoWeekdayOffsets now eventSchedule) earliest latest
            (FirstWeek (isoWeekdayOffsets now eventSchedule)))).
Proof.
  assert (H : false = true -> List.NoDup (getIsoWeekdays eventSchedule)) by discriminate.
  pose proof (consume_ordered _ earliest latest false
                (isoWeekdayOffsets_sorted false now eventSchedule H)
                (isoWeekdayOffsets_span now eventSchedule) fuel
                (FirstWeek (isoWeekdayOffsets now eventSchedule)) 0) as [Hall _].
  - simpl. repeat split.
    + now apply isoWeekdayOffsets_sorted.
    + apply incl_refl.
    + apply List.Forall_forall. intros o _ Ho. exact Ho.
    + intros o Ho. apply isoWeekdayOffsets_low in Ho. lia.
  - eapply List.Forall_impl; [|exact Hall]. intros d Hd.
    unfold before, addDays in Hd. lia.
Qed.

Lemma consume_not_after_latest (fuel : nat) (offsets : list Z) (earliest latest : Z) :
  forall st, Forall (fun d => d <= latest) (fst (consume fuel offsets earliest latest st)).
Proof.
  induction fuel as [|fuel IH]; intros st; simpl; [constructor|].
  destruct (genStep offsets st) as [[days|] st']; [|apply IH].
  destruct (addDays earliest days >? latest) eqn:E; [constructor|].
  specialize (IH st'). destruct (consume fuel offsets earliest latest st') as [later running].
  simpl in *. constructor; [lia | exact IH].
Qed.

(** ** The recurrence expander: time window *)

Lemma formatYYYYMMDD_bounds (m : Z) :
  formatYYYYMMDD m * DAY <= m < formatYYYYMMDD m * DAY + DAY.
Proof.
  unfold formatYYYYMMDD, DAY.
  pose proof (Z.div_mod m 86400000 ltac:(lia)).
  pose proof (Z.mod_pos_bound m 86400000 ltac:(lia)). lia.
Qed.

Lemma earliestMoment_not_before_now (now : Z) (eventSchedule : MinimalEventSchedule) :
  now <= earliestMoment now eventSchedule.
Proof.
  unfold earliestMoment, combineYYYYMMDDAndHHMMString, addDays.
  pose proof (formatYYYYMMDD_bounds now).
  set (today := formatYYYYMMDD now * DAY + Z.of_nat (startTime eventSchedule) * MINUTE) in *.
  assert (Hnext : now <= (if today <? now then today + 1 * DAY else today)).
  { destruct (today <? now) eqn:E.
    - subst today. unfold MINUTE, DAY in *. lia.
    - apply Z.ltb_ge in E. exact E. }
  destruct (startDate eventSchedule) as [d|]; [|exact Hnext].
  match goal with |- context [?a >? ?b] => destruct (a >? b) eqn:E end; [exact Hnext|].
  lia.
Qed.

Lemma latestMoment_within_window (now : Z) (eventSchedule : MinimalEventSchedule) :
  latestMoment now eventSchedule <= addWeeks now SCHEDULE_TIME_WINDOW_IN_WEEKS.
Proof.
  unfold latestMoment. destruct (endDate eventSchedule) as [d|]; [|lia].
  match goal with |- context [?a <? ?b] => destruct (a <? b) eqn:E end; lia.
Qed.

(** ** The recurrence expander: termination *)

Lemma consume_no_weekday (fuel : nat) (earliest latest : Z) :
  forall st,
    match st with FirstWeek rest | FurtherWeeks _ rest => rest = [] end ->
    exists st', consume fuel [] earliest latest st = ([], Some st').
Proof.
  induction fuel as [|fuel IH]; intros st Hst; simpl; [eauto|].
  destruct st as [rest|w rest]; subst rest; simpl; apply IH; reflexivity.
Qed.

Section ConsumeReturns.

Variables (offsets : list Z) (earliest latest : Z).

Hypothesis offsets_nonempty : offsets <> [].
Hypothesis offsets_low : forall a, In a offsets -> -7 < a.

Lemma daysEnough_after (days : Z) :
  daysEnough earliest latest <= days -> (addDays earliest days >? latest) = true.
Proof.
  unfold daysEnough, addDays, DAY. intros H. apply Z.gtb_lt. lia.
Qed.

Lemma furtherWeeks_returns (n : nat) :
  forall (w : Z) (rest : list Z),
    daysEnough earliest latest + 6 <= (w + Z.of_nat n) * 7 ->
    incl rest offsets ->
    exists fuel dates,
      consume fuel offsets earliest latest (FurtherWeeks w rest) = (dates, None).
Proof.
  induction n as [|n IHn]; intros w rest Hw.
  - induction rest as [|o rest IHrest]; intros Hincl.
    + destruct offsets as [|o os] eqn:Eo; [contradiction|].
      exists 2%nat, []. simpl.
      rewrite daysEnough_after; [reflexivity|].
      assert (-7 < o) by (apply offsets_low; now left). lia.
    + exists 1%nat, []. simpl.
      rewrite daysEnough_after; [reflexivity|].
      assert (-7 < o) by (apply offsets_low, Hincl; now left). lia.
  - induction rest as [|o rest IHrest]; intros Hincl.
    + destruct (IHn (w + 1) offsets) as (fuel & dates & Hrun);
        [lia | apply incl_refl |].
      exists (S fuel), dates. simpl. exact Hrun.
    + destruct IHrest as (fuel & dates & Hrun);
        [intros x Hx; apply Hincl; now right|].
      destruct (addDays earliest (w * 7 + o) >? latest) eqn:E.
      * exists 1%nat, []. simpl. now rewrite E.
      * exists (S fuel), (addDays earliest (w * 7 + o) :: dates). simpl.
        now rewrite E, Hrun.
Qed.

Lemma firstWeek_returns (rest : list Z) :
  exists fuel dates, consume fuel offsets earliest latest (FirstWeek rest) = (dates, None).
Proof.
  induction rest as [|o rest (fuel & dates & Hrun)].
  - destruct (furtherWeeks_returns (Z.to_nat (daysEnough earliest latest)) 1 offsets)
      as (fuel & dates & Hrun); [unfold daysEnough; lia | apply incl_refl |].
    exists (S fuel), dates. simpl. exact Hrun.
  - destruct (o <? 0) eqn:Eneg.
    + exists (S fuel), dates. simpl. now rewrite Eneg.
    + destruct (addDays earliest o >? latest) eqn:E.
      * exists 1%nat, []. simpl. now rewrite Eneg, E.
      * exists (S fuel), (addDays earliest o :: dates). simpl.
        now rewrite Eneg, E, Hrun.
Qed.

End ConsumeReturns.

Lemma isoWeekdayOffsets_nil (now : Z) (eventSchedule : MinimalEventSchedule) :
  isoWeekdayOffsets now eventSchedule = [] <-> getIsoWeekdays eventSchedule = [].
Proof.
  rewrite isoWeekdayOffsets_spec. split; intros H.
  - apply map_eq_nil in H.
    destruct (getIsoWeekdays eventSchedule) as [|d l]; [reflexivity|].
    assert (Hin : In d (sortWeekdays (d :: l))) by (apply sortWeekdays_In; now left).
    rewrite H in Hin. destruct Hin.
  - rewrite H. reflexivity.
Qed.

(** With at least one weekday derived, the expander returns. *)
Lemma generateDatesWithinTimeWindow_returns (formatUtc : Z -> string) (now : Z)
    (eventSchedule : MinimalEventSchedule) :
  getIsoWeekdays eventSchedule <> [] ->
  exists fuel sessions,
    generateDatesWithinTimeWindow formatUtc fuel now eventSchedule = (sessions, true).
Proof.
  intros Hne. unfold generateDatesWithinTimeWindow.
  destruct (earliestMoment now eventSchedule >? latestMoment now eventSchedule);
    [exists 0%nat; eauto|].
  destruct (firstWeek_returns (isoWeekdayOffsets now eventSchedule)
              (earliestMoment now eventSchedule) (latestMoment now eventSchedule)
              (fun H => Hne (proj1 (isoWeekdayOffsets_nil now eventSchedule) H))
              (isoWeekdayOffsets_low now eventSchedule)
              (isoWeekdayOffsets now eventSchedule)) as (fuel & dates & Hrun).
  exists fuel. rewrite Hrun. eauto.
Qed.

(** With no weekday derived and a non-empty time window, it never does. *)
Lemma generateDatesWithinTimeWindow_never_returns (formatUtc : Z -> string) (fuel : nat)
    (now : Z) (eventSchedule : MinimalEventSchedule) :
  getIsoWeekdays eventSchedule = [] ->
  earliestMoment now eventSchedule <= latestMoment now eventSchedule ->
  generateDatesWithinTimeWindow formatUtc fuel now eventSchedule = ([], false).
Proof.
  intros Hnil Hwindow. unfold generateDatesWithinTimeWindow.
  destruct (earliestMoment now eventSchedule >? latestMoment now eventSchedule) eqn:E;
    [apply Z.gtb_lt in E; lia|].
  rewrite (proj2 (isoWeekdayOffsets_nil now eventSchedule) Hnil).
  destruct (consume_no_weekday fuel (earliestMoment now eventSchedule)
              (latestMoment now eventSchedule) (FirstWeek []) eq_refl) as [st' ->].
  reflexivity.
Qed.

(** ** The recurrence expander: the claims *)

Lemma map_ssStartDate (formatUtc : Z -> string) (eventSchedule : MinimalEventSchedule)
    (dates : list Z) :
  map ssStartDate (map (scheduledSessionAt formatUtc eventSchedule) dates) = dates.
Proof. induction dates as [|d dates IH]; simpl; [reflexivity | now rewrite IH]. Qed.

Lemma generated_startDates (formatUtc : Z -> string) (fuel : nat) (now : Z)
    (eventSchedule : MinimalEventSchedule) :
  map ssStartDate (fst (generateDatesWithinTimeWindow formatUtc fuel now eventSchedule)) = []
  \/ map ssStartDate (fst (generateDatesWithinTimeWindow formatUtc fuel now eventSchedule))
     = fst (consume fuel (isoWeekdayOffsets now eventSchedule)
              (earliestMoment now eventSchedule) (latestMoment now eventSchedule)
              (FirstWeek (isoWeekdayOffsets now eventSchedule))).
Proof.
  unfold generateDatesWithinTimeWindow.
  destruct (earliestMoment now eventSchedule >? latestMoment now eventSchedule);
    [now left | right].
  destruct (consume _ _ _ _ _) as [dates running]. simpl. apply map_ssStartDate.
Qed.

(** When moment can read [startTime], [startDate] and [endDate], the
    generator yields the objects of the sessions of
    [generateDatesWithinTimeWindow]. *)
Lemma generatedScheduledSessions_valid (formatUtc : Z -> string)
    (formatEndOfInvalidStart : MinimalEventSchedule -> string) (fuel : nat) (now : Z)
    (eventSchedule : MinimalEventSchedule) :
  momentsAreValid eventSchedule = true ->
  generatedScheduledSessions formatUtc formatEndOfInvalidStart fuel now eventSchedule
  = (map (scheduledSessionObject formatUtc)
         (fst (generateDatesWithinTimeWindow formatUtc fuel now eventSchedule)),
     snd (generateDatesWithinTimeWindow formatUtc fuel now eventSchedule)).
Proof.
  unfold momentsAreValid, generatedScheduledSessions. intros Hvalid.
  apply andb_true_iff in Hvalid as [Hstart ->]. rewrite Hstart. simpl.
  now destruct (generateDatesWithinTimeWindow formatUtc fuel now eventSchedule).
Qed.

(** When moment cannot read one of them, the generator does not return. *)
Lemma generatedScheduledSessions_invalid (formatUtc : Z -> string)
    (formatEndOfInvalidStart : MinimalEventSchedule -> string) (fuel : nat) (now : Z)
    (eventSchedule : MinimalEventSchedule) :
  momentsAreValid eventSchedule = false ->
  snd (generatedScheduledSessions formatUtc formatEndOfInvalidStart fuel now eventSchedule) = false.
Proof.
  unfold momentsAreValid, generatedScheduledSessions. intros Hinvalid.
  destruct (startTimeIsValid eventSchedule && startDateIsValid eventSchedule);
    [|reflexivity].
  simpl in Hinvalid. now rewrite Hinvalid.
Qed.

(** C8, as amended. When moment can read the [startTime], the [startDate]
    and the [endDate] of a schedule, the start instants of the sessions that
    the expander emits never decrease, and each is strictly after the one
    before when the weekdays derived from [byDay] are pairwise distinct. *)
Theorem generated_sessions_chronological (formatUtc : Z -> string)
    (formatEndOfInvalidStart : MinimalEventSchedule -> string) (fuel : nat) (now : Z)
    (eventSchedule : MinimalEventSchedule) :
  momentsAreValid eventSchedule = true ->
  exists sessions,
    fst (generatedScheduledSessions formatUtc formatEndOfInvalidStart fuel now eventSchedule)
    = map (scheduledSessionObject formatUtc) sessions
    /\ StronglySorted Z.le (map ssStartDate sessions)
    /\ (List.NoDup (getIsoWeekdays eventSchedule) ->
        StronglySorted Z.lt (map ssStartDate sessions)).
Proof.
  intros Hvalid. rewrite (generatedScheduledSessions_valid _ _ _ _ _ Hvalid).
  exists (fst (generateDatesWithinTimeWindow formatUtc fuel now eventSchedule)).
  split; [reflexivity|].
  split; [|intros Hnd];
    destruct (generated_startDates formatUtc fuel now eventSchedule) as [-> | ->];
    try constructor.
  - apply (consume_start_ordered false). discriminate.
  - apply (consume_start_ordered true). intros _. exact Hnd.
Qed.

Lemma generated_sessions_chronological_witness :
  exists sessions,
    fst (generatedScheduledSessions sampleFormatUtc sampleFormatEnd 30 sampleNow mondayWednesday)
    = map (scheduledSessionObject sampleFormatUtc) sessions
    /\ StronglySorted Z.le (map ssStartDate sessions)
    /\ (List.NoDup (getIsoWeekdays mondayWednesday) ->
        StronglySorted Z.lt (map ssStartDate sessions)).
Proof.
  apply (generated_sessions_chronological sampleFormatUtc sampleFormatEnd 30 sampleNow
           mondayWednesday).
  reflexivity.
Defined.

(** C8, counterexample. A schedule that passes the validation and names
    Monday twice is expanded into sessions that come in pairs with the same
    start instant: the sequence is not strictly increasing. *)
Lemma generated_sessions_not_strictly_increasing :
  exists eventSchedule sessions,
    validateMinimalEventSchedule sampleParseHHmm sampleParseYYYYMMDD mondayTwice
    = Some eventSchedule
    /\ generateDatesWithinTimeWindow sampleFormatUtc 30 sampleNow eventSchedule
       = (sessions, true)
    /\ map ssStartDate sessions
       = [19730 * DAY + 1080 * MINUTE; 19730 * DAY + 1080 * MINUTE;
          19737 * DAY + 1080 * MINUTE; 19737 * DAY + 1080 * MINUTE;
          19744 * DAY + 1080 * MINUTE; 19744 * DAY + 1080 * MINUTE;
          19751 * DAY + 1080 * MINUTE; 19751 * DAY + 1080 * MINUTE]
    /\ ~ StronglySorted Z.lt (map ssStartDate sessions).
Proof.
  eexists. eexists. split; [reflexivity|]. split; [vm_compute; reflexivity|].
  split; [vm_compute; reflexivity|].
  intros H. vm_compute in H.
  inversion H as [|? ? _ Hhd]; subst. inversion Hhd as [|? ? Hlt _]; subst.
  discriminate Hlt.
Qed.

(** A schedule without [startDate] and [endDate] whose [startTime] is a time
    of the day always has a non-empty window. *)
Lemma open_schedule_window (now : Z) (eventSchedule : MinimalEventSchedule) :
  startDate eventSchedule = None ->
  endDate eventSchedule = None ->
  Z.of_nat (startTime eventSchedule) <= 1440 ->
  earliestMoment now eventSchedule <= latestMoment now eventSchedule.
Proof.
  intros Hs He Ht.
  unfold earliestMoment, latestMoment, combineYYYYMMDDAndHHMMString, addDays, addWeeks,
    SCHEDULE_TIME_WINDOW_IN_WEEKS, WEEK.
  rewrite Hs, He. pose proof (formatYYYYMMDD_bounds now).
  match goal with |- context [?a <? ?b] => destruct (a <? b) eqn:E end;
    [apply Z.ltb_lt in E | apply Z.ltb_ge in E]; unfold DAY, MINUTE in *; lia.
Qed.

(** C1, at the failing input. The schedule passes the validation, no
    weekday is derived from it, and whatever the time and however many
    steps it is given, the expander has passed on no session and has not
    returned: the array of its sessions never exists. *)
Theorem generateDatesWithinTimeWindow_loops_on_unrecognised_byDay :
  exists eventSchedule,
    validateMinimalEventSchedule sampleParseHHmm sampleParseYYYYMMDD unrecognisedByDay
    = Some eventSchedule
    /\ getIsoWeekdays eventSchedule = []
    /\ forall (formatUtc : Z -> string) (fuel : nat) (now : Z),
         generateDatesWithinTimeWindow formatUtc fuel now eventSchedule = ([], false)
         /\ spreadGeneratedDates formatUtc fuel now eventSchedule = None.
Proof.
  eexists. split; [reflexivity|]. split; [reflexivity|].
  intros formatUtc fuel now.
  match goal with
  | |- generateDatesWithinTimeWindow _ _ _ ?es = _ /\ _ =>
      assert (Hrun : generateDatesWithinTimeWindow formatUtc fuel now es = ([], false))
  end.
  { apply generateDatesWithinTimeWindow_never_returns; [reflexivity|].
    apply open_schedule_window; [reflexivity | reflexivity | vm_compute; discriminate]. }
  split; [exact Hrun|]. unfold spreadGeneratedDates. now rewrite Hrun.
Qed.

(** The positive half of the same claim: a schedule from which at least one
    weekday is derived is expanded in finitely many steps. *)
Lemma spreadGeneratedDates_returns (formatUtc : Z -> string) (now : Z)
    (eventSchedule : MinimalEventSchedule) :
  getIsoWeekdays eventSchedule <> [] ->
  exists fuel sessions, spreadGeneratedDates formatUtc fuel now eventSchedule = Some sessions.
Proof.
  intros Hne.
  destruct (generateDatesWithinTimeWindow_returns formatUtc now eventSchedule Hne)
    as (fuel & sessions & Hrun).
  exists fuel, sessions. unfold spreadGeneratedDates. now rewrite Hrun.
Qed.

(** Every session that the expander emits starts at or after [now] and at
    most [SCHEDULE_TIME_WINDOW_IN_WEEKS] weeks later. *)
Lemma generated_sessions_within_window (formatUtc : Z -> string) (fuel : nat) (now : Z)
    (eventSchedule : MinimalEventSchedule) :
  Forall (fun session =>
            now <= ssStartDate session <= addWeeks now SCHEDULE_TIME_WINDOW_IN_WEEKS)
    (fst (generateDatesWithinTimeWindow formatUtc fuel now eventSchedule)).
Proof.
  unfold generateDatesWithinTimeWindow.
  destruct (earliestMoment now eventSchedule >? latestMoment now eventSchedule);
    [constructor|].
  pose proof (consume_not_before_earliest fuel now eventSchedule
                (earliestMoment now eventSchedule) (latestMoment now eventSchedule)) as Hlo.
  pose proof (consume_not_after_latest fuel (isoWeekdayOffsets now eventSchedule)
                (earliestMoment now eventSchedule) (latestMoment now eventSchedule)
                (FirstWeek (isoWeekdayOffsets now eventSchedule))) as Hhi.
  destruct (consume _ _ _ _ _) as [dates running]. simpl in *.
  pose proof (earliestMoment_not_before_now now eventSchedule).
  pose proof (latestMoment_within_window now eventSchedule).
  induction dates as [|d dates IH]; simpl; [constructor|].
  inversion Hlo; inversion Hhi; subst. constructor; [simpl; lia | now apply IH].
Qed.

(** ** getFirehosePage: validation of a page *)

Lemma findIndexFrom_found {A : Type} (p : A -> bool) (l : list A) (i : Z) :
  List.Exists (fun x => p x = true) l -> i <= findIndexFrom p l i.
Proof.
  intros H. revert i. induction H as [x l Hx | x l _ IH]; intros i; simpl.
  - rewrite Hx. lia.
  - destruct (p x); [lia|]. specialize (IH (i + 1)). lia.
Qed.

Lemma validateStatus_2xx (code : Z) :
  200 <= code < 300 -> validateStatus code = true /\ (code =? 404) = false.
Proof.
  intros H. unfold validateStatus. split.
  - apply orb_true_iff. left. apply andb_true_iff. split; [apply Z.leb_le | apply Z.ltb_lt]; lia.
  - apply Z.eqb_neq. lia.
Qed.

(** An invalid item at any index but the first is refused. *)
Lemma getFirehosePage_refuses_later_invalid_item (pageUrl next : string) (code : Z)
    (first : JsVal) (rest : list JsVal) :
  200 <= code < 300 -> next <> "" ->
  isInvalidItem first = false ->
  List.Exists (fun item => isInvalidItem item = true) rest ->
  exists index id,
    getFirehosePage pageUrl {| status := code; data := pageOf next (first :: rest) |}
    = Throw (IminValidationError (InvalidItem index id)).
Proof.
  intros Hcode Hnext Hfirst Hrest. unfold getFirehosePage. simpl.
  destruct (validateStatus_2xx code Hcode) as [-> ->]. simpl.
  destruct next as [|c next]; [contradiction|].
  unfold findIndex. simpl. rewrite Hfirst.
  pose proof (findIndexFrom_found isInvalidItem rest (0 + 1) Hrest) as Hidx.
  destruct (findIndexFrom isInvalidItem rest (0 + 1) >? 0) eqn:Egt.
  - eauto.
  - rewrite Z.gtb_ltb in Egt. apply Z.ltb_ge in Egt. lia.
Qed.

(** A page without a non-empty string [next], or whose [items] is not an
    array, is refused. *)
Lemma getFirehosePage_refuses_bad_shape (pageUrl : string) (code : Z) (page : JsVal) :
  200 <= code < 300 ->
  nonEmptyString (prop "next" page) = None
  \/ (forall pageItems, prop "items" page <> VArr pageItems) ->
  exists e, getFirehosePage pageUrl {| status := code; data := page |} = Throw e.
Proof.
  intros Hcode H. unfold getFirehosePage. simpl.
  destruct (validateStatus_2xx code Hcode) as [-> ->]. simpl.
  unfold propOf. destruct page; try (eexists; reflexivity).
  all: destruct H as [H|H].
  all: try (simpl in H |- *; eexists; reflexivity).
  all: try (destruct (prop "next" _) as [| | | |[|c s]| |]; try discriminate H;
            eexists; reflexivity).
  all: destruct (prop "next" _) as [| | | |[|c s]| |]; try (eexists; reflexivity).
  all: destruct (prop "items" _) eqn:Ei; try (eexists; reflexivity).
  all: exfalso; eapply H; reflexivity.
Qed.

(** C2, at the failing input. The first item of the page is [null], which
    the validation counts as invalid, and [getFirehosePage] returns the page
    all the same; the item processor is then given the [null] item and
    fails on it with a [TypeError]. *)
Theorem getFirehosePage_accepts_invalid_first_item :
  isInvalidItem VNull = true
  /\ findIndex isInvalidItem
       [VNull; VObj [("id", VStr "series-2"); ("state", VStr "updated");
                     ("data", VObj [("id", VStr "series-2")])]] = 0
  /\ getFirehosePage "https://firehose.imin.co/firehose/session-series"
       pageWithNullFirstItem
     = Ok {| nextNextUrl := "https://firehose.imin.co/firehose/session-series?afterId=1";
             items := [VNull;
                       VObj [("id", VStr "series-2"); ("state", VStr "updated");
                             ("data", VObj [("id", VStr "series-2")])]] |}
  /\ processSessionSeriesItems sampleHash sampleMergeToModel roughDistance exactProduct
       sampleFormatUtc sampleParseHHmm sampleParseYYYYMMDD 100 sampleNow
       [VNull; VObj [("id", VStr "series-2"); ("state", VStr "updated");
                     ("data", VObj [("id", VStr "series-2")])]]
       [wholeWorld] emptyStore
     = (Throw TypeError, emptyStore).
Proof. repeat split. Qed.

(** ** The segmenter *)

Lemma filterThrowing_kept {A : Type} (p : A -> result bool) (l kept : list A) :
  filterThrowing p l = Ok kept ->
  forall x, In x kept -> In x l /\ p x = Ok true.
Proof.
  revert kept. induction l as [|a l IH]; intros kept H x Hx; simpl in H.
  - injection H as <-. destruct Hx.
  - destruct (p a) as [b| |] eqn:Ea; try discriminate.
    destruct (filterThrowing p l) as [kept'| |]; try discriminate.
    injection H as <-. destruct b.
    + destruct Hx as [<-|Hx]; [split; [now left | exact Ea]|].
      destruct (IH kept' eq_refl x Hx). split; [now right | assumption].
    + destruct (IH kept' eq_refl x Hx). split; [now right | assumption].
Qed.

Lemma filterThrowing_total {A : Type} (p : A -> result bool) (l : list A) :
  Forall (fun x => exists b, p x = Ok b) l -> exists kept, filterThrowing p l = Ok kept.
Proof.
  induction 1 as [|a l [b Hb] _ [kept IH]]; simpl; [eauto|].
  rewrite Hb, IH. eauto.
Qed.

Lemma NoDup_map_injective {A B : Type} (f : A -> B) (l : list A) (a b : A) :
  List.NoDup (map f l) -> In a l -> In b l -> f a = f b -> a = b.
Proof.
  induction l as [|x l IH]; simpl; intros Hnd Ha Hb Hf; [destruct Ha|].
  inversion Hnd as [|? ? Hnotin Hnd']; subst.
  destruct Ha as [->|Ha], Hb as [->|Hb]; try reflexivity.
  - exfalso. apply Hnotin. rewrite Hf. now apply in_map.
  - exfalso. apply Hnotin. rewrite <- Hf. now apply in_map.
  - now apply IH.
Qed.

Lemma online_only_does_not_support_offline (item : JsVal) :
  prop "eventAttendanceMode" item = VStr ONLINE ->
  doesEventSupportOffline item = false /\ doesEventSupportOnline item = true.
Proof.
  intros H. unfold doesEventSupportOffline, doesEventSupportOnline,
    getEventsEventAttendanceMode. rewrite H. split; reflexivity.
Qed.

(** The segments behind the identifiers: a physical-only segment is not
    among those selected for an online-only item. *)
Lemma physical_only_segment_not_selected (getDistance : JsVal * JsVal -> Q * Q -> Q)
    (item : JsVal) (segments : list Segment) (ids : list string) :
  prop "eventAttendanceMode" item = VStr ONLINE ->
  generateSegmentIdentifiersForMergedScheduledSession getDistance item segments = Ok ids ->
  exists selected,
    ids = map identifier selected
    /\ forall s, In s selected ->
         In s segments /\ attendanceModeFilter s <> "physical-only".
Proof.
  intros Hmode Hgen.
  destruct (online_only_does_not_support_offline item Hmode) as [Hoff Hon].
  unfold generateSegmentIdentifiersForMergedScheduledSession in Hgen.
  rewrite Hoff, Hon, andb_false_r in Hgen.
  destruct (filterThrowing (attendanceModeMatches true false) segments)
    as [matching| |] eqn:Ef; try discriminate.
  injection Hgen as <-. eexists. split; [reflexivity|].
  intros s Hs. apply filter_In in Hs as [Hs _].
  destruct (filterThrowing_kept _ _ _ Ef s Hs) as [Hin Hp].
  split; [exact Hin|]. intros Hfilter.
  unfold attendanceModeMatches in Hp. rewrite Hfilter in Hp. discriminate.
Qed.

(** C9. A segment whose [attendanceModeFilter] is ['physical-only'] never
    has its identifier among those assigned to an online-only item; the
    identifiers name the segments, so no two configured segments share one.
    With recognised filters the segmenter returns its assignment. *)
Theorem physical_only_segment_excludes_online_only_item
    (getDistance : JsVal * JsVal -> Q * Q -> Q)
    (item : JsVal) (segments : list Segment) (segment : Segment) :
  In segment segments ->
  attendanceModeFilter segment = "physical-only" ->
  prop "eventAttendanceMode" item = VStr ONLINE ->
  List.NoDup (map identifier segments) ->
  (Forall (fun s => In (attendanceModeFilter s) ["all"; "physical-only"; "virtual-only"])
          segments ->
   exists ids,
     generateSegmentIdentifiersForMergedScheduledSession getDistance item segments = Ok ids)
  /\ forall ids,
       generateSegmentIdentifiersForMergedScheduledSession getDistance item segments = Ok ids ->
       ~ In (identifier segment) ids.
Proof.
  intros Hin Hfilter Hmode Hnd. split.
  - intros Hknown.
    destruct (online_only_does_not_support_offline item Hmode) as [Hoff Hon].
    unfold generateSegmentIdentifiersForMergedScheduledSession.
    rewrite Hoff, Hon, andb_false_r.
    destruct (filterThrowing_total (attendanceModeMatches true false) segments)
      as [kept ->]; [|eauto].
    eapply List.Forall_impl; [|exact Hknown]. intros s Hs. unfold attendanceModeMatches.
    simpl in Hs. destruct Hs as [<-|[<-|[<-|[]]]]; simpl; eauto.
  - intros ids Hgen Hid.
    destruct (physical_only_segment_not_selected getDistance item segments ids Hmode Hgen)
      as (selected & -> & Hsel).
    apply in_map_iff in Hid as (s & Hsame & Hs).
    destruct (Hsel s Hs) as [Hs_in Hs_filter].
    assert (s = segment) by (eapply NoDup_map_injective; eauto).
    subst s. contradiction.
Qed.

Lemma physical_only_segment_excludes_online_only_item_witness :
  In physicalSegment [physicalSegment; virtualSegment; wholeWorld]
  /\ generateSegmentIdentifiersForMergedScheduledSession sampleGetDistance onlineSession
       [physicalSegment; virtualSegment; wholeWorld] = Ok ["online"; "everywhere"]
  /\ ~ In (identifier physicalSegment) ["online"; "everywhere"].
Proof.
  split; [now left|]. split; [reflexivity|].
  apply (physical_only_segment_excludes_online_only_item sampleGetDistance onlineSession
           [physicalSegment; virtualSegment; wholeWorld] physicalSegment).
  - now left.
  - reflexivity.
  - reflexivity.
  - vm_compute. repeat constructor; simpl; intuition discriminate.
  - reflexivity.
Defined.

(** ** The merge of a ScheduledSession with its SessionSeries *)

Lemma getField_app (k : string) (a b : list (string * JsVal)) :
  getField k (a ++ b)
  = match getField k b with
    | Some v => Some v
    | None => getField k a
    end.
Proof.
  induction a as [|[k' v] a IH]; simpl.
  - now destruct (getField k b).
  - rewrite IH. now destruct (getField k b).
Qed.

Lemma getField_dissoc_ne (k k' : string) (fields : list (string * JsVal)) :
  k <> k' -> getField k (dissoc k' fields) = getField k fields.
Proof.
  intros Hne. induction fields as [|[k2 v] fields IH]; simpl; [reflexivity|].
  destruct (String.eqb_spec k' k2) as [<-|Hk2]; simpl.
  - rewrite IH. destruct (getField k fields); [reflexivity|].
    destruct (String.eqb_spec k k'); [contradiction | reflexivity].
  - now rewrite IH.
Qed.

Lemma getField_dissoc_eq (k : string) (fields : list (string * JsVal)) :
  getField k (dissoc k fields) = None.
Proof.
  induction fields as [|[k2 v] fields IH]; simpl; [reflexivity|].
  destruct (String.eqb_spec k k2) as [<-|Hk2]; simpl; [exact IH|].
  rewrite IH. destruct (String.eqb_spec k k2); [contradiction | reflexivity].
Qed.

Lemma prop_of_falsy (k : string) (v : JsVal) : truthy v = false -> prop k v = VUndefined.
Proof. destruct v; simpl; intros H; try reflexivity; discriminate. Qed.

(** The name of the merged record is the first truthy one in the order
    superEvent, series, occurrence. *)
Lemma mergedName_first_truthy (scheduledSessionData sessionSeries : JsVal) :
  mergedName scheduledSessionData sessionSeries
  = if truthy (prop "name" (prop "superEvent" sessionSeries))
    then prop "name" (prop "superEvent" sessionSeries)
    else if truthy (prop "name" sessionSeries) then prop "name" sessionSeries
         else prop "name" scheduledSessionData.
Proof.
  unfold mergedName, jsOr, jsAnd.
  destruct (truthy (prop "superEvent" sessionSeries)) eqn:Ese.
  - destruct (truthy (prop "name" (prop "superEvent" sessionSeries))) eqn:Esn.
    + now rewrite Esn.
    + reflexivity.
  - rewrite (prop_of_falsy "name" _ Ese). cbn [truthy]. now rewrite Ese.
Qed.

(** C5, as amended. In the merged record the name is the first truthy one
    among the name of the series' superEvent, the name of the series and
    the name of the occurrence, in that order.  Every other field that the
    occurrence defines has the occurrence's value; failing that, the value
    the series gives it (its [superEvent] link apart); failing that, the
    value the series' superEvent gives it. *)
Theorem merged_record_precedence (scheduledSessionData : JsVal)
    (seriesFields : list (string * JsVal)) (k : string) :
  let sessionSeries := VObj seriesFields in
  let merged := mergeScheduledSessionAndSessionSeries scheduledSessionData sessionSeries in
  k <> "name" ->
  (* the name *)
  (getField "name" merged = Some (mergedName scheduledSessionData sessionSeries)
   /\ (truthy (prop "name" (prop "superEvent" sessionSeries)) = true ->
       mergedName scheduledSessionData sessionSeries
       = prop "name" (prop "superEvent" sessionSeries))
   /\ (truthy (prop "name" (prop "superEvent" sessionSeries)) = false ->
       truthy (prop "name" sessionSeries) = true ->
       mergedName scheduledSessionData sessionSeries = prop "name" sessionSeries)
   /\ (truthy (prop "name" (prop "superEvent" sessionSeries)) = false ->
       truthy (prop "name" sessionSeries) = false ->
       mergedName scheduledSessionData sessionSeries = prop "name" scheduledSessionData))
  (* the other fields *)
  /\ (forall v, getField k (ownEntries scheduledSessionData) = Some v ->
        getField k merged = Some v)
  /\ (getField k (ownEntries scheduledSessionData) = None ->
      k <> "superEvent" ->
      forall v, getField k seriesFields = Some v -> getField k merged = Some v)
  /\ (getField k (ownEntries scheduledSessionData) = None ->
      (k = "superEvent" \/ getField k seriesFields = None) ->
      getField k merged = getField k (ownEntries (prop "superEvent" sessionSeries))).
Proof.
  intros sessionSeries merged Hk.
  assert (Hname : String.eqb k "name" = false) by (now apply String.eqb_neq).
  assert (Hmerged : getField k merged
                    = match getField k (ownEntries scheduledSessionData) with
                      | Some v => Some v
                      | None =>
                          match getField k (dissoc "superEvent" seriesFields) with
                          | Some v => Some v
                          | None => getField k (ownEntries (prop "superEvent" sessionSeries))
                          end
                      end).
  { unfold merged, mergeScheduledSessionAndSessionSeries.
    rewrite !getField_app. simpl. rewrite Hname.
    destruct (getField k (ownEntries scheduledSessionData)); [reflexivity|].
    destruct (getField k (dissoc "superEvent" seriesFields)); reflexivity. }
  split; [|split; [|split]].
  - split; [|split; [|split]].
    + unfold merged, mergeScheduledSessionAndSessionSeries.
      rewrite !getField_app. reflexivity.
    + intros Hse. rewrite mergedName_first_truthy. now rewrite Hse.
    + intros Hse Hs. rewrite mergedName_first_truthy. now rewrite Hse, Hs.
    + intros Hse Hs. rewrite mergedName_first_truthy. now rewrite Hse, Hs.
  - intros v Hv. now rewrite Hmerged, Hv.
  - intros Hnone Hse v Hv. rewrite Hmerged, Hnone.
    now rewrite getField_dissoc_ne, Hv.
  - intros Hnone Hcase. rewrite Hmerged, Hnone.
    destruct Hcase as [->|Hs].
    + now rewrite getField_dissoc_eq.
    + destruct (String.eqb_spec k "superEvent") as [->|Hne].
      * now rewrite getField_dissoc_eq.
      * now rewrite getField_dissoc_ne, Hs.
Qed.

Lemma merged_record_precedence_witness :
  "description" <> "name"
  /\ getField "description"
       (mergeScheduledSessionAndSessionSeries yogaSession (VObj yogaSeries))
     = Some (VStr "Bring a mat").
Proof.
  assert (H : "description" <> "name") by discriminate.
  split; [exact H|].
  exact (proj1 (proj2 (merged_record_precedence yogaSession yogaSeries "description" H))
           (VStr "Bring a mat") eq_refl).
Defined.

(** C5, counterexample. The occurrence and the series both have a name and
    the merged record does not take the occurrence's: it takes the name of
    the series' superEvent. *)
Lemma merged_name_is_not_the_occurrence_name :
  prop "name" yogaSession = VStr "Yoga drop-in"
  /\ prop "name" (VObj yogaSeries) = VStr "Yoga"
  /\ prop "name" (VObj (mergeScheduledSessionAndSessionSeries yogaSession (VObj yogaSeries)))
     = VStr "Yoga programme"
  /\ prop "name" (VObj (mergeScheduledSessionAndSessionSeries yogaSession (VObj yogaSeries)))
     <> prop "name" yogaSession.
Proof. repeat split. discriminate. Qed.

(** ** The hash-addressed store *)

Lemma append_length (a b : string) :
  String.length (String.append a b) = (String.length a + String.length b)%nat.
Proof. induction a as [|c a IH]; simpl; [reflexivity | now rewrite IH]. Qed.

Lemma append_cancel_r (a b c : string) :
  String.append a c = String.append b c -> a = b.
Proof.
  revert b. induction a as [|x a IH]; intros [|y b] H.
  - reflexivity.
  - apply (f_equal String.length) in H. rewrite !append_length in H. simpl in H. lia.
  - apply (f_equal String.length) in H. rewrite !append_length in H. simpl in H. lia.
  - change (String x (String.append a c) = String y (String.append b c)) in H.
    injection H as -> H. f_equal. now apply IH.
Qed.

Lemma scheduledSessionFilePath_inj (seg seg' h h' : string) :
  getScheduledSessionFilePath seg h = getScheduledSessionFilePath seg' h' ->
  seg = seg' /\ h = h'.
Proof.
  unfold getScheduledSessionFilePath. intros H. injection H as Hseg Hh.
  split; [exact Hseg | now apply append_cancel_r in Hh].
Qed.

Section StoreProperties.

Variable hashString : string -> string.
Variable mergeToModel : JsVal -> JsVal -> JsVal.
Variable getDistance : JsVal * JsVal -> Q * Q -> result Q.
Variable multiply : Q -> Q -> Q.
Variable formatUtc : Z -> string.
Variable parseHHmm : string -> option nat.
Variable parseYYYYMMDD : JsVal -> option Z.
Variable momentOf : JsVal -> option Z.

Abbreviation writeToSegment := (writeScheduledSessionToSegment mergeToModel).
Abbreviation mergeAndWrite := (mergeScheduledSessionAndSessionSeriesAndWrite hashString mergeToModel).

(** One iteration on a segment whose file holds another id: only the
    warning is added. *)
Lemma writeToSegment_clash (merged existing : JsVal) (id h seg : string) (st : Store) :
  jsonFiles st !! getScheduledSessionFilePath seg h = Some existing ->
  truthy existing = true ->
  strictEqStr (prop "id" existing) id = false ->
  writeToSegment merged id h (VStr seg) st
  = (Ok tt, withWarning st (scheduledSessionClashWarning (prop "id" existing) (VStr id) h)).
Proof.
  intros Hfile Htruthy Hid.
  unfold writeScheduledSessionToSegment, bind, liftR, readJsonNullIfNotExists, log. simpl.
  rewrite Hfile. simpl. rewrite Htruthy, Hid. reflexivity.
Qed.

(** One iteration on a segment whose file holds the same id: the file is
    written again, the model is updated, the index is left alone. *)
Lemma writeToSegment_same_id (merged existing : JsVal) (id h seg : string) (st : Store) :
  jsonFiles st !! getScheduledSessionFilePath seg h = Some existing ->
  truthy existing = true ->
  strictEqStr (prop "id" existing) id = true ->
  exists model,
    writeToSegment merged id h (VStr seg) st
    = (Ok tt,
       {| jsonFiles := <[getScheduledSessionFilePath seg "model" := model]>
                         (<[getScheduledSessionFilePath seg h := merged]> (jsonFiles st));
          textFiles := textFiles st;
          logged := logged st |}).
Proof.
  intros Hfile Htruthy Hid.
  unfold writeScheduledSessionToSegment, mergeIntoModelExample, bind, liftR, ret,
    readJsonNullIfNotExists, writeJson, appendFile. simpl.
  rewrite Hfile. simpl. rewrite Htruthy, Hid. simpl. eexists. reflexivity.
Qed.

(** One iteration, whatever the store: it ends normally and touches only
    the segment's own files. *)
Lemma writeToSegment_frame (merged : JsVal) (id h seg : string) (st : Store) :
  exists st',
    writeToSegment merged id h (VStr seg) st = (Ok tt, st')
    /\ (forall p, p <> getScheduledSessionFilePath seg h ->
                  p <> getScheduledSessionFilePath seg "model" ->
                  jsonFiles st' !! p = jsonFiles st !! p)
    /\ (forall q, q <> getSegmentIndexFilePath seg -> textFiles st' !! q = textFiles st !! q)
    /\ (exists extra, logged st' = (logged st ++ extra)%list).
Proof.
  unfold writeScheduledSessionToSegment, mergeIntoModelExample, bind, liftR, ret,
    readJsonNullIfNotExists, writeJson, appendFile, log. simpl.
  destruct (truthy (default VNull (jsonFiles st !! getScheduledSessionFilePath seg h)));
    simpl.
  - destruct (negb _); simpl.
    + eexists. split; [reflexivity|]. simpl. repeat split; eauto.
    + eexists. split; [reflexivity|]. simpl. repeat split.
      * intros p Hp Hm. rewrite !lookup_insert_ne by congruence. reflexivity.
      * exists []. now rewrite app_nil_r.
  - eexists. split; [reflexivity|]. simpl. repeat split.
    + intros p Hp Hm. rewrite !lookup_insert_ne by congruence. reflexivity.
    + intros q Hq. rewrite lookup_insert_ne by congruence. reflexivity.
    + exists []. now rewrite app_nil_r.
Qed.

Lemma forEach_cons {A : Type} (x : A) (rest : list A) (body : A -> M unit)
    (st st1 : Store) :
  body x st = (Ok tt, st1) ->
  forEach (x :: rest) body st = forEach rest body st1.
Proof. intros H. simpl. unfold bind. now rewrite H. Qed.

(** The loop over the segments, seen from a segment whose file holds
    another id. *)
Lemma forEach_segments_clash (merged existing : JsVal) (id h seg : string)
    (segs : list string) :
  truthy existing = true ->
  strictEqStr (prop "id" existing) id = false ->
  forall st,
    jsonFiles st !! getScheduledSessionFilePath seg h = Some existing ->
    exists st',
      forEach (map VStr segs) (writeToSegment merged id h) st = (Ok tt, st')
      /\ jsonFiles st' !! getScheduledSessionFilePath seg h = Some existing
      /\ textFiles st' !! getSegmentIndexFilePath seg
         = textFiles st !! getSegmentIndexFilePath seg
      /\ (exists extra, logged st' = (logged st ++ extra)%list)
      /\ (In seg segs ->
          In {| level := "warn";
                message := scheduledSessionClashWarning (prop "id" existing) (VStr id) h |}
             (logged st')).
Proof.
  intros Htruthy Hid. induction segs as [|seg' segs IH]; intros st Hfile.
  - exists st. simpl. repeat split; auto.
    + exists []. now rewrite app_nil_r.
    + intros [].
  - destruct (string_dec seg' seg) as [->|Hne].
    + pose proof (writeToSegment_clash merged existing id h seg st Hfile Htruthy Hid) as Hstep.
      destruct (IH (withWarning st (scheduledSessionClashWarning (prop "id" existing)
                                      (VStr id) h)) Hfile)
        as (st' & Hrun & Hkeep & Hindex & [extra Hlog] & _).
      exists st'. rewrite map_cons, (forEach_cons _ _ _ _ _ Hstep).
      repeat split; auto.
      * eexists. rewrite Hlog. simpl. rewrite <- app_assoc. reflexivity.
      * intros _. rewrite Hlog. simpl. apply in_or_app. left. apply in_or_app. right.
        now left.
    + destruct (writeToSegment_frame merged id h seg' st)
        as (st1 & Hstep & Hfiles & Htexts & [extra1 Hlog1]).
      destruct (IH st1) as (st' & Hrun & Hkeep & Hindex & [extra Hlog] & Hwarn).
      { rewrite Hfiles; [exact Hfile | |];
          intros Heq; apply scheduledSessionFilePath_inj in Heq as [Heq _]; congruence. }
      exists st'. rewrite map_cons, (forEach_cons _ _ _ _ _ Hstep).
      repeat split; auto.
      * rewrite Hindex. apply Htexts. unfold getSegmentIndexFilePath. congruence.
      * eexists. rewrite Hlog, Hlog1, <- app_assoc. reflexivity.
      * intros [Heq|Hin]; [congruence | now apply Hwarn].
Qed.

(** The loop over the segments, seen from a segment whose file holds the
    same id. *)
Lemma forEach_segments_same_id (merged : JsVal) (id h seg : string) (segs : list string) :
  h <> "model" ->
  truthy merged = true ->
  strictEqStr (prop "id" merged) id = true ->
  forall st existing,
    jsonFiles st !! getScheduledSessionFilePath seg h = Some existing ->
    truthy existing = true ->
    strictEqStr (prop "id" existing) id = true ->
    exists st',
      forEach (map VStr segs) (writeToSegment merged id h) st = (Ok tt, st')
      /\ (In seg segs -> jsonFiles st' !! getScheduledSessionFilePath seg h = Some merged)
      /\ (~ In seg segs -> jsonFiles st' !! getScheduledSessionFilePath seg h = Some existing)
      /\ textFiles st' !! getSegmentIndexFilePath seg
         = textFiles st !! getSegmentIndexFilePath seg.
Proof.
  intros Hh Hmerged Hmid. induction segs as [|seg' segs IH]; intros st existing Hfile Ht Hid.
  - exists st. simpl. repeat split; auto. intros [].
  - destruct (string_dec seg' seg) as [->|Hne].
    + destruct (writeToSegment_same_id merged existing id h seg st Hfile Ht Hid)
        as [model Hstep].
      match type of Hstep with _ = (_, ?s) => set (st1 := s) in * end.
      assert (Hfile1 : jsonFiles st1 !! getScheduledSessionFilePath seg h = Some merged).
      { subst st1. simpl. rewrite lookup_insert_ne.
        - apply lookup_insert_eq.
        - intros Heq. apply scheduledSessionFilePath_inj in Heq as [_ Heq]. congruence. }
      destruct (IH st1 merged Hfile1 Hmerged Hmid) as (st' & Hrun & Hin & Hnotin & Hindex).
      exists st'. rewrite map_cons, (forEach_cons _ _ _ _ _ Hstep).
      repeat split; auto.
      * intros _. destruct (in_dec string_dec seg segs); auto.
      * intros Hn. exfalso. apply Hn. now left.
    + destruct (writeToSegment_frame merged id h seg' st)
        as (st1 & Hstep & Hfiles & Htexts & _).
      destruct (IH st1 existing) as (st' & Hrun & Hin & Hnotin & Hindex); auto.
      { rewrite Hfiles; [exact Hfile | |];
          intros Heq; apply scheduledSessionFilePath_inj in Heq as [Heq _]; congruence. }
      exists st'. rewrite map_cons, (forEach_cons _ _ _ _ _ Hstep).
      repeat split; auto.
      * intros [Heq|Hi]; [congruence | auto].
      * intros Hn. apply Hnotin. intros Hi. apply Hn. now right.
      * rewrite Hindex. apply Htexts. unfold getSegmentIndexFilePath. congruence.
Qed.

(** The loop over the segments never touches the SessionSeries files. *)
Lemma forEach_segments_frame (merged : JsVal) (id h : string) (segs : list string) :
  forall st,
    exists st',
      forEach (map VStr segs) (writeToSegment merged id h) st = (Ok tt, st')
      /\ forall h', jsonFiles st' !! getSessionSeriesFilePath h'
                    = jsonFiles st !! getSessionSeriesFilePath h'.
Proof.
  induction segs as [|seg segs IH]; intros st.
  - exists st. simpl. split; reflexivity.
  - destruct (writeToSegment_frame merged id h seg st) as (st1 & Hstep & Hfiles & _).
    destruct (IH st1) as (st' & Hrun & Hkeep).
    exists st'. rewrite map_cons, (forEach_cons _ _ _ _ _ Hstep). split; [exact Hrun|].
    intros h'. rewrite Hkeep. apply Hfiles; discriminate.
Qed.

Lemma mergeAndWrite_unfold (scheduledSessionData sessionSeries : JsVal) (id : string)
    (segs : list string) (st : Store) :
  getField "id" (mergeScheduledSessionAndSessionSeries scheduledSessionData sessionSeries)
  = Some (VStr id) ->
  prop "imin:segment" sessionSeries = VArr (map VStr segs) ->
  mergeAndWrite scheduledSessionData sessionSeries st
  = forEach (map VStr segs)
      (writeToSegment (writtenScheduledSession hashString scheduledSessionData sessionSeries id)
         id (hashString id)) st.
Proof.
  intros Hid Hsegs. unfold mergeScheduledSessionAndSessionSeriesAndWrite.
  rewrite Hid, Hsegs. reflexivity.
Qed.

Lemma writtenScheduledSession_id (scheduledSessionData sessionSeries : JsVal)
    (id : string) :
  getField "id" (mergeScheduledSessionAndSessionSeries scheduledSessionData sessionSeries)
  = Some (VStr id) ->
  truthy (writtenScheduledSession hashString scheduledSessionData sessionSeries id) = true
  /\ strictEqStr (prop "id" (writtenScheduledSession hashString scheduledSessionData sessionSeries id))
       id = true.
Proof.
  intros Hid. split; [reflexivity|].
  unfold writtenScheduledSession, prop. rewrite getField_app. simpl. rewrite Hid.
  simpl. apply String.eqb_refl.
Qed.

Abbreviation writeSeries := (writeSessionSeries hashString mergeToModel formatUtc).

Lemma generated_merged_id (g : ScheduledSession) (sessionSeries : JsVal) :
  getField "id"
    (mergeScheduledSessionAndSessionSeries (scheduledSessionObject formatUtc g) sessionSeries)
  = Some (VStr (ssId g)).
Proof.
  unfold mergeScheduledSessionAndSessionSeries, scheduledSessionObject.
  rewrite !getField_app. cbn [ownEntries]. rewrite getField_app.
  destruct (truthy (ssDuration g)); reflexivity.
Qed.

(** Writing the generated sessions never touches the SessionSeries files. *)
Lemma forEach_generated_frame (sessionSeries : JsVal) (segs : list string)
    (generated : list ScheduledSession) :
  prop "imin:segment" sessionSeries = VArr (map VStr segs) ->
  forall st,
    exists st',
      forEach generated
        (fun g => mergeAndWrite (scheduledSessionObject formatUtc g) sessionSeries) st
      = (Ok tt, st')
      /\ forall h', jsonFiles st' !! getSessionSeriesFilePath h'
                    = jsonFiles st !! getSessionSeriesFilePath h'.
Proof.
  intros Hsegs. induction generated as [|g generated IH]; intros st.
  - exists st. simpl. split; reflexivity.
  - destruct (forEach_segments_frame
                (writtenScheduledSession hashString (scheduledSessionObject formatUtc g)
                   sessionSeries (ssId g))
                (ssId g) (hashString (ssId g)) segs st) as (st1 & Hstep & Hkeep1).
    rewrite <- (mergeAndWrite_unfold _ _ _ _ _ (generated_merged_id g sessionSeries) Hsegs)
      in Hstep.
    destruct (IH st1) as (st' & Hrun & Hkeep).
    exists st'.
    rewrite (forEach_cons g generated
               (fun g => mergeAndWrite (scheduledSessionObject formatUtc g) sessionSeries)
               st st1 Hstep).
    split; [exact Hrun|].
    intros h'. now rewrite Hkeep, Hkeep1.
Qed.

(** The write of a SessionSeries whose file holds another id: only the
    warning is added. *)
Lemma writeSeries_clash (id : string) (sessionSeriesData withCorrected existing : JsVal)
    (generated : list ScheduledSession) (st : Store) :
  jsonFiles st !! getSessionSeriesFilePath (hashString id) = Some existing ->
  truthy existing = true ->
  strictEqStr (prop "id" existing) id = false ->
  writeSeries (VStr id) sessionSeriesData withCorrected generated st
  = (Ok tt, withWarning st (sessionSeriesClashWarning (prop "id" existing) (VStr id)
                              (hashString id))).
Proof.
  intros Hfile Htruthy Hid.
  unfold writeSessionSeries, bind, liftR, readJsonNullIfNotExists, log. simpl.
  rewrite Hfile. simpl. rewrite Htruthy, Hid. reflexivity.
Qed.

(** The write of a SessionSeries whose file holds the same id: the file is
    written again. *)
Lemma writeSeries_same_id (id : string) (sessionSeriesData withCorrected existing : JsVal)
    (segs : list string) (generated : list ScheduledSession) (st : Store) :
  prop "imin:segment" sessionSeriesData = VArr (map VStr segs) ->
  jsonFiles st !! getSessionSeriesFilePath (hashString id) = Some existing ->
  truthy existing = true ->
  strictEqStr (prop "id" existing) id = true ->
  exists st',
    writeSeries (VStr id) sessionSeriesData withCorrected generated st = (Ok tt, st')
    /\ jsonFiles st' !! getSessionSeriesFilePath (hashString id) = Some withCorrected.
Proof.
  intros Hsegs Hfile Htruthy Hid.
  unfold writeSessionSeries, bind, liftR, readJsonNullIfNotExists, writeJson. simpl.
  rewrite Hfile. simpl. rewrite Htruthy, Hid. simpl.
  match goal with |- context [forEach _ _ ?s] => set (st1 := s) end.
  destruct (forEach_generated_frame sessionSeriesData segs generated Hsegs st1)
    as (st' & Hrun & Hkeep).
  exists st'. split; [exact Hrun|]. rewrite Hkeep. subst st1. simpl.
  apply lookup_insert_eq.
Qed.

(** C3, as amended. A put whose target path already holds an object with
    the same id writes the file again: afterwards the path holds the newly
    computed record, whatever it held before.  For an occurrence the
    segment's index gets no new line. *)
Theorem same_id_put_rewrites_file :
  (forall (id : string) (sessionSeriesData withCorrected existing : JsVal)
          (segs : list string) (generated : list ScheduledSession) (st : Store),
      prop "imin:segment" sessionSeriesData = VArr (map VStr segs) ->
      jsonFiles st !! getSessionSeriesFilePath (hashString id) = Some existing ->
      truthy existing = true ->
      strictEqStr (prop "id" existing) id = true ->
      exists st',
        writeSeries (VStr id) sessionSeriesData withCorrected generated st = (Ok tt, st')
        /\ jsonFiles st' !! getSessionSeriesFilePath (hashString id) = Some withCorrected)
  /\ (forall (scheduledSessionData sessionSeries existing : JsVal) (id seg : string)
             (segs : list string) (st : Store),
        getField "id"
          (mergeScheduledSessionAndSessionSeries scheduledSessionData sessionSeries)
        = Some (VStr id) ->
        prop "imin:segment" sessionSeries = VArr (map VStr segs) ->
        In seg segs ->
        hashString id <> "model" ->
        jsonFiles st !! getScheduledSessionFilePath seg (hashString id) = Some existing ->
        truthy existing = true ->
        strictEqStr (prop "id" existing) id = true ->
        exists st',
          mergeAndWrite scheduledSessionData sessionSeries st = (Ok tt, st')
          /\ jsonFiles st' !! getScheduledSessionFilePath seg (hashString id)
             = Some (writtenScheduledSession hashString scheduledSessionData sessionSeries id)
          /\ textFiles st' !! getSegmentIndexFilePath seg
             = textFiles st !! getSegmentIndexFilePath seg).
Proof.
  split.
  - intros. eapply writeSeries_same_id; eauto.
  - intros data series existing id seg segs st Hid Hsegs Hin Hh Hfile Htruthy Hsame.
    destruct (writtenScheduledSession_id data series id Hid) as [Hmt Hmid].
    destruct (forEach_segments_same_id _ id (hashString id) seg segs Hh Hmt Hmid
                st existing Hfile Htruthy Hsame) as (st' & Hrun & Hwritten & _ & Hindex).
    exists st'. rewrite (mergeAndWrite_unfold _ _ _ _ _ Hid Hsegs). auto.
Qed.

(** C4. A put whose target path already holds an object with another id
    writes nothing: for a SessionSeries no file changes at all, for an
    occurrence the file of the segment keeps its content and the segment's
    index is left alone; in both cases a warning naming the stored id, the
    new id and the hash they share is logged. *)
Theorem hash_clash_skips_write :
  (forall (id : string) (sessionSeriesData withCorrected existing : JsVal)
          (generated : list ScheduledSession) (st : Store),
      jsonFiles st !! getSessionSeriesFilePath (hashString id) = Some existing ->
      truthy existing = true ->
      strictEqStr (prop "id" existing) id = false ->
      exists st',
        writeSeries (VStr id) sessionSeriesData withCorrected generated st = (Ok tt, st')
        /\ jsonFiles st' = jsonFiles st
        /\ textFiles st' = textFiles st
        /\ logged st'
           = (logged st
              ++ [{| level := "warn";
                     message := [Lit "Already downloaded SessionSeries:";
                                 Val (prop "id" existing);
                                 Lit " and newly received SessionSeries: "; Val (VStr id);
                                 Lit " are not the same despite having the same hash: ";
                                 Lit (hashString id)] |}])%list)
  /\ (forall (scheduledSessionData sessionSeries existing : JsVal) (id seg : string)
             (segs : list string) (st : Store),
        getField "id"
          (mergeScheduledSessionAndSessionSeries scheduledSessionData sessionSeries)
        = Some (VStr id) ->
        prop "imin:segment" sessionSeries = VArr (map VStr segs) ->
        In seg segs ->
        jsonFiles st !! getScheduledSessionFilePath seg (hashString id) = Some existing ->
        truthy existing = true ->
        strictEqStr (prop "id" existing) id = false ->
        exists st',
          mergeAndWrite scheduledSessionData sessionSeries st = (Ok tt, st')
          /\ jsonFiles st' !! getScheduledSessionFilePath seg (hashString id) = Some existing
          /\ textFiles st' !! getSegmentIndexFilePath seg
             = textFiles st !! getSegmentIndexFilePath seg
          /\ In {| level := "warn";
                   message := [Lit "Already downloaded ScheduledSession:";
                               Val (prop "id" existing);
                               Lit " and newly received ScheduledSession: "; Val (VStr id);
                               Lit " are not the same despite having the same hash: ";
                               Lit (hashString id)] |}
                (logged st')).
Proof.
  split.
  - intros id series withCorrected existing generated st Hfile Htruthy Hid.
    exists (withWarning st (sessionSeriesClashWarning (prop "id" existing) (VStr id)
                              (hashString id))).
    split; [apply writeSeries_clash; assumption|]. repeat split.
  - intros data series existing id seg segs st Hid Hsegs Hin Hfile Htruthy Hdiff.
    destruct (forEach_segments_clash
                (writtenScheduledSession hashString data series id) existing id (hashString id)
                seg segs Htruthy Hdiff st Hfile)
      as (st' & Hrun & Hkeep & Hindex & _ & Hwarn).
    exists st'. rewrite (mergeAndWrite_unfold _ _ _ _ _ Hid Hsegs). auto.
Qed.

(** ** The processors *)

(** C6, as amended. A series item in state ['updated'] with an id and
    without a geo, neither under [location] nor under
    [beta:affiliatedLocation], is dropped whatever its attendance mode:
    nothing is written and nothing is logged. *)
Theorem series_without_geo_is_dropped (fuel : nat) (now : Z) (segments : list Segment)
    (item : JsVal) (st : Store) :
  strictEqStr (prop "state" item) "updated" = true ->
  truthy (prop "id" item) = true ->
  prop "data" item <> VUndefined -> prop "data" item <> VNull ->
  hasPhysicalLocationGeo (prop "data" item) = false ->
  processSessionSeriesItem hashString mergeToModel getDistance multiply formatUtc parseHHmm
    parseYYYYMMDD fuel now segments item st
  = (Ok tt, st).
Proof.
  intros Hstate Hid Hd1 Hd2 Hgeo.
  apply orb_false_iff in Hgeo as [Hloc Haff].
  assert (Hitem : propOf item "state" = Ok (prop "state" item)).
  { destruct item; simpl in Hstate; try discriminate. reflexivity. }
  assert (Hdeleted : strictEqStr (prop "state" item) "deleted" = false).
  { destruct (prop "state" item); simpl in *; try discriminate.
    apply String.eqb_eq in Hstate. now subst. }
  assert (Hnone : sessionSeriesPhysicalLocationGeo (prop "data" item) = Ok None).
  { unfold sessionSeriesPhysicalLocationGeo.
    assert (propOf (prop "data" item) "location" = Ok (prop "location" (prop "data" item)))
      as -> by (destruct (prop "data" item); try reflexivity; contradiction).
    now rewrite Hloc, Haff. }
  unfold processSessionSeriesItem, bind, liftR, ret.
  rewrite Hitem, Hdeleted, Hid. simpl negb. cbv iota. now rewrite Hnone.
Qed.

Lemma expandEventSchedules_within_window (fuel : nat) (now : Z) (schedules : list JsVal) :
  forall corrected generated,
    expandEventSchedules formatUtc parseHHmm parseYYYYMMDD fuel now schedules
    = Ok (corrected, generated) ->
    Forall (fun session =>
              now <= ssStartDate session <= addWeeks now SCHEDULE_TIME_WINDOW_IN_WEEKS)
           generated.
Proof.
  induction schedules as [|schedule schedules IH]; intros corrected generated H; simpl in H.
  - injection H as <- <-. constructor.
  - destruct (propOf schedule "type") as [type| |]; try discriminate.
    destruct (negb (strictEqStr type SCHEDULE_TYPE)); [eauto|].
    destruct (validateMinimalEventSchedule parseHHmm parseYYYYMMDD schedule) as [valid|].
    + destruct (momentsAreValid valid); [|discriminate].
      destruct (spreadGeneratedDates formatUtc fuel now valid) as [sessions|] eqn:Es;
        try discriminate.
      destruct (expandEventSchedules formatUtc parseHHmm parseYYYYMMDD fuel now schedules)
        as [[c g]| |]; try discriminate.
      injection H as <- <-. apply Forall_app. split; [|eauto].
      unfold spreadGeneratedDates in Es.
      pose proof (generated_sessions_within_window formatUtc fuel now valid) as Hw.
      destruct (generateDatesWithinTimeWindow formatUtc fuel now valid) as [ss [|]];
        try discriminate.
      injection Es as <-. exact Hw.
    + destruct (expandEventSchedules formatUtc parseHHmm parseYYYYMMDD fuel now schedules)
        as [[c g]| |]; try discriminate.
      injection H as <- <-. eauto.
Qed.

(** A ScheduledSession of the feed changes the store only if its
    [startDate] is truthy and either lies within
    [WEEKS_IN_FUTURE_TIME_WINDOW] weeks from [now] or cannot be read. *)
Lemma feed_session_changes_store_only_if (now : Z) (item : JsVal) (st st' : Store)
    (r : result unit) :
  processScheduledSessionItem hashString mergeToModel momentOf now item st = (r, st') ->
  st' <> st ->
  truthy (prop "startDate" (prop "data" item)) = true
  /\ match momentOf (prop "startDate" (prop "data" item)) with
     | Some start => now <= start <= addWeeks now WEEKS_IN_FUTURE_TIME_WINDOW
     | None => True
     end.
Proof.
  intros Hrun Hchanged.
  unfold processScheduledSessionItem, bind, liftR, ret in Hrun.
  destruct (propOf item "state") as [state| |]; try (injection Hrun as _ <-; congruence).
  destruct (strictEqStr state "deleted"); try (injection Hrun as _ <-; congruence).
  destruct (negb (truthy (prop "id" item))); try (injection Hrun as _ <-; congruence).
  destruct (propOf (prop "data" item) "startDate") as [start| |] eqn:Estart;
    try (injection Hrun as _ <-; congruence).
  assert (start = prop "startDate" (prop "data" item)) as ->.
  { unfold propOf in Estart. destruct (prop "data" item); try discriminate;
      now injection Estart. }
  destruct (truthy (prop "startDate" (prop "data" item))) eqn:Et; simpl in Hrun;
    try (injection Hrun as _ <-; congruence).
  split; [reflexivity|].
  destruct (momentOf (prop "startDate" (prop "data" item))) as [start|]; [|exact I].
  simpl in Hrun.
  destruct (start <? now) eqn:Epast; try (injection Hrun as _ <-; congruence).
  destruct (start >? addWeeks now WEEKS_IN_FUTURE_TIME_WINDOW) eqn:Efuture;
    try (injection Hrun as _ <-; congruence).
  apply Z.ltb_ge in Epast. rewrite Z.gtb_ltb in Efuture. apply Z.ltb_ge in Efuture. lia.
Qed.

End StoreProperties.

(** ** Worked examples of the store and of the processors *)

(** C3, counterexample. The target path holds an object whose id is the id
    of the item, and the put writes the file again: its content is not what
    it was. *)
Lemma same_id_put_changes_file_content :
  let run := processSessionSeriesItems sampleHash sampleMergeToModel roughDistance exactProduct
               sampleFormatUtc sampleParseHHmm sampleParseYYYYMMDD 100 sampleNow
               [renamedYogaItem] [wholeWorld] storeWithYoga in
  jsonFiles storeWithYoga !! getSessionSeriesFilePath (sampleHash "series-1")
  = Some storedYoga
  /\ prop "id" storedYoga = prop "id" renamedYogaItem
  /\ fst run = Ok tt
  /\ prop "name" (default VNull
                    (jsonFiles (snd run) !! getSessionSeriesFilePath (sampleHash "series-1")))
     = VStr "Yoga for all"
  /\ jsonFiles (snd run) !! getSessionSeriesFilePath (sampleHash "series-1")
     <> Some storedYoga.
Proof.
  repeat split; try (vm_compute; reflexivity).
  intros H. apply (f_equal (fun v => prop "name" (default VNull v))) in H.
  vm_compute in H. discriminate H.
Qed.

Lemma same_id_put_rewrites_file_witness :
  (jsonFiles storeWithYoga !! getSessionSeriesFilePath (sampleHash "series-1")
   = Some storedYoga
   /\ exists st',
        writeSessionSeries sampleHash sampleMergeToModel sampleFormatUtc (VStr "series-1")
          renamedYogaData renamedYogaData [] storeWithYoga = (Ok tt, st')
        /\ jsonFiles st' !! getSessionSeriesFilePath (sampleHash "series-1")
           = Some renamedYogaData)
  /\ (jsonFiles storeWithSession7
        !! getScheduledSessionFilePath "everywhere" (sampleHash "session-7")
      = Some storedSession7
      /\ exists st',
           mergeScheduledSessionAndSessionSeriesAndWrite sampleHash sampleMergeToModel
             (prop "data" feedSession) storedYoga storeWithSession7 = (Ok tt, st')
           /\ jsonFiles st' !! getScheduledSessionFilePath "everywhere" (sampleHash "session-7")
              = Some (writtenScheduledSession sampleHash (prop "data" feedSession)
                        storedYoga "session-7")
           /\ textFiles st' !! getSegmentIndexFilePath "everywhere"
              = textFiles storeWithSession7 !! getSegmentIndexFilePath "everywhere").
Proof.
  assert (H : jsonFiles storeWithYoga !! getSessionSeriesFilePath (sampleHash "series-1")
              = Some storedYoga) by (vm_compute; reflexivity).
  assert (H' : jsonFiles storeWithSession7
                 !! getScheduledSessionFilePath "everywhere" (sampleHash "session-7")
               = Some storedSession7) by (vm_compute; reflexivity).
  split; (split; [assumption|]).
  - exact (proj1 (same_id_put_rewrites_file sampleHash sampleMergeToModel sampleFormatUtc)
             "series-1" renamedYogaData renamedYogaData storedYoga ["everywhere"] []
             storeWithYoga eq_refl H eq_refl eq_refl).
  - refine (proj2 (same_id_put_rewrites_file sampleHash sampleMergeToModel sampleFormatUtc)
              (prop "data" feedSession) storedYoga storedSession7 "session-7" "everywhere"
              ["everywhere"] storeWithSession7 eq_refl eq_refl _ _ H' eq_refl eq_refl).
    + now left.
    + discriminate.
Defined.

Lemma hash_clash_skips_write_witness :
  (jsonFiles storeWithSeriesA !! getSessionSeriesFilePath (collidingHash "series-B")
   = Some storedSeriesA
   /\ exists st',
        writeSessionSeries collidingHash sampleMergeToModel sampleFormatUtc (VStr "series-B")
          seriesBData seriesBData [] storeWithSeriesA = (Ok tt, st')
        /\ jsonFiles st' = jsonFiles storeWithSeriesA
        /\ textFiles st' = textFiles storeWithSeriesA
        /\ logged st'
           = [{| level := "warn";
                 message := [Lit "Already downloaded SessionSeries:"; Val (VStr "series-A");
                             Lit " and newly received SessionSeries: "; Val (VStr "series-B");
                             Lit " are not the same despite having the same hash: ";
                             Lit (collidingHash "series-B")] |}])
  /\ (jsonFiles storeWithSessionA
        !! getScheduledSessionFilePath "everywhere" (collidingHash "session-B")
      = Some storedSessionA
      /\ exists st',
           mergeScheduledSessionAndSessionSeriesAndWrite collidingHash sampleMergeToModel
             sessionBData storedSeriesA storeWithSessionA = (Ok tt, st')
           /\ jsonFiles st'
                !! getScheduledSessionFilePath "everywhere" (collidingHash "session-B")
              = Some storedSessionA
           /\ textFiles st' !! getSegmentIndexFilePath "everywhere"
              = textFiles storeWithSessionA !! getSegmentIndexFilePath "everywhere"
           /\ In {| level := "warn";
                    message := [Lit "Already downloaded ScheduledSession:";
                                Val (VStr "session-A");
                                Lit " and newly received ScheduledSession: ";
                                Val (VStr "session-B");
                                Lit " are not the same despite having the same hash: ";
                                Lit (collidingHash "session-B")] |}
                 (logged st')).
Proof.
  assert (H : jsonFiles storeWithSeriesA !! getSessionSeriesFilePath (collidingHash "series-B")
              = Some storedSeriesA) by (vm_compute; reflexivity).
  assert (H' : jsonFiles storeWithSessionA
                 !! getScheduledSessionFilePath "everywhere" (collidingHash "session-B")
               = Some storedSessionA) by (vm_compute; reflexivity).
  split; (split; [assumption|]).
  - exact (proj1 (hash_clash_skips_write collidingHash sampleMergeToModel sampleFormatUtc)
             "series-B" seriesBData seriesBData storedSeriesA [] storeWithSeriesA
             H eq_refl eq_refl).
  - refine (proj2 (hash_clash_skips_write collidingHash sampleMergeToModel sampleFormatUtc)
              sessionBData storedSeriesA storedSessionA "session-B" "everywhere"
              ["everywhere"] storeWithSessionA eq_refl eq_refl _ H' eq_refl eq_refl).
    now left.
Defined.

(** C6, counterexample. A series in state ['updated'] with an id that is
    online-capable and has no location is not retained: the processor
    writes nothing, although the segmenter would assign its sessions to the
    segment. *)
Lemma online_series_without_location_is_dropped :
  strictEqStr (prop "state" onlineSeriesItem) "updated" = true
  /\ truthy (prop "id" onlineSeriesItem) = true
  /\ doesEventSupportOnline (prop "data" onlineSeriesItem) = true
  /\ generateSegmentIdentifiersForMergedScheduledSession sampleGetDistance
       (prop "data" onlineSeriesItem) [wholeWorld] = Ok ["everywhere"]
  /\ processSessionSeriesItems sampleHash sampleMergeToModel roughDistance exactProduct
       sampleFormatUtc sampleParseHHmm sampleParseYYYYMMDD 100 sampleNow
       [onlineSeriesItem] [wholeWorld] emptyStore
     = (Ok tt, emptyStore).
Proof. repeat split. Qed.

Lemma series_without_geo_is_dropped_witness :
  hasPhysicalLocationGeo (prop "data" onlineSeriesItem) = false
  /\ processSessionSeriesItem sampleHash sampleMergeToModel roughDistance exactProduct
       sampleFormatUtc sampleParseHHmm sampleParseYYYYMMDD 100 sampleNow [wholeWorld]
       onlineSeriesItem emptyStore
     = (Ok tt, emptyStore).
Proof.
  split; [reflexivity|].
  apply (series_without_geo_is_dropped sampleHash sampleMergeToModel roughDistance exactProduct
           sampleFormatUtc sampleParseHHmm sampleParseYYYYMMDD 100 sampleNow [wholeWorld]
           onlineSeriesItem emptyStore); try reflexivity; discriminate.
Defined.

(** C7, at the failing input. The [startDate] of a ScheduledSession of the
    feed is a string that moment cannot read, the 30th of February: the
    moment made of it is neither before [now] nor after the end of the
    window, and at any time the session is merged with its series and
    written into the segment of the series, with a line in the index. *)
Theorem feed_session_with_unreadable_startDate_is_persisted
    (momentOf : JsVal -> option Z) (now : Z) :
  momentOf (VStr "2024-02-30T10:00:00Z") = None ->
  let run := processScheduledSessionItems sampleHash sampleMergeToModel momentOf now
               [undatedFeedSession] storeWithYoga in
  prop "startDate" (prop "data" undatedFeedSession) = VStr "2024-02-30T10:00:00Z"
  /\ fst run = Ok tt
  /\ prop "startDate"
       (default VNull
          (jsonFiles (snd run) !! getScheduledSessionFilePath "everywhere"
                                    (sampleHash "session-9")))
     = VStr "2024-02-30T10:00:00Z"
  /\ textFiles (snd run) !! getSegmentIndexFilePath "everywhere"
     = Some (indexLine (sampleHash "session-9")).
Proof.
  intros Hunreadable.
  assert (Hrun : processScheduledSessionItems sampleHash sampleMergeToModel momentOf now
                   [undatedFeedSession] storeWithYoga
                 = processScheduledSessionItems sampleHash sampleMergeToModel
                     (fun _ => None) now [undatedFeedSession] storeWithYoga).
  { unfold processScheduledSessionItems, forEach, processScheduledSessionItem, bind, liftR.
    cbn [propOf undatedFeedSession prop getField String.eqb Ascii.eqb Bool.eqb].
    simpl. rewrite Hunreadable. reflexivity. }
  cbv zeta. rewrite Hrun. repeat split; vm_compute; reflexivity.
Qed.

Lemma feed_session_with_unreadable_startDate_is_persisted_witness :
  fst (processScheduledSessionItems sampleHash sampleMergeToModel sampleMomentOf sampleNow
         [undatedFeedSession] storeWithYoga) = Ok tt
  /\ prop "startDate"
       (default VNull
          (jsonFiles (snd (processScheduledSessionItems sampleHash sampleMergeToModel
                             sampleMomentOf sampleNow [undatedFeedSession] storeWithYoga))
             !! getScheduledSessionFilePath "everywhere" (sampleHash "session-9")))
     = VStr "2024-02-30T10:00:00Z".
Proof.
  pose proof (feed_session_with_unreadable_startDate_is_persisted sampleMomentOf sampleNow
                eq_refl) as H.
  cbv zeta in H. split; [exact (proj1 (proj2 H)) | exact (proj1 (proj2 (proj2 H)))].
Defined.

Example feed_session_is_written :
  let st' := snd (processScheduledSessionItem sampleHash sampleMergeToModel sampleMomentOf
                    sampleNow feedSession storeWithYoga) in
  prop "name" (default VNull
                 (jsonFiles st' !! getScheduledSessionFilePath "everywhere"
                                     (sampleHash "session-7")))
  = VStr "Yoga"
  /\ textFiles st' !! getSegmentIndexFilePath "everywhere"
     = Some (indexLine (sampleHash "session-7")).
Proof. split; vm_compute; reflexivity. Qed.

(** * Further properties of the code *)

(** ** The recurrence expander: which dates are emitted *)

Lemma combine_formatYYYYMMDD (day : Z) (time : nat) :
  (time < 1440)%nat ->
  formatYYYYMMDD (combineYYYYMMDDAndHHMMString day time) = day.
Proof.
  intros Ht. unfold formatYYYYMMDD, combineYYYYMMDDAndHHMMString, DAY, MINUTE.
  symmetry. apply (Z.div_unique _ _ day (Z.of_nat time * 60000)); lia.
Qed.

Lemma earliestMoment_shape (now : Z) (eventSchedule : MinimalEventSchedule) :
  exists day,
    earliestMoment now eventSchedule
    = combineYYYYMMDDAndHHMMString day (startTime eventSchedule).
Proof.
  unfold earliestMoment.
  set (today := combineYYYYMMDDAndHHMMString (formatYYYYMMDD now) (startTime eventSchedule)).
  assert (Hnext : exists day,
             (if today <? now then addDays today 1 else today)
             = combineYYYYMMDDAndHHMMString day (startTime eventSchedule)).
  { destruct (today <? now).
    - exists (formatYYYYMMDD now + 1). subst today.
      unfold addDays, combineYYYYMMDDAndHHMMString. lia.
    - eexists. reflexivity. }
  destruct (startDate eventSchedule) as [d|]; [|exact Hnext].
  match goal with |- context [?a >? ?b] => destruct (a >? b) end;
    [exact Hnext | eexists; reflexivity].
Qed.

Lemma isoWeekdayOfDay_shift (day d w : Z) :
  1 <= d <= 7 ->
  isoWeekdayOfDay (day + (w * 7 + (d - isoWeekdayOfDay day))) = d.
Proof.
  intros Hd. unfold isoWeekdayOfDay.
  pose proof (Z.div_mod (day + 3) 7 ltac:(lia)) as Hdm.
  pose proof (Z.mod_pos_bound (day + 3) 7 ltac:(lia)) as Hb.
  set (m := (day + 3) mod 7) in *. set (q := (day + 3) / 7) in *.
  assert (Hmod : (day + (w * 7 + (d - (m + 1))) + 3) mod 7 = d - 1).
  { symmetry. apply (Zmod_unique _ _ (q + w)); lia. }
  rewrite Hmod. lia.
Qed.

Lemma consume_dates_shape (offsets : list Z) (earliest latest : Z) (fuel : nat) :
  forall st,
    match st with FirstWeek rest | FurtherWeeks _ rest => incl rest offsets end ->
    Forall (fun date => exists w o, In o offsets /\ date = addDays earliest (w * 7 + o))
           (fst (consume fuel offsets earliest latest st)).
Proof.
  induction fuel as [|fuel IH]; intros st Hst; simpl; [constructor|].
  destruct st as [[|o rest]|w [|o rest]]; simpl.
  - apply IH. apply incl_refl.
  - assert (Hrest : incl rest offsets) by (intros x Hx; apply Hst; now right).
    destruct (o <? 0); [now apply IH|].
    destruct (addDays earliest o >? latest); [constructor|].
    specialize (IH (FirstWeek rest) Hrest).
    destruct (consume fuel offsets earliest latest (FirstWeek rest)) as [later running].
    simpl in *. constructor; [|exact IH].
    exists 0, o. split; [apply Hst; now left | f_equal; lia].
  - apply IH. apply incl_refl.
  - assert (Hrest : incl rest offsets) by (intros x Hx; apply Hst; now right).
    destruct (addDays earliest (w * 7 + o) >? latest); [constructor|].
    specialize (IH (FurtherWeeks w rest) Hrest).
    destruct (consume fuel offsets earliest latest (FurtherWeeks w rest)) as [later running].
    simpl in *. constructor; [|exact IH].
    exists w, o. split; [apply Hst; now left | reflexivity].
Qed.

Lemma isoWeekdayOffsets_In_weekday (now : Z) (eventSchedule : MinimalEventSchedule)
    (o : Z) :
  In o (isoWeekdayOffsets now eventSchedule) ->
  exists d, o = d - isoWeekday (earliestMoment now eventSchedule)
            /\ In d (getIsoWeekdays eventSchedule).
Proof.
  rewrite isoWeekdayOffsets_spec. intros Hin. apply in_map_iff in Hin as (d & <- & Hd).
  exists d. split; [reflexivity|]. now apply (proj1 (sortWeekdays_In _ _)) in Hd.
Qed.

Lemma generated_sessions_weekdays (formatUtc : Z -> string) (fuel : nat)
    (now : Z) (eventSchedule : MinimalEventSchedule) :
  (startTime eventSchedule < 1440)%nat ->
  Forall (fun session =>
            In (isoWeekday (ssStartDate session)) (getIsoWeekdays eventSchedule)
            /\ ssEndDate session
               = option_map
                   (combineYYYYMMDDAndHHMMString (formatYYYYMMDD (ssStartDate session)))
                   (endTime eventSchedule))
         (fst (generateDatesWithinTimeWindow formatUtc fuel now eventSchedule)).
Proof.
  intros Htime. unfold generateDatesWithinTimeWindow.
  destruct (earliestMoment now eventSchedule >? latestMoment now eventSchedule);
    [constructor|].
  pose proof (consume_dates_shape (isoWeekdayOffsets now eventSchedule)
                (earliestMoment now eventSchedule) (latestMoment now eventSchedule) fuel
                (FirstWeek (isoWeekdayOffsets now eventSchedule))
                (incl_refl _)) as Hshape.
  destruct (consume _ _ _ _ _) as [dates running]. simpl in *.
  destruct (earliestMoment_shape now eventSchedule) as [day0 Hearliest].
  induction Hshape as [|date dates (w & o & Ho & ->) _ IH]; simpl; constructor; [|exact IH].
  split; [|reflexivity]. cbn [ssStartDate scheduledSessionAt].
  apply isoWeekdayOffsets_In_weekday in Ho as (d & -> & Hd).
  pose proof (proj1 (List.Forall_forall (fun d => 1 <= d <= 7) _)
                (getIsoWeekdays_range eventSchedule) d Hd) as Hrange.
  unfold isoWeekday. rewrite Hearliest.
  rewrite (combine_formatYYYYMMDD day0 _ Htime).
  assert (Hstart : addDays (combineYYYYMMDDAndHHMMString day0 (startTime eventSchedule))
                     (w * 7 + (d - isoWeekdayOfDay day0))
                   = combineYYYYMMDDAndHHMMString
                       (day0 + (w * 7 + (d - isoWeekdayOfDay day0)))
                       (startTime eventSchedule)).
  { unfold addDays, combineYYYYMMDDAndHHMMString. lia. }
  rewrite Hstart, (combine_formatYYYYMMDD _ _ Htime).
  now rewrite isoWeekdayOfDay_shift.
Qed.

(** X1. When moment can read the times and dates of a schedule, [startTime]
    being a time of the day, every session that the expander emits starts,
    on the wall clock of the schedule's timezone, on a weekday derived from
    the schedule, and its end is made of the day of its start and of
    [endTime]: an invalid moment when [endTime] cannot be read. *)
Theorem generated_sessions_on_derived_weekdays (formatUtc : Z -> string)
    (formatEndOfInvalidStart : MinimalEventSchedule -> string) (fuel : nat)
    (now : Z) (eventSchedule : MinimalEventSchedule) :
  momentsAreValid eventSchedule = true ->
  (startTime eventSchedule < 1440)%nat ->
  exists sessions,
    fst (generatedScheduledSessions formatUtc formatEndOfInvalidStart fuel now eventSchedule)
    = map (scheduledSessionObject formatUtc) sessions
    /\ Forall (fun session =>
                 In (isoWeekday (ssStartDate session)) (getIsoWeekdays eventSchedule)
                 /\ ssEndDate session
                    = option_map
                        (combineYYYYMMDDAndHHMMString
                           (formatYYYYMMDD (ssStartDate session)))
                        (endTime eventSchedule))
              sessions.
Proof.
  intros Hvalid Htime. rewrite (generatedScheduledSessions_valid _ _ _ _ _ Hvalid).
  exists (fst (generateDatesWithinTimeWindow formatUtc fuel now eventSchedule)).
  split; [reflexivity|]. now apply generated_sessions_weekdays.
Qed.

Lemma earliestMoment_not_before_startDate (now : Z) (eventSchedule : MinimalEventSchedule)
    (d : Z) :
  startDate eventSchedule = Some d ->
  combineYYYYMMDDAndHHMMString d (startTime eventSchedule)
  <= earliestMoment now eventSchedule.
Proof.
  intros Hs. unfold earliestMoment. rewrite Hs.
  match goal with |- context [?a >? ?b] => destruct (a >? b) eqn:E end; [|lia].
  rewrite Z.gtb_ltb in E. apply Z.ltb_lt in E. lia.
Qed.

Lemma latestMoment_not_after_endDate (now : Z) (eventSchedule : MinimalEventSchedule)
    (d : Z) :
  endDate eventSchedule = Some d ->
  latestMoment now eventSchedule
  <= combineYYYYMMDDAndHHMMString d (startTime eventSchedule).
Proof.
  intros He. unfold latestMoment. rewrite He.
  match goal with |- context [?a <? ?b] => destruct (a <? b) eqn:E end; [|lia].
  apply Z.ltb_lt in E. lia.
Qed.

Lemma generated_sessions_between_earliest_and_latest (formatUtc : Z -> string)
    (fuel : nat) (now : Z) (eventSchedule : MinimalEventSchedule) :
  Forall (fun session =>
            earliestMoment now eventSchedule <= ssStartDate session
            <= latestMoment now eventSchedule)
         (fst (generateDatesWithinTimeWindow formatUtc fuel now eventSchedule)).
Proof.
  unfold generateDatesWithinTimeWindow.
  destruct (earliestMoment now eventSchedule >? latestMoment now eventSchedule);
    [constructor|].
  pose proof (consume_not_before_earliest fuel now eventSchedule
                (earliestMoment now eventSchedule) (latestMoment now eventSchedule)) as Hlo.
  pose proof (consume_not_after_latest fuel (isoWeekdayOffsets now eventSchedule)
                (earliestMoment now eventSchedule) (latestMoment now eventSchedule)
                (FirstWeek (isoWeekdayOffsets now eventSchedule))) as Hhi.
  destruct (consume _ _ _ _ _) as [dates running]. simpl in *.
  induction dates as [|d dates IH]; simpl; [constructor|].
  inversion Hlo; inversion Hhi; subst. constructor; [simpl; lia | now apply IH].
Qed.

Lemma sessions_within_schedule_dates (formatUtc : Z -> string) (fuel : nat)
    (now : Z) (eventSchedule : MinimalEventSchedule) :
  Forall (fun session =>
            match startDate eventSchedule with
            | Some d =>
                combineYYYYMMDDAndHHMMString d (startTime eventSchedule)
                <= ssStartDate session
            | None => True
            end
            /\ match endDate eventSchedule with
               | Some d =>
                   ssStartDate session
                   <= combineYYYYMMDDAndHHMMString d (startTime eventSchedule)
               | None => True
               end)
         (fst (generateDatesWithinTimeWindow formatUtc fuel now eventSchedule)).
Proof.
  eapply List.Forall_impl;
    [|apply generated_sessions_between_earliest_and_latest].
  intros session [Hlo Hhi]. split.
  - destruct (startDate eventSchedule) as [d|] eqn:Es; [|exact I].
    pose proof (earliestMoment_not_before_startDate now eventSchedule d Es). lia.
  - destruct (endDate eventSchedule) as [d|] eqn:Ee; [|exact I].
    pose proof (latestMoment_not_after_endDate now eventSchedule d Ee). lia.
Qed.

(** X2. When moment can read the [startTime], the [startDate] and the
    [endDate] of a schedule, no session is emitted before its [startDate]
    (taken at [startTime]) nor after its [endDate] (taken at [startTime]
    too), when the schedule has them. *)
Theorem generated_sessions_within_schedule_dates (formatUtc : Z -> string)
    (formatEndOfInvalidStart : MinimalEventSchedule -> string) (fuel : nat)
    (now : Z) (eventSchedule : MinimalEventSchedule) :
  momentsAreValid eventSchedule = true ->
  exists sessions,
    fst (generatedScheduledSessions formatUtc formatEndOfInvalidStart fuel now eventSchedule)
    = map (scheduledSessionObject formatUtc) sessions
    /\ Forall (fun session =>
                 match startDate eventSchedule with
                 | Some d =>
                     combineYYYYMMDDAndHHMMString d (startTime eventSchedule)
                     <= ssStartDate session
                 | None => True
                 end
                 /\ match endDate eventSchedule with
                    | Some d =>
                        ssStartDate session
                        <= combineYYYYMMDDAndHHMMString d (startTime eventSchedule)
                    | None => True
                    end)
              sessions.
Proof.
  intros Hvalid. rewrite (generatedScheduledSessions_valid _ _ _ _ _ Hvalid).
  exists (fst (generateDatesWithinTimeWindow formatUtc fuel now eventSchedule)).
  split; [reflexivity | apply sessions_within_schedule_dates].
Qed.

Lemma generated_sessions_within_schedule_dates_witness :
  exists sessions,
    fst (generatedScheduledSessions sampleFormatUtc sampleFormatEnd 30 sampleNow januaryMondays)
    = map (scheduledSessionObject sampleFormatUtc) sessions
    /\ Forall (fun session =>
                 match startDate januaryMondays with
                 | Some d =>
                     combineYYYYMMDDAndHHMMString d (startTime januaryMondays)
                     <= ssStartDate session
                 | None => True
                 end
                 /\ match endDate januaryMondays with
                    | Some d =>
                        ssStartDate session
                        <= combineYYYYMMDDAndHHMMString d (startTime januaryMondays)
                    | None => True
                    end)
              sessions.
Proof.
  apply (generated_sessions_within_schedule_dates sampleFormatUtc sampleFormatEnd 30 sampleNow
           januaryMondays).
  reflexivity.
Defined.

Lemma returns_at_once_outside_window (formatUtc : Z -> string) (fuel : nat)
    (now : Z) (eventSchedule : MinimalEventSchedule) :
  (exists d, endDate eventSchedule = Some d
             /\ combineYYYYMMDDAndHHMMString d (startTime eventSchedule) < now)
  \/ (exists d, startDate eventSchedule = Some d
                /\ addWeeks now SCHEDULE_TIME_WINDOW_IN_WEEKS
                   < combineYYYYMMDDAndHHMMString d (startTime eventSchedule)) ->
  generateDatesWithinTimeWindow formatUtc fuel now eventSchedule = ([], true).
Proof.
  intros H. unfold generateDatesWithinTimeWindow.
  assert (Hempty : latestMoment now eventSchedule < earliestMoment now eventSchedule).
  { destruct H as [(d & He & Hd)|(d & Hs & Hd)].
    - pose proof (latestMoment_not_after_endDate now eventSchedule d He).
      pose proof (earliestMoment_not_before_now now eventSchedule). lia.
    - pose proof (earliestMoment_not_before_startDate now eventSchedule d Hs).
      pose proof (latestMoment_within_window now eventSchedule). lia. }
  rewrite Z.gtb_ltb. apply Z.ltb_lt in Hempty. now rewrite Hempty.
Qed.

(** X3. When moment can read its [startTime], [startDate] and [endDate], a
    schedule that ended before [now], or that starts after the time window,
    is expanded into nothing, and the expander returns at once, whatever
    [byDay] holds. *)
Theorem expander_returns_at_once_outside_window (formatUtc : Z -> string)
    (formatEndOfInvalidStart : MinimalEventSchedule -> string) (fuel : nat)
    (now : Z) (eventSchedule : MinimalEventSchedule) :
  momentsAreValid eventSchedule = true ->
  (exists d, endDate eventSchedule = Some d
             /\ combineYYYYMMDDAndHHMMString d (startTime eventSchedule) < now)
  \/ (exists d, startDate eventSchedule = Some d
                /\ addWeeks now SCHEDULE_TIME_WINDOW_IN_WEEKS
                   < combineYYYYMMDDAndHHMMString d (startTime eventSchedule)) ->
  generatedScheduledSessions formatUtc formatEndOfInvalidStart fuel now eventSchedule
  = ([], true).
Proof.
  intros Hvalid Houtside. rewrite (generatedScheduledSessions_valid _ _ _ _ _ Hvalid).
  now rewrite (returns_at_once_outside_window formatUtc fuel now eventSchedule Houtside).
Qed.

Lemma expander_returns_at_once_outside_window_witness :
  generatedScheduledSessions sampleFormatUtc sampleFormatEnd 0 sampleNow endedLastYear
  = ([], true).
Proof.
  apply (expander_returns_at_once_outside_window sampleFormatUtc sampleFormatEnd 0 sampleNow
           endedLastYear).
  - reflexivity.
  - left. exists 19600. split; [reflexivity | vm_compute; reflexivity].
Defined.

Lemma generateDatesWithinTimeWindow_returns_iff (formatUtc : Z -> string) (now : Z)
    (eventSchedule : MinimalEventSchedule) :
  (exists fuel sessions,
      generateDatesWithinTimeWindow formatUtc fuel now eventSchedule = (sessions, true))
  <-> (getIsoWeekdays eventSchedule <> []
       \/ latestMoment now eventSchedule < earliestMoment now eventSchedule).
Proof.
  split.
  - intros (fuel & sessions & Hrun).
    destruct (getIsoWeekdays eventSchedule) as [|d l] eqn:Ew; [|left; discriminate].
    right. destruct (Z_lt_le_dec (latestMoment now eventSchedule)
                       (earliestMoment now eventSchedule)) as [Hlt|Hle]; [exact Hlt|].
    rewrite (generateDatesWithinTimeWindow_never_returns formatUtc fuel now eventSchedule
               Ew Hle) in Hrun. discriminate.
  - intros [Hne|Hempty].
    + now apply generateDatesWithinTimeWindow_returns.
    + exists 0%nat, []. unfold generateDatesWithinTimeWindow.
      rewrite Z.gtb_ltb. apply Z.ltb_lt in Hempty. now rewrite Hempty.
Qed.

(** X4. The expander returns exactly when moment can read the [startTime],
    the [startDate] and the [endDate] of the schedule and, besides, a
    weekday is derived from the schedule or its time window is empty.  In
    particular it never returns on a schedule with a time or a date that
    moment cannot read. *)
Theorem expander_returns_iff (formatUtc : Z -> string)
    (formatEndOfInvalidStart : MinimalEventSchedule -> string) (now : Z)
    (eventSchedule : MinimalEventSchedule) :
  (exists fuel objects,
      generatedScheduledSessions formatUtc formatEndOfInvalidStart fuel now eventSchedule
      = (objects, true))
  <-> momentsAreValid eventSchedule = true
      /\ (getIsoWeekdays eventSchedule <> []
          \/ latestMoment now eventSchedule < earliestMoment now eventSchedule).
Proof.
  split.
  - intros (fuel & objects & Hrun).
    destruct (momentsAreValid eventSchedule) eqn:Hvalid.
    + split; [reflexivity|].
      apply (generateDatesWithinTimeWindow_returns_iff formatUtc).
      rewrite (generatedScheduledSessions_valid _ _ _ _ _ Hvalid) in Hrun.
      exists fuel, (fst (generateDatesWithinTimeWindow formatUtc fuel now eventSchedule)).
      destruct (generateDatesWithinTimeWindow formatUtc fuel now eventSchedule)
        as [sessions returned].
      simpl in Hrun. injection Hrun as _ ->. reflexivity.
    + pose proof (generatedScheduledSessions_invalid formatUtc formatEndOfInvalidStart fuel now
                    eventSchedule
                    Hvalid) as Hnever.
      rewrite Hrun in Hnever. discriminate.
  - intros [Hvalid Hreturns].
    apply (generateDatesWithinTimeWindow_returns_iff formatUtc) in Hreturns
      as (fuel & sessions & Hrun).
    exists fuel, (map (scheduledSessionObject formatUtc) sessions).
    now rewrite (generatedScheduledSessions_valid _ _ _ _ _ Hvalid), Hrun.
Qed.

(** ** The recurrence expander: no date is missed *)

Section ConsumeComplete.

Variables (offsets : list Z) (earliest latest : Z).

Hypothesis offsets_sorted : StronglySorted Z.le offsets.
Hypothesis offsets_span : forall a b, In a offsets -> In b offsets -> a - b < 7.

Lemma addDays_le (a b : Z) : a <= b -> addDays earliest a <= addDays earliest b.
Proof. unfold addDays, DAY. lia. Qed.

Lemma consume_complete (fuel : nat) :
  forall st dates,
    consume fuel offsets earliest latest st = (dates, None) ->
    match st with
    | FirstWeek rest | FurtherWeeks _ rest => StronglySorted Z.le rest /\ incl rest offsets
    end ->
    forall days,
      upcoming offsets st days ->
      addDays earliest days <= latest ->
      In (addDays earliest days) dates.
Proof.
  induction fuel as [|fuel IH]; intros st dates Hrun Hinv days Hup Hle; simpl in Hrun;
    [discriminate|].
  destruct st as [[|o rest]|w0 [|o rest]]; simpl in Hrun, Hinv, Hup.
  - (* the first week is over *)
    apply (IH _ _ Hrun); [split; [|apply incl_refl] | | exact Hle].
    + exact offsets_sorted.
    + destruct Hup as [[[] _]|(w & o & Hw & Ho & ->)].
      destruct (Z.eq_dec w 1) as [->|Hne]; [left; eauto | right; exists w, o; repeat split; auto; lia].
  - destruct Hinv as [Hsort Hincl].
    inversion Hsort as [|? ? Hsort' Hhd]; subst.
    assert (Hincl' : incl rest offsets) by (intros x Hx; apply Hincl; now right).
    assert (Ho : In o offsets) by (apply Hincl; now left).
    destruct (o <? 0) eqn:Eneg.
    + apply Z.ltb_lt in Eneg. apply (IH _ _ Hrun); [now split | | exact Hle].
      destruct Hup as [[[<-|Hin] Hpos]|Hlater]; [lia | now left | now right].
    + apply Z.ltb_ge in Eneg.
      assert (Hmin : o <= days).
      { destruct Hup as [[[<-|Hin] _]|(w & o' & Hw & Ho' & ->)]; [lia | |].
        - exact (proj1 (List.Forall_forall _ _) Hhd days Hin).
        - pose proof (offsets_span o o' Ho Ho'). lia. }
      destruct (addDays earliest o >? latest) eqn:Egt.
      * apply Z.gtb_lt in Egt. pose proof (addDays_le o days Hmin). lia.
      * destruct (consume fuel offsets earliest latest (FirstWeek rest))
          as [later running] eqn:Erest.
        injection Hrun as <- ->.
        destruct Hup as [[[<-|Hin] Hpos]|Hlater]; [now left | |]; right;
          apply (IH _ _ Erest); auto; [now left | now right].
  - (* [weekOffset += 1] *)
    apply (IH _ _ Hrun); [split; [|apply incl_refl] | | exact Hle].
    + exact offsets_sorted.
    + destruct Hup as [(o & [] & _)|(w & o & Hw & Ho & ->)].
      destruct (Z.eq_dec w (w0 + 1)) as [->|Hne];
        [left; eauto | right; exists w, o; repeat split; auto; lia].
  - destruct Hinv as [Hsort Hincl].
    inversion Hsort as [|? ? Hsort' Hhd]; subst.
    assert (Hincl' : incl rest offsets) by (intros x Hx; apply Hincl; now right).
    assert (Ho : In o offsets) by (apply Hincl; now left).
    assert (Hmin : w0 * 7 + o <= days).
    { destruct Hup as [(o' & [<-|Hin] & ->)|(w & o' & Hw & Ho' & ->)]; [lia | |].
      - pose proof (proj1 (List.Forall_forall _ _) Hhd o' Hin). lia.
      - pose proof (offsets_span o o' Ho Ho'). nia. }
    destruct (addDays earliest (w0 * 7 + o) >? latest) eqn:Egt.
    + apply Z.gtb_lt in Egt. pose proof (addDays_le _ days Hmin). lia.
    + destruct (consume fuel offsets earliest latest (FurtherWeeks w0 rest))
        as [later running] eqn:Erest.
      injection Hrun as <- ->.
      destruct Hup as [(o' & [<-|Hin] & ->)|Hlater]; [now left | |]; right;
        apply (IH _ _ Erest); auto; [left; eauto | now right].
Qed.

End ConsumeComplete.

Lemma formatYYYYMMDD_addDays (m k : Z) :
  formatYYYYMMDD (addDays m k) = formatYYYYMMDD m + k.
Proof. unfold formatYYYYMMDD, addDays, DAY. apply Z.div_add. lia. Qed.

Lemma same_weekday_multiple_of_7 (day k : Z) :
  exists w, k = w * 7 + (isoWeekdayOfDay (day + k) - isoWeekdayOfDay day).
Proof.
  unfold isoWeekdayOfDay.
  pose proof (Z.div_mod (day + k + 3) 7 ltac:(lia)).
  pose proof (Z.div_mod (day + 3) 7 ltac:(lia)).
  exists ((day + k + 3) / 7 - (day + 3) / 7). lia.
Qed.

(** X5. Once the expander has returned, it has emitted every date that
    lies a whole number of days after [earliestMoment], not after
    [latestMoment], on a weekday derived from the schedule: stopping at the
    first date after [latestMoment] misses none. *)
Theorem expander_misses_no_date (formatUtc : Z -> string) (fuel : nat) (now : Z)
    (eventSchedule : MinimalEventSchedule) (sessions : list ScheduledSession) (k : Z) :
  generateDatesWithinTimeWindow formatUtc fuel now eventSchedule = (sessions, true) ->
  0 <= k ->
  addDays (earliestMoment now eventSchedule) k <= latestMoment now eventSchedule ->
  In (isoWeekday (addDays (earliestMoment now eventSchedule) k))
     (getIsoWeekdays eventSchedule) ->
  In (addDays (earliestMoment now eventSchedule) k) (map ssStartDate sessions).
Proof.
  intros Hrun Hk Hle Hday. unfold generateDatesWithinTimeWindow in Hrun.
  destruct (earliestMoment now eventSchedule >? latestMoment now eventSchedule) eqn:Egt.
  { apply Z.gtb_lt in Egt. unfold addDays, DAY in Hle. lia. }
  destruct (consume fuel (isoWeekdayOffsets now eventSchedule)
              (earliestMoment now eventSchedule) (latestMoment now eventSchedule)
              (FirstWeek (isoWeekdayOffsets now eventSchedule)))
    as [dates [running|]] eqn:Econsume; [discriminate|].
  injection Hrun as <-. rewrite map_ssStartDate.
  assert (Hsorted : StronglySorted Z.le (isoWeekdayOffsets now eventSchedule)).
  { apply (isoWeekdayOffsets_sorted false). discriminate. }
  apply (consume_complete _ _ _ Hsorted (isoWeekdayOffsets_span now eventSchedule)
           fuel _ _ Econsume); [split; [exact Hsorted | apply incl_refl] | | exact Hle].
  unfold isoWeekday in Hday. rewrite formatYYYYMMDD_addDays in Hday.
  set (day0 := formatYYYYMMDD (earliestMoment now eventSchedule)) in *.
  set (d := isoWeekdayOfDay (day0 + k)) in *.
  assert (Ho : In (d - isoWeekdayOfDay day0) (isoWeekdayOffsets now eventSchedule)).
  { rewrite isoWeekdayOffsets_spec. apply in_map_iff. exists d.
    split; [reflexivity | now apply sortWeekdays_In]. }
  destruct (same_weekday_multiple_of_7 day0 k) as [w Hw]. fold d in Hw.
  pose proof (isoWeekdayOfDay_range (day0 + k)) as Hr1. fold d in Hr1.
  pose proof (isoWeekdayOfDay_range day0) as Hr0.
  simpl. destruct (Z.eq_dec w 0) as [->|Hne].
  - left. split; [|exact Hk]. replace k with (d - isoWeekdayOfDay day0) by lia. exact Ho.
  - right. exists w, (d - isoWeekdayOfDay day0). repeat split; [lia | exact Ho | exact Hw].
Qed.

Lemma expander_misses_no_date_witness :
  In (addDays (earliestMoment sampleNow mondayWednesday) 4)
     (map ssStartDate
        (fst (generateDatesWithinTimeWindow sampleFormatUtc 30 sampleNow mondayWednesday))).
Proof.
  apply (expander_misses_no_date sampleFormatUtc 30 sampleNow mondayWednesday _ 4).
  - vm_compute. reflexivity.
  - lia.
  - vm_compute. discriminate.
  - vm_compute. left. reflexivity.
Defined.

Lemma generated_sessions_on_derived_weekdays_witness :
  exists sessions,
    fst (generatedScheduledSessions sampleFormatUtc sampleFormatEnd 30 sampleNow mondayWednesday)
    = map (scheduledSessionObject sampleFormatUtc) sessions
    /\ Forall (fun session =>
                 In (isoWeekday (ssStartDate session)) (getIsoWeekdays mondayWednesday)
                 /\ ssEndDate session
                    = option_map
                        (combineYYYYMMDDAndHHMMString
                           (formatYYYYMMDD (ssStartDate session)))
                        (endTime mondayWednesday))
              sessions.
Proof.
  apply (generated_sessions_on_derived_weekdays sampleFormatUtc sampleFormatEnd 30 sampleNow
           mondayWednesday).
  - reflexivity.
  - vm_compute. lia.
Defined.

(** ** The ids of the generated sessions *)

Lemma append_assoc' (a b c : string) :
  String.append (String.append a b) c = String.append a (String.append b c).
Proof.
  induction a as [|x a IH]; [reflexivity|].
  change (String x (String.append (String.append a b) c)
          = String x (String.append a (String.append b c))).
  now rewrite IH.
Qed.

Lemma drop_append (a b : string) : Str.drop (String.length a) (String.append a b) = b.
Proof. induction a as [|x a IH]; [reflexivity | exact IH]. Qed.

Lemma append_cancel_l (a b c : string) :
  String.append a b = String.append a c -> b = c.
Proof.
  induction a as [|x a IH]; intros H; [exact H|].
  change (String x (String.append a b) = String x (String.append a c)) in H.
  injection H as H. now apply IH.
Qed.


Lemma replace_unfold (s pat by_ : string) :
  Str.replace s pat by_
  = if Str.startsWith s pat then String.append by_ (Str.drop (String.length pat) s)
    else match s with
         | EmptyString => EmptyString
         | String c s' => String c (Str.replace s' pat by_)
         end.
Proof. destruct s; reflexivity. Qed.

Lemma replace_first (s before_ pat after by_ : string) :
  FirstAt s before_ pat after ->
  Str.replace s pat by_ = String.append before_ (String.append by_ after).
Proof.
  revert s. induction before_ as [|c before_ IH]; intros s [-> Hfirst].
  - change (Str.replace (String.append pat after) pat by_ = String.append by_ after).
    rewrite replace_unfold.
    assert (E : Str.startsWith (String.append pat after) pat = true)
      by (apply startsWith_spec; eauto).
    now rewrite E, drop_append.
  - change (String.append (String c before_) (String.append pat after))
      with (String c (String.append before_ (String.append pat after))) in *.
    rewrite replace_unfold.
    destruct (Str.startsWith (String c (String.append before_ (String.append pat after))) pat)
      eqn:E.
    + apply startsWith_spec in E as [a E].
      specialize (Hfirst "" a E). simpl in Hfirst. lia.
    + change (String.append (String c before_) (String.append by_ after))
        with (String c (String.append before_ (String.append by_ after))).
      f_equal. apply IH. split; [reflexivity|].
      intros b a H.
      assert (Hs : String c (String.append before_ (String.append pat after))
                   = String.append (String c b) (String.append pat a)).
      { change (String.append (String c b) (String.append pat a))
          with (String c (String.append b (String.append pat a))). now rewrite H. }
      specialize (Hfirst (String c b) a Hs). simpl in Hfirst. lia.
Qed.

Lemma StronglySorted_lt_NoDup (l : list Z) : StronglySorted Z.lt l -> List.NoDup l.
Proof.
  induction 1 as [|x l Hs IH Hx]; constructor; [|exact IH].
  intros Hin. pose proof (proj1 (List.Forall_forall _ _) Hx x Hin). lia.
Qed.

Lemma generated_sessions_are_mapped (formatUtc : Z -> string) (fuel : nat) (now : Z)
    (eventSchedule : MinimalEventSchedule) :
  exists dates,
    fst (generateDatesWithinTimeWindow formatUtc fuel now eventSchedule)
    = map (scheduledSessionAt formatUtc eventSchedule) dates.
Proof.
  unfold generateDatesWithinTimeWindow.
  destruct (earliestMoment now eventSchedule >? latestMoment now eventSchedule);
    [exists []; reflexivity|].
  destruct (consume _ _ _ _ _) as [dates running]. exists dates. reflexivity.
Qed.


Lemma evt_template_first :
  FirstAt (idTemplate mondayWednesday) "evt-" "{startDate}" "".
Proof.
  split; [reflexivity|]. intros b a H.
  destruct b as [|c1 [|c2 [|c3 [|c4 b]]]]; try (cbv in H; discriminate H).
  simpl. lia.
Qed.


Lemma scheduledSessionObject_id (formatUtc : Z -> string) (session : ScheduledSession) :
  prop "id" (scheduledSessionObject formatUtc session) = VStr (ssId session).
Proof.
  unfold scheduledSessionObject, prop. rewrite getField_app.
  destruct (truthy (ssDuration session)); reflexivity.
Qed.

(** X7. When moment can read the times and dates of a schedule,
    [idTemplate] holds ['{startDate}'], the derived weekdays are pairwise
    distinct and the formatting tells apart two moments that are a whole
    number of days from each other, no two objects generated for the
    schedule have the same id. *)
Theorem generated_session_ids_distinct (formatUtc : Z -> string)
    (formatEndOfInvalidStart : MinimalEventSchedule -> string) (fuel : nat) (now : Z)
    (eventSchedule : MinimalEventSchedule) (before_ after : string) :
  momentsAreValid eventSchedule = true ->
  (forall m n, formatUtc (addDays m n) = formatUtc m -> n = 0) ->
  FirstAt (idTemplate eventSchedule) before_ "{startDate}" after ->
  List.NoDup (getIsoWeekdays eventSchedule) ->
  List.NoDup
    (map (prop "id")
       (fst (generatedScheduledSessions formatUtc formatEndOfInvalidStart fuel now
               eventSchedule))).
Proof.
  intros Hvalid Hinj Hfirst Hnd.
  rewrite (generatedScheduledSessions_valid _ _ _ _ _ Hvalid). cbn [fst].
  assert (Hsorted : StronglySorted Z.lt
                      (map ssStartDate
                         (fst (generateDatesWithinTimeWindow formatUtc fuel now
                                 eventSchedule)))).
  { destruct (generated_startDates formatUtc fuel now eventSchedule) as [-> | ->];
      [constructor|].
    apply (consume_start_ordered true). intros _. exact Hnd. }
  assert (Hdays : Forall (fun session =>
                            exists days,
                              ssStartDate session
                              = addDays (earliestMoment now eventSchedule) days)
                    (fst (generateDatesWithinTimeWindow formatUtc fuel now
                            eventSchedule))).
  { unfold generateDatesWithinTimeWindow.
    destruct (earliestMoment now eventSchedule >? latestMoment now eventSchedule);
      [constructor|].
    pose proof (consume_dates_shape (isoWeekdayOffsets now eventSchedule)
                  (earliestMoment now eventSchedule) (latestMoment now eventSchedule) fuel
                  (FirstWeek (isoWeekdayOffsets now eventSchedule))
                  (incl_refl _)) as Hshape.
    destruct (consume _ _ _ _ _) as [dates running]. simpl in *.
    induction Hshape as [|date dates (w & o & _ & ->) _ IH]; simpl; constructor;
      [eexists; reflexivity | exact IH]. }
  destruct (generated_sessions_are_mapped formatUtc fuel now eventSchedule) as [dates Hd].
  rewrite Hd in *. rewrite map_ssStartDate in Hsorted.
  apply StronglySorted_lt_NoDup in Hsorted.
  assert (Hdates : Forall (fun date =>
                             exists days,
                               date = addDays (earliestMoment now eventSchedule) days)
                     dates).
  { apply List.Forall_forall. intros date Hin.
    apply (proj1 (List.Forall_forall _ _) Hdays
             (scheduledSessionAt formatUtc eventSchedule date)).
    now apply in_map. }
  clear Hd Hdays. rewrite !map_map.
  rewrite (map_ext _ (fun date =>
                        VStr (Str.replace (idTemplate eventSchedule) "{startDate}"
                                (formatUtc date))))
    by (intros date; apply scheduledSessionObject_id).
  induction dates as [|date dates IH]; cbn [map]; [constructor|].
  inversion Hsorted as [|? ? Hnotin Hrest]; subst.
  inversion Hdates as [|? ? [days Hdate] Hdates']; subst.
  constructor; [|now apply IH].
  intros Hin. apply in_map_iff in Hin as (other & Hsame & Hother).
  injection Hsame as Hsame.
  rewrite !(replace_first _ _ _ _ _ Hfirst) in Hsame.
  apply append_cancel_l, append_cancel_r in Hsame.
  destruct (proj1 (List.Forall_forall _ _) Hdates' other Hother) as [days' ->].
  assert (Hapart : addDays (earliestMoment now eventSchedule) days'
                   = addDays (addDays (earliestMoment now eventSchedule) days)
                       (days' - days))
    by (unfold addDays; lia).
  rewrite Hapart in Hsame. apply Hinj in Hsame.
  apply Hnotin. replace days' with days in Hother by lia. exact Hother.
Qed.

Lemma sampleFormatUtc_read_back (m : Z) :
  option_map Z.of_int (NilZero.int_of_string (sampleFormatUtc m)) = Some m.
Proof.
  unfold sampleFormatUtc. pose proof (DecimalZ.of_to m) as Hm.
  destruct (Z.to_int m) as [[| | | | | | | | | |]|[| | | | | | | | | |]] eqn:E;
    try (rewrite NilZero.isi by discriminate; unfold option_map; f_equal; exact Hm).
  - rewrite NilZero.isi_posnil. simpl option_map. f_equal. rewrite <- Hm. reflexivity.
  - rewrite NilZero.isi_negnil. simpl option_map. f_equal. rewrite <- Hm. reflexivity.
Qed.

Lemma sampleFormatUtc_injective (a b : Z) :
  sampleFormatUtc a = sampleFormatUtc b -> a = b.
Proof.
  intros H. pose proof (sampleFormatUtc_read_back a) as Ha.
  rewrite H, sampleFormatUtc_read_back in Ha. now injection Ha.
Qed.

Lemma formatUtcToTheSecond_days_apart (m n : Z) :
  formatUtcToTheSecond (addDays m n) = formatUtcToTheSecond m -> n = 0.
Proof.
  unfold formatUtcToTheSecond, addDays, DAY. intros H.
  apply sampleFormatUtc_injective in H.
  replace (m + n * 86400000) with (m + n * 86400 * 1000) in H by lia.
  rewrite Z.div_add in H by lia. lia.
Qed.

Lemma generated_session_ids_distinct_witness :
  List.NoDup
    (map (prop "id")
       (fst (generatedScheduledSessions formatUtcToTheSecond sampleFormatEnd 30 sampleNow
               mondayWednesday))).
Proof.
  apply (generated_session_ids_distinct formatUtcToTheSecond sampleFormatEnd 30 sampleNow
           mondayWednesday "evt-" "" eq_refl formatUtcToTheSecond_days_apart
           evt_template_first).
  vm_compute. repeat constructor; simpl; intuition discriminate.
Defined.

(** ** getFirehosePage: which pages are accepted *)

Lemma findIndexFrom_positive {A : Type} (p : A -> bool) (l : list A) (i : Z) :
  0 < i ->
  ((findIndexFrom p l i >? 0) = false <-> Forall (fun x => p x = false) l).
Proof.
  revert i. induction l as [|x l IH]; intros i Hi; simpl.
  - split; [constructor | reflexivity].
  - destruct (p x) eqn:Ex.
    + split.
      * intros H. rewrite Z.gtb_ltb in H. apply Z.ltb_ge in H. lia.
      * intros H. inversion H; congruence.
    + rewrite IH by lia. split; [now constructor | intros H; now inversion H].
Qed.

(** X8. [getFirehosePage] returns a page exactly when the status is one of
    200 to 299, [next] is a non-empty string, [items] is an array and either
    its first item is invalid or none of the items after the first is: when
    the first item is invalid, the others are let through unchecked.  The
    page returned carries that [next] and those [items]. *)
Theorem getFirehosePage_accepts_iff (pageUrl : string) (rpdePage : AxiosResponse)
    (page : FirehosePage) :
  getFirehosePage pageUrl rpdePage = Ok page
  <-> 200 <= status rpdePage < 300
      /\ prop "next" (data rpdePage) = VStr (nextNextUrl page)
      /\ nextNextUrl page <> ""
      /\ prop "items" (data rpdePage) = VArr (items page)
      /\ match items page with
         | [] => True
         | first :: rest =>
             isInvalidItem first = true
             \/ Forall (fun item => isInvalidItem item = false) rest
         end.
Proof.
  destruct page as [next pageItems]. simpl. unfold getFirehosePage.
  destruct (validateStatus (status rpdePage)) eqn:Ev; simpl.
  2: { split; [discriminate|]. intros [H _].
       destruct (validateStatus_2xx _ H) as [Hv _]. congruence. }
  destruct (status rpdePage =? 404) eqn:Es.
  { apply Z.eqb_eq in Es. split; [discriminate | intros [H _]; lia]. }
  assert (Hstatus : 200 <= status rpdePage < 300).
  { unfold validateStatus in Ev. rewrite Es, orb_false_r in Ev.
    apply andb_true_iff in Ev as [Hlo Hhi].
    apply Z.leb_le in Hlo. apply Z.ltb_lt in Hhi. lia. }
  clear Ev Es.
  assert (Hprop : prop "next" (data rpdePage) <> VUndefined ->
                  propOf (data rpdePage) "next" = Ok (prop "next" (data rpdePage))).
  { destruct (data rpdePage); simpl; congruence. }
  destruct (prop "next" (data rpdePage)) as [| | | |[|c s]| |] eqn:En;
    try (rewrite Hprop by discriminate).
  all: try (split; [discriminate | intros (_ & H & _); discriminate]).
  - destruct (data rpdePage); simpl in *;
      try (split; [discriminate | intros (_ & H & _); discriminate]).
    rewrite En. split; [discriminate | intros (_ & H & _); discriminate].
  - split; [discriminate | intros (_ & H & Hne & _); injection H as <-; contradiction].
  - destruct (prop "items" (data rpdePage)) as [| | | | |its|] eqn:Ei;
      try (split; [discriminate | intros (_ & _ & _ & H & _); discriminate]).
    assert (Hidx : (findIndex isInvalidItem its >? 0) = false
                   <-> match its with
                       | [] => True
                       | first :: rest =>
                           isInvalidItem first = true
                           \/ Forall (fun item => isInvalidItem item = false) rest
                       end).
    { unfold findIndex. destruct its as [|first rest]; simpl.
      - split; [intros _; exact I | intros _; reflexivity].
      - destruct (isInvalidItem first) eqn:Ef.
        + split; [intros _; now left | intros _; reflexivity].
        + rewrite findIndexFrom_positive by lia. split; [intros H; now right|].
          intros [H|H]; [discriminate | exact H]. }
    destruct (findIndex isInvalidItem its >? 0) eqn:Egt.
    + split; [discriminate|]. intros (_ & Hn & _ & Hi & Hok).
      injection Hi as <-. apply Hidx in Hok. discriminate.
    + split.
      * intros H. injection H as <- <-.
        split; [exact Hstatus|]. split; [reflexivity|]. split; [discriminate|].
        split; [reflexivity|]. now apply Hidx.
      * intros (_ & Hn & _ & Hi & _). injection Hn as <-. injection Hi as <-. reflexivity.
Qed.

(** ** The segmenter: what it selects *)

Lemma truthy_jsOr (a b : JsVal) : truthy (jsOr a b) = truthy a || truthy b.
Proof. unfold jsOr. destruct (truthy a) eqn:E; [exact E | reflexivity]. Qed.

Lemma hasPhysicalLocationGeo_spec (item : JsVal) :
  hasPhysicalLocationGeo item = truthy (physicalLocationGeoOf item).
Proof. unfold hasPhysicalLocationGeo, physicalLocationGeoOf. now rewrite truthy_jsOr. Qed.

Lemma unspecified_mode_is_offline (item : JsVal) :
  truthy (prop "eventAttendanceMode" item) = false ->
  doesEventSupportOffline item = true /\ doesEventSupportOnline item = false.
Proof.
  intros H. unfold doesEventSupportOffline, doesEventSupportOnline,
    getEventsEventAttendanceMode, jsOr. rewrite H. split; reflexivity.
Qed.

(** X9. An item that supports offline attendance, which is the case when
    its attendance mode is not given, and that has no geo is assigned to no
    segment at all, whatever the segments are. *)
Theorem offline_item_without_geo_is_unplaced (getDistance : JsVal * JsVal -> Q * Q -> Q)
    (item : JsVal) (segments : list Segment) :
  hasPhysicalLocationGeo item = false ->
  truthy (prop "eventAttendanceMode" item) = false
  \/ doesEventSupportOffline item = true ->
  generateSegmentIdentifiersForMergedScheduledSession getDistance item segments = Ok [].
Proof.
  intros Hgeo Hmode.
  assert (Hoff : doesEventSupportOffline item = true).
  { destruct Hmode as [H|H]; [now apply unspecified_mode_is_offline | exact H]. }
  rewrite hasPhysicalLocationGeo_spec in Hgeo.
  unfold generateSegmentIdentifiersForMergedScheduledSession.
  fold (physicalLocationGeoOf item). now rewrite Hgeo, Hoff.
Qed.

Lemma offline_item_without_geo_is_unplaced_witness :
  generateSegmentIdentifiersForMergedScheduledSession sampleGetDistance unplacedSession
    [physicalSegment; virtualSegment; wholeWorld] = Ok [].
Proof.
  apply (offline_item_without_geo_is_unplaced sampleGetDistance unplacedSession).
  - reflexivity.
  - left. reflexivity.
Defined.

Lemma filterThrowing_sublist {A : Type} (p : A -> result bool) (l kept : list A) :
  filterThrowing p l = Ok kept -> sublist kept l.
Proof.
  revert kept. induction l as [|a l IH]; intros kept H; simpl in H.
  - injection H as <-. constructor.
  - destruct (p a) as [b| |]; try discriminate.
    destruct (filterThrowing p l) as [kept'| |]; try discriminate.
    injection H as <-. destruct b; [apply sublist_skip | apply sublist_cons]; now apply IH.
Qed.

Lemma filter_sublist {A : Type} (p : A -> bool) (l : list A) : sublist (List.filter p l) l.
Proof.
  induction l as [|a l IH]; simpl; [constructor|].
  destruct (p a); [now apply sublist_skip | now apply sublist_cons].
Qed.

Lemma map_sublist {A B : Type} (f : A -> B) (l1 l2 : list A) :
  sublist l1 l2 -> sublist (map f l1) (map f l2).
Proof. induction 1; simpl; [constructor | now apply sublist_skip | now apply sublist_cons]. Qed.

(** X10. The identifiers that the segmenter returns are identifiers of the
    configured segments, in the order of the configuration: the result is a
    sublist of the configured identifiers. *)
Theorem assigned_identifiers_in_configured_order
    (getDistance : JsVal * JsVal -> Q * Q -> Q) (item : JsVal) (segments : list Segment)
    (ids : list string) :
  generateSegmentIdentifiersForMergedScheduledSession getDistance item segments = Ok ids ->
  sublist ids (map identifier segments).
Proof.
  unfold generateSegmentIdentifiersForMergedScheduledSession. intros H.
  destruct (negb _ && _).
  - injection H as <-. apply sublist_nil_l.
  - destruct (filterThrowing _ segments) as [matching| |] eqn:Ef; try discriminate.
    injection H as <-. apply map_sublist.
    etransitivity; [apply filter_sublist | now apply filterThrowing_sublist in Ef].
Qed.

Lemma assigned_identifiers_in_configured_order_witness :
  sublist ["online"; "everywhere"]
          (map identifier [physicalSegment; virtualSegment; wholeWorld]).
Proof.
  apply (assigned_identifiers_in_configured_order sampleGetDistance onlineSession).
  reflexivity.
Defined.

Lemma filterThrowing_recognised (item : JsVal) (segments : list Segment) :
  Forall (fun s => In (attendanceModeFilter s) ["all"; "physical-only"; "virtual-only"])
         segments ->
  filterThrowing (attendanceModeMatches (doesEventSupportOnline item)
                    (doesEventSupportOffline item)) segments
  = Ok (List.filter
          (fun s =>
             String.eqb (attendanceModeFilter s) "all"
             || (String.eqb (attendanceModeFilter s) "physical-only"
                 && doesEventSupportOffline item)
             || (String.eqb (attendanceModeFilter s) "virtual-only"
                 && doesEventSupportOnline item))
          segments).
Proof.
  induction 1 as [|s segments Hs _ IH]; simpl; [reflexivity|].
  rewrite IH. unfold attendanceModeMatches.
  simpl in Hs. destruct Hs as [<-|[<-|[<-|[]]]]; simpl;
    now destruct (doesEventSupportOffline item), (doesEventSupportOnline item).
Qed.

(** X11. An online-only item without geo is assigned to every configured
    segment whose filter is not ['physical-only'], however far the segment
    is: no distance is computed for it. *)
Theorem online_item_without_geo_is_everywhere
    (getDistance : JsVal * JsVal -> Q * Q -> Q) (item : JsVal) (segments : list Segment) :
  prop "eventAttendanceMode" item = VStr ONLINE ->
  hasPhysicalLocationGeo item = false ->
  Forall (fun s => In (attendanceModeFilter s) ["all"; "physical-only"; "virtual-only"])
         segments ->
  generateSegmentIdentifiersForMergedScheduledSession getDistance item segments
  = Ok (map identifier
          (List.filter (fun s => negb (String.eqb (attendanceModeFilter s) "physical-only"))
                       segments)).
Proof.
  intros Hmode Hgeo Hknown.
  destruct (online_only_does_not_support_offline item Hmode) as [Hoff Hon].
  rewrite hasPhysicalLocationGeo_spec in Hgeo.
  unfold generateSegmentIdentifiersForMergedScheduledSession.
  fold (physicalLocationGeoOf item).
  rewrite (filterThrowing_recognised item segments Hknown), Hgeo, Hoff, Hon. simpl.
  f_equal. f_equal. clear Hoff Hon Hgeo Hmode.
  induction Hknown as [|s segments Hs _ IH]; simpl; [reflexivity|].
  simpl in Hs. destruct Hs as [<-|[<-|[<-|[]]]]; simpl; now rewrite IH.
Qed.

Lemma online_item_without_geo_is_everywhere_witness :
  generateSegmentIdentifiersForMergedScheduledSession sampleGetDistance onlineSession
    [physicalSegment; virtualSegment; wholeWorld]
  = Ok ["online"; "everywhere"].
Proof.
  apply (online_item_without_geo_is_everywhere sampleGetDistance onlineSession
           [physicalSegment; virtualSegment; wholeWorld]).
  - reflexivity.
  - reflexivity.
  - repeat constructor; simpl; tauto.
Defined.

(** X12. Every identifier assigned to an item that has a geo belongs to a
    configured segment whose filter lets the item through and whose centre
    is within the segment's radius of that geo. *)
Theorem assigned_segments_admit_and_are_near
    (getDistance : JsVal * JsVal -> Q * Q -> Q) (item : JsVal) (segments : list Segment)
    (ids : list string) (id : string) :
  generateSegmentIdentifiersForMergedScheduledSession getDistance item segments = Ok ids ->
  hasPhysicalLocationGeo item = true ->
  In id ids ->
  exists segment,
    In segment segments /\ identifier segment = id
    /\ admits item segment
    /\ isWithinRadius getDistance (physicalLocationGeoOf item) segment = true.
Proof.
  intros Hgen Hgeo Hid. rewrite hasPhysicalLocationGeo_spec in Hgeo.
  unfold generateSegmentIdentifiersForMergedScheduledSession in Hgen.
  fold (physicalLocationGeoOf item) in Hgen. rewrite Hgeo in Hgen. simpl in Hgen.
  destruct (filterThrowing _ segments) as [matching| |] eqn:Ef; try discriminate.
  injection Hgen as <-. apply in_map_iff in Hid as (s & <- & Hs).
  apply filter_In in Hs as [Hs Hnear].
  destruct (filterThrowing_kept _ _ _ Ef s Hs) as [Hin Hp].
  exists s. repeat split; auto.
  unfold attendanceModeMatches in Hp. unfold admits.
  destruct (String.eqb_spec (attendanceModeFilter s) "all"); [now left|].
  destruct (String.eqb_spec (attendanceModeFilter s) "physical-only");
    [right; left; split; congruence|].
  destruct (String.eqb_spec (attendanceModeFilter s) "virtual-only");
    [right; right; split; congruence | discriminate].
Qed.

Lemma assigned_segments_admit_and_are_near_witness :
  exists segment,
    In segment [physicalSegment; virtualSegment; wholeWorld]
    /\ identifier segment = "leeds-in-person"
    /\ admits leedsSession segment
    /\ isWithinRadius sampleGetDistance (physicalLocationGeoOf leedsSession) segment = true.
Proof.
  apply (assigned_segments_admit_and_are_near sampleGetDistance leedsSession
           [physicalSegment; virtualSegment; wholeWorld] ["leeds-in-person"; "everywhere"]).
  - reflexivity.
  - reflexivity.
  - now left.
Defined.

(** ** The store: first writes, and what a write leaves alone *)

Section StoreEffects.

Variable hashString : string -> string.
Variable mergeToModel : JsVal -> JsVal -> JsVal.

Abbreviation writeToSegment := (writeScheduledSessionToSegment mergeToModel).
Abbreviation mergeAndWrite := (mergeScheduledSessionAndSessionSeriesAndWrite hashString mergeToModel).

(** One iteration on a segment that has no file for the session yet: the
    file and the model are written and the index gets its line. *)
Lemma writeToSegment_first (merged : JsVal) (id h seg : string) (st : Store) :
  truthy (default VNull (jsonFiles st !! getScheduledSessionFilePath seg h)) = false ->
  exists model,
    writeToSegment merged id h (VStr seg) st
    = (Ok tt,
       {| jsonFiles := <[getScheduledSessionFilePath seg "model" := model]>
                         (<[getScheduledSessionFilePath seg h := merged]> (jsonFiles st));
          textFiles := <[getSegmentIndexFilePath seg
                         := String.append (default "" (textFiles st !! getSegmentIndexFilePath seg))
                                          (indexLine h)]> (textFiles st);
          logged := logged st |}).
Proof.
  intros Hfile.
  unfold writeScheduledSessionToSegment, mergeIntoModelExample, bind, liftR, ret,
    readJsonNullIfNotExists, writeJson, appendFile. simpl.
  rewrite Hfile. simpl. eexists. reflexivity.
Qed.

Lemma forEach_segments_first (merged : JsVal) (id h seg : string) (segs : list string) :
  h <> "model" ->
  truthy merged = true ->
  strictEqStr (prop "id" merged) id = true ->
  In seg segs ->
  forall st,
    truthy (default VNull (jsonFiles st !! getScheduledSessionFilePath seg h)) = false ->
    exists st',
      forEach (map VStr segs) (writeToSegment merged id h) st = (Ok tt, st')
      /\ jsonFiles st' !! getScheduledSessionFilePath seg h = Some merged
      /\ textFiles st' !! getSegmentIndexFilePath seg
         = Some (String.append (default "" (textFiles st !! getSegmentIndexFilePath seg))
                               (indexLine h)).
Proof.
  intros Hh Hmerged Hmid. induction segs as [|seg' segs IH]; intros Hin st Hfile; [easy|].
  destruct (string_dec seg' seg) as [->|Hne].
  - destruct (writeToSegment_first merged id h seg st Hfile) as [model Hstep].
    match type of Hstep with _ = (_, ?s) => set (st1 := s) in * end.
    assert (Hfile1 : jsonFiles st1 !! getScheduledSessionFilePath seg h = Some merged).
    { subst st1. simpl. rewrite lookup_insert_ne.
      - apply lookup_insert_eq.
      - intros Heq. apply scheduledSessionFilePath_inj in Heq as [_ Heq]. congruence. }
    destruct (forEach_segments_same_id mergeToModel merged id h seg segs Hh Hmerged Hmid
                st1 merged Hfile1 Hmerged Hmid) as (st' & Hrun & Hwritten & Hkept & Hindex).
    exists st'. rewrite map_cons, (forEach_cons _ _ _ _ _ Hstep).
    split; [exact Hrun|]. split.
    + destruct (in_dec string_dec seg segs); auto.
    + rewrite Hindex. subst st1. simpl. apply lookup_insert_eq.
  - destruct (writeToSegment_frame mergeToModel merged id h seg' st)
      as (st1 & Hstep & Hfiles & Htexts & _).
    assert (Hin' : In seg segs) by (destruct Hin; [congruence | assumption]).
    destruct (IH Hin' st1) as (st' & Hrun & Hwritten & Hindex).
    { rewrite Hfiles; [exact Hfile | |];
        intros Heq; apply scheduledSessionFilePath_inj in Heq as [Heq _]; congruence. }
    exists st'. rewrite map_cons, (forEach_cons _ _ _ _ _ Hstep).
    split; [exact Hrun|]. split; [exact Hwritten|].
    rewrite Hindex, Htexts; [reflexivity|]. unfold getSegmentIndexFilePath. congruence.
Qed.

(** X13. A put of an occurrence into a segment that has no file for it yet
    writes the merged record there and adds the line of the file to the
    segment's index exactly once, even when the series lists the segment
    more than once. *)
Theorem first_put_writes_file_and_indexes_once
    (scheduledSessionData sessionSeries : JsVal) (id seg : string) (segs : list string)
    (st : Store) :
  getField "id" (mergeScheduledSessionAndSessionSeries scheduledSessionData sessionSeries)
  = Some (VStr id) ->
  prop "imin:segment" sessionSeries = VArr (map VStr segs) ->
  In seg segs ->
  hashString id <> "model" ->
  truthy (default VNull (jsonFiles st !! getScheduledSessionFilePath seg (hashString id)))
  = false ->
  exists st',
    mergeAndWrite scheduledSessionData sessionSeries st = (Ok tt, st')
    /\ jsonFiles st' !! getScheduledSessionFilePath seg (hashString id)
       = Some (writtenScheduledSession hashString scheduledSessionData sessionSeries id)
    /\ textFiles st' !! getSegmentIndexFilePath seg
       = Some (String.append (default "" (textFiles st !! getSegmentIndexFilePath seg))
                             (indexLine (hashString id))).
Proof.
  intros Hid Hsegs Hin Hh Hfile.
  destruct (writtenScheduledSession_id hashString scheduledSessionData sessionSeries id Hid)
    as [Hmt Hmid].
  destruct (forEach_segments_first _ id (hashString id) seg segs Hh Hmt Hmid Hin st Hfile)
    as (st' & Hrun & Hwritten & Hindex).
  exists st'. rewrite (mergeAndWrite_unfold hashString mergeToModel _ _ _ _ _ Hid Hsegs). auto.
Qed.

(** One iteration, whatever the store: what it may change. *)
Lemma writeToSegment_effect (merged : JsVal) (id h seg : string) (st : Store) :
  exists st',
    writeToSegment merged id h (VStr seg) st = (Ok tt, st')
    /\ (forall p, p <> getScheduledSessionFilePath seg h ->
                  p <> getScheduledSessionFilePath seg "model" ->
                  jsonFiles st' !! p = jsonFiles st !! p)
    /\ (forall q, q <> getSegmentIndexFilePath seg -> textFiles st' !! q = textFiles st !! q)
    /\ (exists extra, logged st' = (logged st ++ extra)%list
                      /\ Forall (fun entry => level entry = "warn") extra).
Proof.
  unfold writeScheduledSessionToSegment, mergeIntoModelExample, bind, liftR, ret,
    readJsonNullIfNotExists, writeJson, appendFile, log. simpl.
  destruct (truthy (default VNull (jsonFiles st !! getScheduledSessionFilePath seg h)));
    simpl.
  - destruct (negb _); simpl.
    + eexists. split; [reflexivity|]. simpl. repeat split; eauto.
    + eexists. split; [reflexivity|]. simpl. repeat split.
      * intros p Hp Hm. rewrite !lookup_insert_ne by congruence. reflexivity.
      * exists []. now rewrite app_nil_r.
  - eexists. split; [reflexivity|]. simpl. repeat split.
    + intros p Hp Hm. rewrite !lookup_insert_ne by congruence. reflexivity.
    + intros q Hq. rewrite lookup_insert_ne by congruence. reflexivity.
    + exists []. now rewrite app_nil_r.
Qed.

(** X14. A put of an occurrence always ends normally, and it is confined
    to the segments that the series lists: the only JSON files it may change
    are, in each listed segment, the file of the occurrence and the model;
    the only text files are the indexes of the listed segments; the log only
    grows, by warnings. *)
Theorem put_is_confined_to_listed_segments
    (scheduledSessionData sessionSeries : JsVal) (id : string) (segs : list string)
    (st : Store) :
  getField "id" (mergeScheduledSessionAndSessionSeries scheduledSessionData sessionSeries)
  = Some (VStr id) ->
  prop "imin:segment" sessionSeries = VArr (map VStr segs) ->
  exists st',
    mergeAndWrite scheduledSessionData sessionSeries st = (Ok tt, st')
    /\ (forall p,
          (forall seg, In seg segs ->
                       p <> getScheduledSessionFilePath seg (hashString id)
                       /\ p <> getScheduledSessionFilePath seg "model") ->
          jsonFiles st' !! p = jsonFiles st !! p)
    /\ (forall q,
          (forall seg, In seg segs -> q <> getSegmentIndexFilePath seg) ->
          textFiles st' !! q = textFiles st !! q)
    /\ (exists extra, logged st' = (logged st ++ extra)%list
                      /\ Forall (fun entry => level entry = "warn") extra).
Proof.
  intros Hid Hsegs. rewrite (mergeAndWrite_unfold hashString mergeToModel _ _ _ _ _ Hid Hsegs).
  clear Hid Hsegs.
  generalize (writtenScheduledSession hashString scheduledSessionData sessionSeries id).
  intros merged. revert st. induction segs as [|seg segs IH]; intros st.
  - exists st. simpl. repeat split; auto. exists []. split; [now rewrite app_nil_r | constructor].
  - destruct (writeToSegment_effect merged id (hashString id) seg st)
      as (st1 & Hstep & Hfiles & Htexts & extra1 & Hlog1 & Hwarn1).
    destruct (IH st1) as (st' & Hrun & Hfiles' & Htexts' & extra & Hlog & Hwarn).
    exists st'. rewrite map_cons, (forEach_cons _ _ _ _ _ Hstep).
    split; [exact Hrun|]. repeat split.
    + intros p Hp. rewrite Hfiles'.
      * apply Hfiles; apply (Hp seg); now left.
      * intros seg' Hin. apply Hp. now right.
    + intros q Hq. rewrite Htexts'.
      * apply Htexts. apply Hq. now left.
      * intros seg' Hin. apply Hq. now right.
    + exists (extra1 ++ extra)%list. split.
      * now rewrite Hlog, Hlog1, <- app_assoc.
      * apply Forall_app. split; assumption.
Qed.

End StoreEffects.

Lemma first_put_writes_file_and_indexes_once_witness :
  exists st',
    mergeScheduledSessionAndSessionSeriesAndWrite sampleHash sampleMergeToModel
      yogaSession (VObj (yogaSeries ++ [("imin:segment",
                                         VArr (map VStr ["everywhere"; "everywhere"]))]))
      emptyStore
    = (Ok tt, st')
    /\ jsonFiles st' !! getScheduledSessionFilePath "everywhere" (sampleHash "session-1")
       = Some (writtenScheduledSession sampleHash yogaSession
                 (VObj (yogaSeries ++ [("imin:segment",
                                        VArr (map VStr ["everywhere"; "everywhere"]))]))
                 "session-1")
    /\ textFiles st' !! getSegmentIndexFilePath "everywhere"
       = Some (String.append
                 (default "" (textFiles emptyStore !! getSegmentIndexFilePath "everywhere"))
                 (indexLine (sampleHash "session-1"))).
Proof.
  apply (first_put_writes_file_and_indexes_once sampleHash sampleMergeToModel yogaSession
           (VObj (yogaSeries ++ [("imin:segment",
                                  VArr (map VStr ["everywhere"; "everywhere"]))]))
           "session-1" "everywhere" ["everywhere"; "everywhere"] emptyStore).
  - reflexivity.
  - reflexivity.
  - now left.
  - discriminate.
  - reflexivity.
Defined.

Lemma put_is_confined_to_listed_segments_witness :
  exists st',
    mergeScheduledSessionAndSessionSeriesAndWrite sampleHash sampleMergeToModel
      yogaSession (VObj yogaSeries) storeWithYoga
    = (Ok tt, st')
    /\ (forall p,
          (forall seg, In seg ["everywhere"] ->
                       p <> getScheduledSessionFilePath seg (sampleHash "session-1")
                       /\ p <> getScheduledSessionFilePath seg "model") ->
          jsonFiles st' !! p = jsonFiles storeWithYoga !! p)
    /\ (forall q,
          (forall seg, In seg ["everywhere"] -> q <> getSegmentIndexFilePath seg) ->
          textFiles st' !! q = textFiles storeWithYoga !! q)
    /\ (exists extra, logged st' = (logged storeWithYoga ++ extra)%list
                      /\ Forall (fun entry => level entry = "warn") extra).
Proof.
  apply (put_is_confined_to_listed_segments sampleHash sampleMergeToModel yogaSession
           (VObj yogaSeries) "session-1" ["everywhere"] storeWithYoga).
  - reflexivity.
  - reflexivity.
Defined.

(** ** The processors: what is skipped, what is written *)

Section Processors.

Variable hashString : string -> string.
Variable mergeToModel : JsVal -> JsVal -> JsVal.
Variable getDistance : JsVal * JsVal -> Q * Q -> result Q.
Variable multiply : Q -> Q -> Q.
Variable formatUtc : Z -> string.
Variable parseHHmm : string -> option nat.
Variable parseYYYYMMDD : JsVal -> option Z.
Variable momentOf : JsVal -> option Z.

Abbreviation processSeries :=
  (processSessionSeriesItem hashString mergeToModel getDistance multiply formatUtc parseHHmm
     parseYYYYMMDD).
Abbreviation processSession := (processScheduledSessionItem hashString mergeToModel momentOf).

Lemma truthy_prop_object (k : string) (v : JsVal) :
  truthy (prop k v) = true -> exists fields, v = VObj fields.
Proof. destruct v; simpl; try discriminate. eauto. Qed.

Lemma propOf_object (fields : list (string * JsVal)) (k : string) :
  propOf (VObj fields) k = Ok (prop k (VObj fields)).
Proof. reflexivity. Qed.

(** The guards of [processScheduledSessionItems] that an item in the
    window passes. *)
Lemma processSession_in_window (now : Z) (item : JsVal) (st : Store) :
  strictEqStr (prop "state" item) "deleted" = false ->
  truthy (prop "id" item) = true ->
  truthy (prop "startDate" (prop "data" item)) = true ->
  match momentOf (prop "startDate" (prop "data" item)) with
  | Some start => now <= start <= addWeeks now WEEKS_IN_FUTURE_TIME_WINDOW
  | None => True
  end ->
  processSession now item st
  = (scheduledSessionSuperEventIdHash <-
       liftR (hashStringOf hashString (prop "superEvent" (prop "data" item))) ;;
     sessionSeries <-
       readJsonNullIfNotExists (getSessionSeriesFilePath scheduledSessionSuperEventIdHash) ;;
     if negb (truthy sessionSeries) then ret tt
     else if negb (match prop "superEvent" (prop "data" item) with
                   | VStr s => strictEqStr (prop "id" sessionSeries) s
                   | _ => false
                   end)
     then
       log "warn" (superEventClashWarning (prop "superEvent" (prop "data" item))
                     (prop "id" sessionSeries) scheduledSessionSuperEventIdHash)
     else mergeScheduledSessionAndSessionSeriesAndWrite hashString mergeToModel
            (prop "data" item) sessionSeries) st.
Proof.
  intros Hstate Hid Hstart Hwindow.
  destruct (truthy_prop_object _ _ Hid) as [fields ->].
  destruct (truthy_prop_object _ _ Hstart) as [dataFields Hdata].
  unfold processScheduledSessionItem.
  unfold bind at 1. unfold liftR at 1. rewrite propOf_object, Hstate, Hid. simpl negb. cbv iota.
  unfold bind at 1. unfold liftR at 1. rewrite Hdata, propOf_object, <- Hdata, Hstart.
  assert (Hnot : isBefore (momentOf (prop "startDate" (prop "data" (VObj fields)))) now
                 = false
                 /\ isAfter (momentOf (prop "startDate" (prop "data" (VObj fields))))
                      (addWeeks now WEEKS_IN_FUTURE_TIME_WINDOW) = false).
  { destruct (momentOf (prop "startDate" (prop "data" (VObj fields)))) as [start|];
      [|split; reflexivity].
    simpl. rewrite Z.gtb_ltb. split; apply Z.ltb_ge; lia. }
  destruct Hnot as [-> ->]. reflexivity.
Qed.

(** X15. A ScheduledSession of the feed within the window whose series has
    no file is skipped without a trace; when the file under the hash of its
    [superEvent] holds a series with another id, only a warning is
    logged. *)
Theorem session_without_stored_series_is_skipped (now : Z) (item : JsVal) (s : string)
    (st : Store) :
  strictEqStr (prop "state" item) "deleted" = false ->
  truthy (prop "id" item) = true ->
  truthy (prop "startDate" (prop "data" item)) = true ->
  match momentOf (prop "startDate" (prop "data" item)) with
  | Some start => now <= start <= addWeeks now WEEKS_IN_FUTURE_TIME_WINDOW
  | None => True
  end ->
  prop "superEvent" (prop "data" item) = VStr s ->
  (truthy (default VNull (jsonFiles st !! getSessionSeriesFilePath (hashString s))) = false ->
   processSession now item st = (Ok tt, st))
  /\ (forall series,
        jsonFiles st !! getSessionSeriesFilePath (hashString s) = Some series ->
        truthy series = true ->
        strictEqStr (prop "id" series) s = false ->
        processSession now item st
        = (Ok tt,
           withWarning st
             (superEventClashWarning (VStr s) (prop "id" series) (hashString s)))).
Proof.
  intros Hstate Hid Hstart Hwindow Hsuper.
  rewrite (processSession_in_window now item st Hstate Hid Hstart Hwindow), Hsuper.
  unfold bind, liftR, readJsonNullIfNotExists, ret, log. simpl. split.
  - intros Hnone. now rewrite Hnone.
  - intros series Hfile Htruthy Hdiff. rewrite Hfile. simpl. now rewrite Htruthy, Hdiff.
Qed.

(** X16. A ScheduledSession of the feed within the window whose
    [superEvent] is not a string makes the processor throw a [TypeError]:
    the items that follow it on the page are not processed. *)
Theorem session_without_series_reference_throws (now : Z) (item : JsVal)
    (rest : list JsVal) (st : Store) :
  strictEqStr (prop "state" item) "deleted" = false ->
  truthy (prop "id" item) = true ->
  truthy (prop "startDate" (prop "data" item)) = true ->
  match momentOf (prop "startDate" (prop "data" item)) with
  | Some start => now <= start <= addWeeks now WEEKS_IN_FUTURE_TIME_WINDOW
  | None => True
  end ->
  (forall s, prop "superEvent" (prop "data" item) <> VStr s) ->
  processScheduledSessionItems hashString mergeToModel momentOf now (item :: rest) st
  = (Throw TypeError, st).
Proof.
  intros Hstate Hid Hstart Hwindow Hsuper.
  unfold processScheduledSessionItems. simpl forEach. unfold bind at 1.
  rewrite (processSession_in_window now item st Hstate Hid Hstart Hwindow).
  unfold bind, liftR, hashStringOf.
  destruct (prop "superEvent" (prop "data" item)) as [| | | |s| |]; try reflexivity.
  now destruct (Hsuper s).
Qed.

Lemma processSeries_not_live (fuel : nat) (now : Z) (segments : list Segment)
    (fields : list (string * JsVal)) (st : Store) :
  isLive (VObj fields) = false ->
  processSeries fuel now segments (VObj fields) st = (Ok tt, st).
Proof.
  unfold isLive, processSessionSeriesItem, bind, liftR, ret. rewrite propOf_object.
  destruct (strictEqStr _ "deleted"); [reflexivity|]. simpl. now intros ->.
Qed.

Lemma processSession_not_live (now : Z) (fields : list (string * JsVal)) (st : Store) :
  isLive (VObj fields) = false ->
  processSession now (VObj fields) st = (Ok tt, st).
Proof.
  unfold isLive, processScheduledSessionItem, bind, liftR, ret. rewrite propOf_object.
  destruct (strictEqStr _ "deleted"); [reflexivity|]. simpl. now intros ->.
Qed.

Lemma forEach_filter {A : Type} (keep : A -> bool) (body : A -> M unit) (l : list A) :
  (forall x st, In x l -> keep x = false -> body x st = (Ok tt, st)) ->
  forall st, forEach l body st = forEach (List.filter keep l) body st.
Proof.
  induction l as [|x l IH]; intros Hskip st; [reflexivity|].
  assert (IH' : forall st, forEach l body st = forEach (List.filter keep l) body st).
  { apply IH. intros y st' Hy. apply Hskip. now right. }
  simpl. destruct (keep x) eqn:Ek.
  - simpl. unfold bind. destruct (body x st) as [[[]| |] st1]; auto.
  - unfold bind. rewrite (Hskip x st (or_introl eq_refl) Ek). apply IH'.
Qed.

(** X17. Items in state ['deleted'] and items without an id have no effect
    at all: both processors treat a page as if these items were not on it.
    In particular nothing that an earlier item wrote is removed when the
    item is later delivered as deleted. *)
Theorem deleted_and_idless_items_are_ignored (fuel : nat) (now : Z)
    (segments : list Segment) (pageItems : list JsVal) (st : Store) :
  Forall (fun item => exists fields, item = VObj fields) pageItems ->
  processSessionSeriesItems hashString mergeToModel getDistance multiply formatUtc parseHHmm
    parseYYYYMMDD fuel now pageItems segments st
  = processSessionSeriesItems hashString mergeToModel getDistance multiply formatUtc parseHHmm
      parseYYYYMMDD fuel now (List.filter isLive pageItems) segments st
  /\ processScheduledSessionItems hashString mergeToModel momentOf now pageItems st
     = processScheduledSessionItems hashString mergeToModel momentOf now
         (List.filter isLive pageItems) st.
Proof.
  intros Hobjects. unfold processSessionSeriesItems, processScheduledSessionItems.
  split; apply forEach_filter; intros item st' Hin Hdead;
    destruct (proj1 (List.Forall_forall _ _) Hobjects item Hin) as [fields ->].
  - now apply processSeries_not_live.
  - now apply processSession_not_live.
Qed.

Lemma nonempty_match {A B : Type} (l : list A) (a b : B) :
  l <> [] -> match l with [] => a | _ :: _ => b end = b.
Proof. destruct l; [contradiction | reflexivity]. Qed.

Lemma prop_appended (k : string) (fields : list (string * JsVal)) (v : JsVal) :
  prop k (VObj (fields ++ [(k, v)])) = v.
Proof. unfold prop. rewrite getField_app. simpl. now rewrite String.eqb_refl. Qed.

Lemma prop_appended_ne (k k' : string) (fields : list (string * JsVal)) (v : JsVal) :
  k <> k' -> prop k (VObj (fields ++ [(k', v)])) = prop k (VObj fields).
Proof.
  intros Hne. unfold prop. rewrite getField_app. simpl.
  now destruct (String.eqb_spec k k').
Qed.

(** X18. A series item that is not deleted, has an id and a geo, is not
    presented as slots, whose distance to every segment geolib measures
    and finds at most [radius * 1000], as the script computes it, for at
    least one, and whose schedules are expanded, is written unless the file
    under its hash holds another id: the file then holds the item's data
    with [imin:segment] set to the identifiers of the segments that passed
    this test, in the order of the configuration and whatever their
    attendance filters are, and with [eventSchedule] set to the corrected
    schedules. *)
Theorem series_item_is_written_with_nearby_segments (fuel : nat) (now : Z)
    (segments near : list Segment) (item geo : JsVal) (id : string)
    (schedules corrected : list JsVal) (generated : list ScheduledSession) (st : Store) :
  strictEqStr (prop "state" item) "deleted" = false ->
  prop "id" item = VStr id -> id <> "" ->
  sessionSeriesPhysicalLocationGeo (prop "data" item) = Ok (Some geo) ->
  truthy (prop "beta:presentAsSlots" (prop "data" item)) = false ->
  truthy (jsAnd (prop "superEvent" (prop "data" item))
                (prop "beta:presentAsSlots" (prop "superEvent" (prop "data" item)))) = false ->
  filterThrowing (isSegmentNear getDistance multiply geo) segments = Ok near ->
  near <> [] ->
  prop "eventSchedule" (prop "data" item) = VArr schedules ->
  expandEventSchedules formatUtc parseHHmm parseYYYYMMDD fuel now schedules
  = Ok (corrected, generated) ->
  truthy (default VNull (jsonFiles st !! getSessionSeriesFilePath (hashString id))) = false
  \/ strictEqStr (prop "id" (default VNull
                               (jsonFiles st !! getSessionSeriesFilePath (hashString id))))
                 id = true ->
  exists st' written,
    processSeries fuel now segments item st = (Ok tt, st')
    /\ jsonFiles st' !! getSessionSeriesFilePath (hashString id) = Some written
    /\ prop "imin:segment" written = VArr (map VStr (map identifier near))
    /\ prop "eventSchedule" written = VArr corrected
    /\ forall k, k <> "imin:segment" -> k <> "eventSchedule" ->
                 prop k written = prop k (prop "data" item).
Proof.
  intros Hstate Hid Hne Hgeo Hslots Hsuper Hfilter Hnear Hschedules Hexpand Hfile.
  assert (Hitem : exists fields, item = VObj fields).
  { apply (truthy_prop_object "id"). rewrite Hid. simpl.
    destruct (String.eqb_spec id ""); [contradiction | reflexivity]. }
  destruct Hitem as [fields ->].
  assert (Hdata : exists dataFields, prop "data" (VObj fields) = VObj dataFields).
  { destruct (prop "data" (VObj fields)); try discriminate. eauto. }
  destruct Hdata as [dataFields Hdata].
  set (nearby := map identifier near).
  set (sessionSeriesData :=
         VObj (dataFields ++ [("imin:segment", VArr (map VStr nearby))])).
  set (written := VObj (ownEntries sessionSeriesData ++ [("eventSchedule", VArr corrected)])).
  assert (Hrun : processSeries fuel now segments (VObj fields) st
                 = writeSessionSeries hashString mergeToModel formatUtc (VStr id)
                     sessionSeriesData written generated st).
  { unfold processSessionSeriesItem.
    unfold bind at 1. unfold liftR at 1. rewrite propOf_object, Hstate, Hid.
    assert (truthy (VStr id) = true) as ->
      by (simpl; destruct (String.eqb_spec id ""); [contradiction | reflexivity]).
    simpl negb. cbv iota.
    unfold bind at 1. unfold liftR at 1. rewrite Hgeo, Hslots, Hsuper. simpl orb. cbv iota.
    unfold bind at 1. unfold liftR at 1. rewrite Hfilter.
    rewrite Hdata. cbn [ownEntries]. fold nearby. fold sessionSeriesData.
    rewrite (nonempty_match nearby)
      by (subst nearby; destruct near; [contradiction | discriminate]).
    assert (prop "eventSchedule" sessionSeriesData = VArr schedules) as ->.
    { unfold sessionSeriesData. rewrite prop_appended_ne by discriminate.
      now rewrite <- Hdata. }
    unfold bind at 1. unfold liftR at 1. rewrite Hexpand. reflexivity. }
  assert (Hsegs : prop "imin:segment" sessionSeriesData = VArr (map VStr nearby))
    by apply prop_appended.
  assert (Hwrite : exists st',
             writeSessionSeries hashString mergeToModel formatUtc (VStr id)
               sessionSeriesData written generated st = (Ok tt, st')
             /\ jsonFiles st' !! getSessionSeriesFilePath (hashString id) = Some written).
  { unfold writeSessionSeries, bind, liftR, readJsonNullIfNotExists, writeJson. simpl.
    assert (truthy (default VNull (jsonFiles st !! getSessionSeriesFilePath (hashString id)))
            && negb (strictEqStr
                       (prop "id" (default VNull
                                     (jsonFiles st !! getSessionSeriesFilePath (hashString id))))
                       id) = false) as ->.
    { destruct Hfile as [-> | ->]; [reflexivity | apply andb_false_r]. }
    match goal with |- context [forEach _ _ ?s] => set (st1 := s) end.
    destruct (forEach_generated_frame hashString mergeToModel formatUtc sessionSeriesData
                nearby generated Hsegs st1) as (st' & Hrun' & Hkeep).
    exists st'. split; [exact Hrun'|]. rewrite Hkeep. subst st1. simpl.
    apply lookup_insert_eq. }
  destruct Hwrite as (st' & Hwrite & Hwritten).
  exists st', written. rewrite Hrun. split; [exact Hwrite|]. split; [exact Hwritten|].
  split; [|split].
  - unfold written. rewrite prop_appended_ne by discriminate. exact Hsegs.
  - apply prop_appended.
  - intros k Hk1 Hk2. unfold written. rewrite prop_appended_ne by exact Hk2.
    cbn [ownEntries sessionSeriesData]. rewrite prop_appended_ne by exact Hk1.
    now rewrite Hdata.
Qed.

(** X19. Every schedule kept on a written series either has type
    ['Schedule'] and passes the minimal schema, or has been given the type
    ['PartialSchedule']; entries of another type are left out, so that as
    many schedules are kept as the series has of type ['Schedule']. *)
Theorem corrected_schedules_are_valid_or_partial (fuel : nat) (now : Z)
    (schedules corrected : list JsVal) (generated : list ScheduledSession) :
  expandEventSchedules formatUtc parseHHmm parseYYYYMMDD fuel now schedules
  = Ok (corrected, generated) ->
  Forall (fun schedule =>
            (prop "type" schedule = VStr SCHEDULE_TYPE
             /\ validateMinimalEventSchedule parseHHmm parseYYYYMMDD schedule <> None)
            \/ prop "type" schedule = VStr "PartialSchedule")
         corrected
  /\ length corrected
     = length (List.filter (fun schedule => strictEqStr (prop "type" schedule) SCHEDULE_TYPE)
                           schedules).
Proof.
  revert corrected generated.
  induction schedules as [|schedule schedules IH]; intros corrected generated H; simpl in H.
  - injection H as <- <-. split; [constructor | reflexivity].
  - destruct (propOf schedule "type") as [type| |] eqn:Etype; try discriminate.
    assert (type = prop "type" schedule) as ->.
    { unfold propOf in Etype. destruct schedule; try discriminate; now injection Etype. }
    simpl List.filter.
    destruct (strictEqStr (prop "type" schedule) SCHEDULE_TYPE) eqn:Eschedule; simpl in H.
    + assert (Htype : prop "type" schedule = VStr SCHEDULE_TYPE).
      { destruct (prop "type" schedule); try discriminate.
        simpl in Eschedule. apply String.eqb_eq in Eschedule. now subst. }
      destruct (validateMinimalEventSchedule parseHHmm parseYYYYMMDD schedule)
        as [valid|] eqn:Evalid.
      * destruct (momentsAreValid valid); [|discriminate].
        destruct (spreadGeneratedDates formatUtc fuel now valid); try discriminate.
        destruct (expandEventSchedules formatUtc parseHHmm parseYYYYMMDD fuel now schedules)
          as [[c g]| |]; try discriminate.
        injection H as <- <-. destruct (IH c g eq_refl) as [Hall Hlen]. split.
        -- constructor; [|exact Hall]. left. split; [exact Htype | congruence].
        -- simpl. now rewrite Hlen.
      * destruct (expandEventSchedules formatUtc parseHHmm parseYYYYMMDD fuel now schedules)
          as [[c g]| |]; try discriminate.
        injection H as <- <-. destruct (IH c g eq_refl) as [Hall Hlen]. split.
        -- constructor; [|exact Hall]. right. apply prop_appended.
        -- simpl. now rewrite Hlen.
    + now apply IH in H.
Qed.

End Processors.

Lemma session_without_stored_series_is_skipped_witness :
  processScheduledSessionItem sampleHash sampleMergeToModel sampleMomentOf sampleNow
    feedSession emptyStore
  = (Ok tt, emptyStore).
Proof.
  refine (proj1 (session_without_stored_series_is_skipped sampleHash sampleMergeToModel
                   sampleMomentOf sampleNow feedSession "series-1" emptyStore
                   _ _ _ _ _) _).
  - reflexivity.
  - reflexivity.
  - reflexivity.
  - vm_compute. split; discriminate.
  - reflexivity.
  - reflexivity.
Defined.

Lemma session_without_series_reference_throws_witness :
  processScheduledSessionItems sampleHash sampleMergeToModel sampleMomentOf sampleNow
    [sessionWithoutSeries; feedSession] storeWithYoga
  = (Throw TypeError, storeWithYoga).
Proof.
  apply (session_without_series_reference_throws sampleHash sampleMergeToModel
           sampleMomentOf sampleNow sessionWithoutSeries [feedSession] storeWithYoga).
  - reflexivity.
  - reflexivity.
  - reflexivity.
  - vm_compute. split; discriminate.
  - intros s. discriminate.
Defined.

Lemma deleted_and_idless_items_are_ignored_witness :
  processSessionSeriesItems sampleHash sampleMergeToModel roughDistance exactProduct sampleFormatUtc
    sampleParseHHmm sampleParseYYYYMMDD 100 sampleNow [deletedItem; renamedYogaItem]
    [wholeWorld] storeWithYoga
  = processSessionSeriesItems sampleHash sampleMergeToModel roughDistance exactProduct
      sampleFormatUtc sampleParseHHmm sampleParseYYYYMMDD 100 sampleNow
      (List.filter isLive [deletedItem; renamedYogaItem]) [wholeWorld] storeWithYoga.
Proof.
  refine (proj1 (deleted_and_idless_items_are_ignored sampleHash sampleMergeToModel
                   roughDistance exactProduct sampleFormatUtc sampleParseHHmm
                   sampleParseYYYYMMDD
                   sampleMomentOf 100 sampleNow [wholeWorld] [deletedItem; renamedYogaItem]
                   storeWithYoga _)).
  repeat constructor; eexists; reflexivity.
Defined.

Lemma series_item_is_written_with_nearby_segments_witness :
  exists st' written,
    processSessionSeriesItem sampleHash sampleMergeToModel roughDistance exactProduct
      sampleFormatUtc sampleParseHHmm sampleParseYYYYMMDD 100 sampleNow [physicalSegment; wholeWorld]
      (VObj [("id", VStr "series-1"); ("state", VStr "updated");
             ("data", VObj [("id", VStr "series-1"); ("name", VStr "Yoga for all");
                            ("location", VObj [("geo", leedsGeo)]);
                            ("eventSchedule", VArr [scheduleWithoutStartTime])])])
      storeWithYoga
    = (Ok tt, st')
    /\ jsonFiles st' !! getSessionSeriesFilePath (sampleHash "series-1") = Some written
    /\ prop "imin:segment" written
       = VArr (map VStr (map identifier [physicalSegment; wholeWorld]))
    /\ prop "eventSchedule" written
       = VArr [VObj (ownEntries scheduleWithoutStartTime
                     ++ [("type", VStr "PartialSchedule")])]
    /\ forall k, k <> "imin:segment" -> k <> "eventSchedule" ->
                 prop k written
                 = prop k (VObj [("id", VStr "series-1"); ("name", VStr "Yoga for all");
                                 ("location", VObj [("geo", leedsGeo)]);
                                 ("eventSchedule", VArr [scheduleWithoutStartTime])]).
Proof.
  apply (series_item_is_written_with_nearby_segments sampleHash sampleMergeToModel
           roughDistance exactProduct sampleFormatUtc sampleParseHHmm sampleParseYYYYMMDD
           100 sampleNow [physicalSegment; wholeWorld] [physicalSegment; wholeWorld]
           (VObj [("id", VStr "series-1"); ("state", VStr "updated");
                  ("data", VObj [("id", VStr "series-1"); ("name", VStr "Yoga for all");
                                 ("location", VObj [("geo", leedsGeo)]);
                                 ("eventSchedule", VArr [scheduleWithoutStartTime])])])
           leedsGeo "series-1" [scheduleWithoutStartTime]
           [VObj (ownEntries scheduleWithoutStartTime ++ [("type", VStr "PartialSchedule")])]
           [] storeWithYoga).
  - reflexivity.
  - reflexivity.
  - discriminate.
  - reflexivity.
  - reflexivity.
  - reflexivity.
  - vm_compute. reflexivity.
  - discriminate.
  - reflexivity.
  - reflexivity.
  - right. reflexivity.
Defined.

Lemma corrected_schedules_are_valid_or_partial_witness :
  Forall (fun schedule =>
            (prop "type" schedule = VStr SCHEDULE_TYPE
             /\ validateMinimalEventSchedule sampleParseHHmm sampleParseYYYYMMDD schedule
                <> None)
            \/ prop "type" schedule = VStr "PartialSchedule")
         [mondayTwice;
          VObj (ownEntries scheduleWithoutStartTime ++ [("type", VStr "PartialSchedule")])]
  /\ length [mondayTwice;
             VObj (ownEntries scheduleWithoutStartTime ++ [("type", VStr "PartialSchedule")])]
     = length (List.filter
                 (fun schedule => strictEqStr (prop "type" schedule) SCHEDULE_TYPE)
                 [mondayTwice; VObj [("type", VStr "Event")]; scheduleWithoutStartTime]).
Proof.
  apply (corrected_schedules_are_valid_or_partial sampleFormatUtc sampleParseHHmm
           sampleParseYYYYMMDD 100 sampleNow
           [mondayTwice; VObj [("type", VStr "Event")]; scheduleWithoutStartTime]
           [mondayTwice;
            VObj (ownEntries scheduleWithoutStartTime ++ [("type", VStr "PartialSchedule")])]
           (fst (generateDatesWithinTimeWindow sampleFormatUtc 100 sampleNow
                   {| byDay := Some ["https://schema.org/Monday"; "Monday"];
                      startTime := 1080%nat; endTime := Some 1140%nat;
                      startDate := None; endDate := None;
                      duration := VUndefined; idTemplate := "evt-{startDate}";
                      startTimeIsValid := true; startDateIsValid := true;
                      endDateIsValid := true |}))).
  vm_compute. reflexivity.
Defined.

(** ** The walk of a feed *)

Lemma forEach_app {A : Type} (l1 l2 : list A) (body : A -> M unit) (st : Store) :
  forEach (l1 ++ l2) body st = (forEach l1 body ;;; forEach l2 body) st.
Proof.
  revert st. induction l1 as [|x l1 IH]; intros st; [reflexivity|].
  simpl. unfold bind. destruct (body x st) as [[[]| |] st1]; [|reflexivity..].
  rewrite IH. reflexivity.
Qed.

Lemma walk_from_processes_the_pages
    (fetch : nat -> string -> M (option FirehosePage))
    (body : list Segment -> JsVal -> M unit) (segments : list Segment)
    (pages : list FirehosePage) :
  forall (fuel n : nat) (url : string) (st : Store),
    FeedFrom url pages ->
    Served fetch n url pages ->
    (length pages <= fuel)%nat ->
    downloadFirehosePageAndProcessFrom fetch fuel n url
      (fun pageItems segs => forEach pageItems (body segs)) segments st
    = (forEach (concat (map items pages)) (body segments) ;;; ret EndOfFeed) st.
Proof.
  induction pages as [|page rest IH]; intros fuel n url st Hfeed Hserved Hfuel; [easy|].
  destruct fuel as [|fuel]; [simpl in Hfuel; lia|].
  destruct Hserved as [Hpage Hrest].
  cbn [downloadFirehosePageAndProcessFrom map concat].
  unfold bind at 1. rewrite Hpage.
  unfold bind. rewrite forEach_app. unfold bind.
  destruct (forEach (items page) (body segments) st) as [[[]| |] st1]; [|reflexivity..].
  destruct rest as [|page' rest].
  - simpl in Hfeed. rewrite Hfeed, String.eqb_refl. reflexivity.
  - destruct Hfeed as [Hnext Hfeed].
    destruct (String.eqb_spec (nextNextUrl page) url) as [|_]; [contradiction|].
    rewrite (IH fuel (S n) (nextNextUrl page) st1 Hfeed Hrest) by (simpl in *; lia).
    reflexivity.
Qed.

(** X20. Paging is transparent.  When the requests of a walk are answered
    with the pages of a feed that ends, each page naming the next and the
    last one itself, the walk ends at the end of the feed, and what it does
    to the store is what one pass of the processor over all the items of
    all the pages, in their order, does. *)
Theorem walk_processes_the_pages_in_order
    (fetch : nat -> string -> M (option FirehosePage))
    (body : list Segment -> JsVal -> M unit) (segments : list Segment)
    (pages : list FirehosePage) (fuel : nat) (url : string) (st : Store) :
  FeedFrom url pages ->
  Served fetch 0 url pages ->
  (length pages <= fuel)%nat ->
  downloadFirehosePageAndProcess fetch fuel url
    (fun pageItems segs => forEach pageItems (body segs)) segments st
  = (forEach (concat (map items pages)) (body segments) ;;; ret EndOfFeed) st.
Proof. apply walk_from_processes_the_pages. Qed.

Lemma walk_processes_the_pages_in_order_witness :
  downloadFirehosePageAndProcess serveTwoPages 5 "https://firehose/session-series"
    (fun pageItems segs =>
       forEach pageItems
         (processSessionSeriesItem sampleHash sampleMergeToModel roughDistance exactProduct
            sampleFormatUtc sampleParseHHmm sampleParseYYYYMMDD 100 sampleNow segs))
    [wholeWorld] emptyStore
  = (forEach (concat (map items twoPages))
       (processSessionSeriesItem sampleHash sampleMergeToModel roughDistance exactProduct
          sampleFormatUtc sampleParseHHmm sampleParseYYYYMMDD 100 sampleNow [wholeWorld])
     ;;; ret EndOfFeed) emptyStore.
Proof.
  apply (walk_processes_the_pages_in_order serveTwoPages
           (fun segs =>
              processSessionSeriesItem sampleHash sampleMergeToModel roughDistance exactProduct
                sampleFormatUtc sampleParseHHmm sampleParseYYYYMMDD 100 sampleNow segs)
           [wholeWorld] twoPages 5 "https://firehose/session-series" emptyStore).
  - simpl. split; [discriminate | reflexivity].
  - simpl. repeat split.
  - simpl. lia.
Defined.

(** X21. The walk stops only at a page that names its own URL as [next]:
    while pages are served that name another URL, two pages that name each
    other for instance, and their items are processed without an
    exception, the walk never ends. *)
Theorem walk_never_ends_without_a_last_page
    (fetch : nat -> string -> M (option FirehosePage))
    (processItemsFn : list JsVal -> list Segment -> M unit) (segments : list Segment) :
  (forall n url st,
      exists page st' st'',
        fetch n url st = (Ok (Some page), st')
        /\ nextNextUrl page <> url
        /\ processItemsFn (items page) segments st' = (Ok tt, st'')) ->
  forall (fuel : nat) (url : string) (st : Store),
    fst (downloadFirehosePageAndProcess fetch fuel url processItemsFn segments st) = Diverge.
Proof.
  intros Hfetch fuel url. unfold downloadFirehosePageAndProcess. generalize 0%nat.
  revert url. induction fuel as [|fuel IH]; intros url n st; [reflexivity|].
  destruct (Hfetch n url st) as (page & st1 & st2 & Hpage & Hnext & Hitems).
  cbn [downloadFirehosePageAndProcessFrom]. unfold bind at 1. rewrite Hpage.
  unfold bind at 1. rewrite Hitems.
  destruct (String.eqb_spec (nextNextUrl page) url) as [|_]; [contradiction|].
  apply IH.
Qed.

Lemma walk_never_ends_without_a_last_page_witness :
  fst (downloadFirehosePageAndProcess serveCycle 1000 "https://firehose/a"
         (fun pageItems _ =>
            processScheduledSessionItems sampleHash sampleMergeToModel sampleMomentOf
              sampleNow pageItems)
         [wholeWorld] emptyStore)
  = Diverge.
Proof.
  apply (walk_never_ends_without_a_last_page serveCycle
           (fun pageItems _ =>
              processScheduledSessionItems sampleHash sampleMergeToModel sampleMomentOf
                sampleNow pageItems)
           [wholeWorld]).
  intros n url st. eexists. exists st, st. split; [reflexivity|]. simpl.
  split; [|reflexivity].
  destruct (String.eqb_spec url "https://firehose/a") as [->|Hne];
    [discriminate | congruence].
Defined.

(** ** The model examples: arrays of strings *)

Lemma allStrings_strings (l : list string) : allStrings (map VStr l) = Some l.
Proof. induction l as [|x l IH]; simpl; [reflexivity | now rewrite IH]. Qed.

Lemma existsb_eqb_In (x : string) (seen : list string) :
  existsb (String.eqb x) seen = true <-> In x seen.
Proof.
  rewrite existsb_exists. split.
  - intros (y & Hy & Heq). apply String.eqb_eq in Heq. now subst.
  - intros H. exists x. split; [exact H | apply String.eqb_refl].
Qed.

(** What comes out of the set: the strings of [l] that are not in [seen],
    once each. *)
Lemma arrayFromSet_spec (l : list string) :
  forall seen,
    List.NoDup (arrayFromSet seen l)
    /\ (forall x, In x (arrayFromSet seen l) <-> In x l /\ ~ In x seen).
Proof.
  induction l as [|x l IH]; intros seen; simpl.
  - split; [constructor|]. simpl. tauto.
  - destruct (existsb (String.eqb x) seen) eqn:E.
    + apply existsb_eqb_In in E. destruct (IH seen) as [Hnd Hin].
      split; [exact Hnd|].
      intros y. rewrite Hin. split; [tauto|].
      intros [[<-|H] Hn]; [contradiction | tauto].
    + assert (Hx : ~ In x seen).
      { intros H. apply existsb_eqb_In in H. congruence. }
      destruct (IH (x :: seen)) as [Hnd Hin]. split.
      * constructor; [|exact Hnd]. intros H. apply Hin in H. simpl in H. tauto.
      * intros y. simpl. rewrite Hin. simpl. split.
        -- intros [<-|H]; tauto.
        -- intros [[<-|H] Hn]; [now left|].
           destruct (string_dec x y) as [->|Hne]; [now left | tauto].
Qed.

(** A list without duplicates comes out of the set as it went in. *)
Lemma arrayFromSet_NoDup_app (t rest : list string) :
  forall seen,
    List.NoDup t ->
    (forall x, In x t -> ~ In x seen) ->
    arrayFromSet seen (t ++ rest) = (t ++ arrayFromSet (rev t ++ seen) rest)%list.
Proof.
  induction t as [|x t IH]; intros seen Hnd Hfresh; [reflexivity|].
  inversion Hnd as [|? ? Hx Hnd']; subst. simpl.
  assert (existsb (String.eqb x) seen = false) as ->.
  { destruct (existsb (String.eqb x) seen) eqn:E; [|reflexivity].
    apply existsb_eqb_In in E. exfalso. apply (Hfresh x); [now left | exact E]. }
  f_equal. rewrite IH; auto.
  - f_equal. rewrite <- app_assoc. reflexivity.
  - intros y Hy [<-|Hs]; [contradiction|]. apply (Hfresh y); [now right | exact Hs].
Qed.

Lemma arrayFromSet_all_seen (s seen : list string) :
  (forall x, In x s -> In x seen) -> arrayFromSet seen s = [].
Proof.
  induction s as [|x s IH]; intros Hseen; [reflexivity|]. simpl.
  assert (existsb (String.eqb x) seen = true) as ->
    by (apply existsb_eqb_In, Hseen; now left).
  apply IH. intros y Hy. apply Hseen. now right.
Qed.

Lemma In_firstn {A : Type} (n : nat) (l : list A) (x : A) : In x (firstn n l) -> In x l.
Proof. intros H. rewrite <- (firstn_skipn n l). apply in_or_app. now left. Qed.

Lemma NoDup_firstn {A : Type} (n : nat) (l : list A) :
  List.NoDup l -> List.NoDup (firstn n l).
Proof. intros H. rewrite <- (firstn_skipn n l) in H. now apply NoDup_app_remove_r in H. Qed.

Lemma combineMerge_strings (mergeToModel : JsVal -> JsVal -> JsVal) (t s : list string) :
  combineMerge mergeToModel (VArr (map VStr t)) (VArr (map VStr s))
  = Ok (VArr (map VStr (firstn 10 (arrayFromSet [] (t ++ s))))).
Proof. unfold combineMerge. simpl. now rewrite !allStrings_strings. Qed.

(** X22. Two arrays of strings are merged into an array of strings that
    holds at most 10 entries, none of them twice, each from one of the two
    arrays; when the target holds no duplicates and at most 10 entries, the
    result begins with the target, and when at most 10 different strings
    occur in the two arrays, all of them are kept. *)
Theorem combineMerge_of_strings (mergeToModel : JsVal -> JsVal -> JsVal)
    (t s : list string) :
  exists r,
    combineMerge mergeToModel (VArr (map VStr t)) (VArr (map VStr s)) = Ok (VArr (map VStr r))
    /\ (length r <= 10)%nat
    /\ List.NoDup r
    /\ (forall x, In x r -> In x t \/ In x s)
    /\ (List.NoDup t -> (length t <= 10)%nat -> exists more, r = (t ++ more)%list)
    /\ ((forall u, List.NoDup u -> incl u (t ++ s) -> (length u <= 10)%nat) ->
        forall x, In x t \/ In x s -> In x r).
Proof.
  destruct (arrayFromSet_spec (t ++ s) []) as [Hnd Hin].
  exists (firstn 10 (arrayFromSet [] (t ++ s))).
  split; [apply combineMerge_strings|].
  split; [apply firstn_le_length|].
  split; [now apply NoDup_firstn|].
  split; [intros x Hx; apply in_app_or, Hin; now apply In_firstn in Hx|].
  split.
  - intros Hndt Hlen. rewrite arrayFromSet_NoDup_app by auto.
    exists (firstn (10 - length t) (arrayFromSet (rev t ++ []) s)).
    rewrite firstn_app. f_equal. now apply firstn_all2.
  - intros Hfew x Hx.
    assert (Hall : firstn 10 (arrayFromSet [] (t ++ s)) = arrayFromSet [] (t ++ s)).
    { apply firstn_all2, Hfew; [exact Hnd|]. intros y Hy. now apply Hin in Hy. }
    rewrite Hall. apply Hin. split; [now apply in_or_app | tauto].
Qed.

Lemma combineMerge_of_strings_witness :
  exists r,
    combineMerge sampleMergeToModel (VArr (map VStr ["Yoga"; "Pilates"]))
      (VArr (map VStr ["Pilates"; "Boxing"; "Yoga"]))
    = Ok (VArr (map VStr r))
    /\ (length r <= 10)%nat
    /\ List.NoDup r
    /\ (forall x, In x r -> In x ["Yoga"; "Pilates"] \/ In x ["Pilates"; "Boxing"; "Yoga"])
    /\ (List.NoDup ["Yoga"; "Pilates"] -> (length ["Yoga"; "Pilates"] <= 10)%nat ->
        exists more, r = (["Yoga"; "Pilates"] ++ more)%list)
    /\ ((forall u, List.NoDup u ->
                   incl u (["Yoga"; "Pilates"] ++ ["Pilates"; "Boxing"; "Yoga"]) ->
                   (length u <= 10)%nat) ->
        forall x, In x ["Yoga"; "Pilates"] \/ In x ["Pilates"; "Boxing"; "Yoga"] -> In x r).
Proof.
  exact (combineMerge_of_strings sampleMergeToModel ["Yoga"; "Pilates"]
           ["Pilates"; "Boxing"; "Yoga"]).
Defined.

(** X23. Merging the same array of strings once more changes nothing: the
    merge of the result of a merge with the source of that merge is that
    result again. *)
Theorem combineMerge_of_strings_is_absorbed (mergeToModel : JsVal -> JsVal -> JsVal)
    (t s : list string) (merged : JsVal) :
  combineMerge mergeToModel (VArr (map VStr t)) (VArr (map VStr s)) = Ok merged ->
  combineMerge mergeToModel merged (VArr (map VStr s)) = Ok merged.
Proof.
  rewrite combineMerge_strings. intros H. injection H as <-.
  destruct (arrayFromSet_spec (t ++ s) []) as [Hnd Hin].
  set (u := arrayFromSet [] (t ++ s)) in *.
  rewrite combineMerge_strings. f_equal. f_equal. f_equal.
  rewrite arrayFromSet_NoDup_app by (auto using NoDup_firstn).
  destruct (Nat.le_gt_cases (length u) 10) as [Hle|Hgt].
  - assert (Hall : firstn 10 u = u) by (apply firstn_all2; exact Hle).
    rewrite Hall, arrayFromSet_all_seen.
    + rewrite app_nil_r. exact Hall.
    + intros x Hx. apply in_or_app. left. apply in_rev. rewrite rev_involutive.
      apply Hin. split; [apply in_or_app; now right | tauto].
  - assert (Hlen : length (firstn 10 u) = 10%nat) by (rewrite length_firstn; lia).
    rewrite firstn_app, Hlen, Nat.sub_diag. simpl firstn at 2. rewrite app_nil_r.
    apply firstn_all2. lia.
Qed.

Lemma combineMerge_of_strings_is_absorbed_witness :
  combineMerge sampleMergeToModel (VArr (map VStr ["Yoga"; "Pilates"; "Boxing"]))
    (VArr (map VStr ["Pilates"; "Boxing"; "Yoga"]))
  = Ok (VArr (map VStr ["Yoga"; "Pilates"; "Boxing"])).
Proof.
  apply (combineMerge_of_strings_is_absorbed sampleMergeToModel ["Yoga"; "Pilates"]
           ["Pilates"; "Boxing"; "Yoga"]).
  reflexivity.
Defined.

(** ** The feed of ScheduledSessions: what changes the store *)

(** X24. A ScheduledSession of the feed changes the store, by a file, an
    index line or a warning, only if its [startDate] is truthy and either
    lies between [now] and [WEEKS_IN_FUTURE_TIME_WINDOW] weeks later or
    cannot be read by moment. *)
Theorem feed_session_changes_store_only_in_window_or_unreadable
    (hashString : string -> string) (mergeToModel : JsVal -> JsVal -> JsVal)
    (momentOf : JsVal -> option Z) (now : Z) (item : JsVal) (st : Store) :
  snd (processScheduledSessionItem hashString mergeToModel momentOf now item st) <> st ->
  truthy (prop "startDate" (prop "data" item)) = true
  /\ match momentOf (prop "startDate" (prop "data" item)) with
     | Some start => now <= start <= addWeeks now WEEKS_IN_FUTURE_TIME_WINDOW
     | None => True
     end.
Proof.
  intros Hchanged.
  exact (feed_session_changes_store_only_if hashString mergeToModel momentOf now item st _ _
           (surjective_pairing _) Hchanged).
Qed.

Lemma feed_session_changes_store_only_in_window_or_unreadable_witness :
  truthy (prop "startDate" (prop "data" feedSession)) = true
  /\ match sampleMomentOf (prop "startDate" (prop "data" feedSession)) with
     | Some start => sampleNow <= start <= addWeeks sampleNow WEEKS_IN_FUTURE_TIME_WINDOW
     | None => True
     end.
Proof.
  apply (feed_session_changes_store_only_in_window_or_unreadable sampleHash
           sampleMergeToModel sampleMomentOf sampleNow feedSession storeWithYoga).
  intros H.
  apply (f_equal (fun st => textFiles st !! getSegmentIndexFilePath "everywhere")) in H.
  vm_compute in H. discriminate H.
Defined.
